(** * draw_curve: the data-processing core ([utils/data_processor.py])

    A shallow embedding of [parse_input_data], [smooth_curve] and
    [calculate_statistics], and the properties of the design document
    checked against it.

    Conventions of the embedding.
    - A Python [str] is a list of Unicode code points ([N]).
    - A Python [float] is an IEEE 754 binary64 number: Rocq's primitive
      [float], whose operations are specified by [FloatAxioms] in terms of
      [SpecFloat].
    - A Python call that may raise returns a [result]; [try]/[except] is a
      [match] on it.
    - The built-ins and the numpy/scipy routines the module calls are modelled
      from their documented behaviour, each under the name it has in Python.
      The three spline interpolators of scipy are parameters of the section
      that embeds [smooth_curve]. *)

From Stdlib Require Import ZArith NArith List Bool Lia.
From Stdlib Require Import Floats Permutation Sorted.
From Stdlib Require String Ascii.
Import ListNotations String.StringSyntax.
Open Scope string_scope.

(* ================================================================== *)
(** * Exceptions *)

Definition char := N.
Definition str := list char.

(** The exception classes that occur.  [ValueError] is the only one the
    module raises itself; the libraries may raise others, all of them
    subclasses of [Exception]. *)
Inductive exn : Type :=
| ValueError (msg : str)
| OtherException (cls : str) (msg : str).

Inductive result (A : Type) : Type :=
| Ok (a : A)
| Raise (e : exn).
Arguments Ok {A} a.
Arguments Raise {A} e.

Definition bind {A B} (r : result A) (k : A -> result B) : result B :=
  match r with
  | Ok a => k a
  | Raise e => Raise e
  end.

Notation "x <- r ;; k" := (bind r (fun x => k))
  (at level 61, r at next level, right associativity).

(** [str(e)] of an exception built from one message. *)
Definition exn_str (e : exn) : str :=
  match e with
  | ValueError msg => msg
  | OtherException _ msg => msg
  end.

(* ================================================================== *)
(** * Text *)

Module Text.

(** Source literals are UTF-8; [u] decodes one into its code points. *)
Fixpoint utf8_decode (bs : list N) : str :=
  match bs with
  | [] => []
  | b :: r =>
      if (b <? 128)%N then b :: utf8_decode r
      else if (b <? 224)%N then
        match r with
        | c1 :: r' => ((b mod 32) * 64 + c1 mod 64)%N :: utf8_decode r'
        | _ => []
        end
      else if (b <? 240)%N then
        match r with
        | c1 :: c2 :: r' =>
            ((b mod 16) * 4096 + (c1 mod 64) * 64 + c2 mod 64)%N
              :: utf8_decode r'
        | _ => []
        end
      else
        match r with
        | c1 :: c2 :: c3 :: r' =>
            ((b mod 8) * 262144 + (c1 mod 64) * 4096
             + (c2 mod 64) * 64 + c3 mod 64)%N :: utf8_decode r'
        | _ => []
        end
  end.

Definition u (s : String.string) : str :=
  utf8_decode (map Ascii.N_of_ascii (String.list_ascii_of_string s)).

Definition NL : char := 10%N.
Definition TAB : char := 9%N.
Definition SPACE : char := 32%N.
Definition COMMA : char := 44%N.
Definition SEMICOLON : char := 59%N.
Definition HASH : char := 35%N.

(** [sep.join(parts)] for a one-character separator. *)
Fixpoint join (sep : char) (parts : list str) : str :=
  match parts with
  | [] => []
  | [p] => p
  | p :: ps => p ++ sep :: join sep ps
  end.

(** A text given line by line. *)
Definition text (lines : list String.string) : str := join NL (map u lines).

(** [str.isspace] on one code point (the interpreter's table of white
    space). *)
Definition isspace (c : char) : bool :=
  ((9 <=? c) && (c <=? 13) || (28 <=? c) && (c <=? 32)
   || (c =? 133) || (c =? 160) || (c =? 5760)
   || (8192 <=? c) && (c <=? 8202)
   || (c =? 8232) || (c =? 8233) || (c =? 8239) || (c =? 8287)
   || (c =? 12288))%N.

Fixpoint lstrip (s : str) : str :=
  match s with
  | [] => []
  | c :: s' => if isspace c then lstrip s' else s
  end.

Definition rstrip (s : str) : str := rev (lstrip (rev s)).

(** [s.strip()] *)
Definition strip (s : str) : str := rstrip (lstrip s).

(** [s.split(sep)] for a one-character separator: one more part than there
    are occurrences of [sep]. *)
Fixpoint split (sep : char) (s : str) : list str :=
  match s with
  | [] => [[]]
  | c :: s' =>
      if (c =? sep)%N then [] :: split sep s'
      else match split sep s' with
           | p :: ps => (c :: p) :: ps
           | [] => [[c]]
           end
  end.

(** [s.startswith(c)] for a one-character prefix. *)
Definition startswith (c : char) (s : str) : bool :=
  match s with
  | c' :: _ => (c' =? c)%N
  | [] => false
  end.

Fixpoint str_eqb (a b : str) : bool :=
  match a, b with
  | [], [] => true
  | x :: a', y :: b' => (x =? y)%N && str_eqb a' b'
  | _, _ => false
  end.

Fixpoint prefixb (p s : str) : bool :=
  match p, s with
  | [], _ => true
  | x :: p', y :: s' => (x =? y)%N && prefixb p' s'
  | _ :: _, [] => false
  end.

(** [p in s] *)
Fixpoint infixb (p s : str) : bool :=
  prefixb p s ||
  match s with
  | [] => false
  | _ :: s' => infixb p s'
  end.

(** [str(n)] for a non-negative integer. *)
Fixpoint digits_upto (fuel : nat) (n : N) (acc : str) : str :=
  match fuel with
  | O => acc
  | S fuel' =>
      let acc' := (48 + n mod 10)%N :: acc in
      if (n / 10 =? 0)%N then acc' else digits_upto fuel' (n / 10) acc'
  end.

Definition str_of_N (n : N) : str :=
  digits_upto (S (N.to_nat (N.log2 n))) n [].

Definition str_of_nat (n : nat) : str := str_of_N (N.of_nat n).

Definition hex_digit (d : N) : char :=
  (if d <? 10 then 48 + d else 87 + d)%N.

Fixpoint hex_fixed (width : nat) (n : N) : str :=
  match width with
  | O => []
  | S w => hex_fixed w (n / 16) ++ [hex_digit (n mod 16)]
  end.

(** The ranges of code points from U+0100 on that [str.isprintable]
    rejects: the table of the interpreter, which follows version 14.0 of
    the Unicode database. *)
Definition unprintable : list (N * N) :=
  [(888, 889); (896, 899); (907, 907); (909, 909); (930, 930); (1328, 1328);
   (1367, 1368); (1419, 1420); (1424, 1424); (1480, 1487); (1515, 1518);
   (1525, 1541); (1564, 1564); (1757, 1757); (1806, 1807); (1867, 1868);
   (1970, 1983); (2043, 2044); (2094, 2095); (2111, 2111); (2140, 2141);
   (2143, 2143); (2155, 2159); (2191, 2199); (2274, 2274); (2436, 2436);
   (2445, 2446); (2449, 2450); (2473, 2473); (2481, 2481); (2483, 2485);
   (2490, 2491); (2501, 2502); (2505, 2506); (2511, 2518); (2520, 2523);
   (2526, 2526); (2532, 2533); (2559, 2560); (2564, 2564); (2571, 2574);
   (2577, 2578); (2601, 2601); (2609, 2609); (2612, 2612); (2615, 2615);
   (2618, 2619); (2621, 2621); (2627, 2630); (2633, 2634); (2638, 2640);
   (2642, 2648); (2653, 2653); (2655, 2661); (2679, 2688); (2692, 2692);
   (2702, 2702); (2706, 2706); (2729, 2729); (2737, 2737); (2740, 2740);
   (2746, 2747); (2758, 2758); (2762, 2762); (2766, 2767); (2769, 2783);
   (2788, 2789); (2802, 2808); (2816, 2816); (2820, 2820); (2829, 2830);
   (2833, 2834); (2857, 2857); (2865, 2865); (2868, 2868); (2874, 2875);
   (2885, 2886); (2889, 2890); (2894, 2900); (2904, 2907); (2910, 2910);
   (2916, 2917); (2936, 2945); (2948, 2948); (2955, 2957); (2961, 2961);
   (2966, 2968); (2971, 2971); (2973, 2973); (2976, 2978); (2981, 2983);
   (2987, 2989); (3002, 3005); (3011, 3013); (3017, 3017); (3022, 3023);
   (3025, 3030); (3032, 3045); (3067, 3071); (3085, 3085); (3089, 3089);
   (3113, 3113); (3130, 3131); (3141, 3141); (3145, 3145); (3150, 3156);
   (3159, 3159); (3163, 3164); (3166, 3167); (3172, 3173); (3184, 3190);
   (3213, 3213); (3217, 3217); (3241, 3241); (3252, 3252); (3258, 3259);
   (3269, 3269); (3273, 3273); (3278, 3284); (3287, 3292); (3295, 3295);
   (3300, 3301); (3312, 3312); (3315, 3327); (3341, 3341); (3345, 3345);
   (3397, 3397); (3401, 3401); (3408, 3411); (3428, 3429); (3456, 3456);
   (3460, 3460); (3479, 3481); (3506, 3506); (3516, 3516); (3518, 3519);
   (3527, 3529); (3531, 3534); (3541, 3541); (3543, 3543); (3552, 3557);
   (3568, 3569); (3573, 3584); (3643, 3646); (3676, 3712); (3715, 3715);
   (3717, 3717); (3723, 3723); (3748, 3748); (3750, 3750); (3774, 3775);
   (3781, 3781); (3783, 3783); (3790, 3791); (3802, 3803); (3808, 3839);
   (3912, 3912); (3949, 3952); (3992, 3992); (4029, 4029); (4045, 4045);
   (4059, 4095); (4294, 4294); (4296, 4300); (4302, 4303); (4681, 4681);
   (4686, 4687); (4695, 4695); (4697, 4697); (4702, 4703); (4745, 4745);
   (4750, 4751); (4785, 4785); (4790, 4791); (4799, 4799); (4801, 4801);
   (4806, 4807); (4823, 4823); (4881, 4881); (4886, 4887); (4955, 4956);
   (4989, 4991); (5018, 5023); (5110, 5111); (5118, 5119); (5760, 5760);
   (5789, 5791); (5881, 5887); (5910, 5918); (5943, 5951); (5972, 5983);
   (5997, 5997); (6001, 6001); (6004, 6015); (6110, 6111); (6122, 6127);
   (6138, 6143); (6158, 6158); (6170, 6175); (6265, 6271); (6315, 6319);
   (6390, 6399); (6431, 6431); (6444, 6447); (6460, 6463); (6465, 6467);
   (6510, 6511); (6517, 6527); (6572, 6575); (6602, 6607); (6619, 6621);
   (6684, 6685); (6751, 6751); (6781, 6782); (6794, 6799); (6810, 6815);
   (6830, 6831); (6863, 6911); (6989, 6991); (7039, 7039); (7156, 7163);
   (7224, 7226); (7242, 7244); (7305, 7311); (7355, 7356); (7368, 7375);
   (7419, 7423); (7958, 7959); (7966, 7967); (8006, 8007); (8014, 8015);
   (8024, 8024); (8026, 8026); (8028, 8028); (8030, 8030); (8062, 8063);
   (8117, 8117); (8133, 8133); (8148, 8149); (8156, 8156); (8176, 8177);
   (8181, 8181); (8191, 8207); (8232, 8239); (8287, 8303); (8306, 8307);
   (8335, 8335); (8349, 8351); (8385, 8399); (8433, 8447); (8588, 8591);
   (9255, 9279); (9291, 9311); (11124, 11125); (11158, 11158); (11508, 11512);
   (11558, 11558); (11560, 11564); (11566, 11567); (11624, 11630);
   (11633, 11646); (11671, 11679); (11687, 11687); (11695, 11695);
   (11703, 11703); (11711, 11711); (11719, 11719); (11727, 11727);
   (11735, 11735); (11743, 11743); (11870, 11903); (11930, 11930);
   (12020, 12031); (12246, 12271); (12284, 12288); (12352, 12352);
   (12439, 12440); (12544, 12548); (12592, 12592); (12687, 12687);
   (12772, 12783); (12831, 12831); (42125, 42127); (42183, 42191);
   (42540, 42559); (42744, 42751); (42955, 42959); (42962, 42962);
   (42964, 42964); (42970, 42993); (43053, 43055); (43066, 43071);
   (43128, 43135); (43206, 43213); (43226, 43231); (43348, 43358);
   (43389, 43391); (43470, 43470); (43482, 43485); (43519, 43519);
   (43575, 43583); (43598, 43599); (43610, 43611); (43715, 43738);
   (43767, 43776); (43783, 43784); (43791, 43792); (43799, 43807);
   (43815, 43815); (43823, 43823); (43884, 43887); (44014, 44015);
   (44026, 44031); (55204, 55215); (55239, 55242); (55292, 63743);
   (64110, 64111); (64218, 64255); (64263, 64274); (64280, 64284);
   (64311, 64311); (64317, 64317); (64319, 64319); (64322, 64322);
   (64325, 64325); (64451, 64466); (64912, 64913); (64968, 64974);
   (64976, 65007); (65050, 65055); (65107, 65107); (65127, 65127);
   (65132, 65135); (65141, 65141); (65277, 65280); (65471, 65473);
   (65480, 65481); (65488, 65489); (65496, 65497); (65501, 65503);
   (65511, 65511); (65519, 65531); (65534, 65535); (65548, 65548);
   (65575, 65575); (65595, 65595); (65598, 65598); (65614, 65615);
   (65630, 65663); (65787, 65791); (65795, 65798); (65844, 65846);
   (65935, 65935); (65949, 65951); (65953, 65999); (66046, 66175);
   (66205, 66207); (66257, 66271); (66300, 66303); (66340, 66348);
   (66379, 66383); (66427, 66431); (66462, 66462); (66500, 66503);
   (66518, 66559); (66718, 66719); (66730, 66735); (66772, 66775);
   (66812, 66815); (66856, 66863); (66916, 66926); (66939, 66939);
   (66955, 66955); (66963, 66963); (66966, 66966); (66978, 66978);
   (66994, 66994); (67002, 67002); (67005, 67071); (67383, 67391);
   (67414, 67423); (67432, 67455); (67462, 67462); (67505, 67505);
   (67515, 67583); (67590, 67591); (67593, 67593); (67638, 67638);
   (67641, 67643); (67645, 67646); (67670, 67670); (67743, 67750);
   (67760, 67807); (67827, 67827); (67830, 67834); (67868, 67870);
   (67898, 67902); (67904, 67967); (68024, 68027); (68048, 68049);
   (68100, 68100); (68103, 68107); (68116, 68116); (68120, 68120);
   (68150, 68151); (68155, 68158); (68169, 68175); (68185, 68191);
   (68256, 68287); (68327, 68330); (68343, 68351); (68406, 68408);
   (68438, 68439); (68467, 68471); (68498, 68504); (68509, 68520);
   (68528, 68607); (68681, 68735); (68787, 68799); (68851, 68857);
   (68904, 68911); (68922, 69215); (69247, 69247); (69290, 69290);
   (69294, 69295); (69298, 69375); (69416, 69423); (69466, 69487);
   (69514, 69551); (69580, 69599); (69623, 69631); (69710, 69713);
   (69750, 69758); (69821, 69821); (69827, 69839); (69865, 69871);
   (69882, 69887); (69941, 69941); (69960, 69967); (70007, 70015);
   (70112, 70112); (70133, 70143); (70162, 70162); (70207, 70271);
   (70279, 70279); (70281, 70281); (70286, 70286); (70302, 70302);
   (70314, 70319); (70379, 70383); (70394, 70399); (70404, 70404);
   (70413, 70414); (70417, 70418); (70441, 70441); (70449, 70449);
   (70452, 70452); (70458, 70458); (70469, 70470); (70473, 70474);
   (70478, 70479); (70481, 70486); (70488, 70492); (70500, 70501);
   (70509, 70511); (70517, 70655); (70748, 70748); (70754, 70783);
   (70856, 70863); (70874, 71039); (71094, 71095); (71134, 71167);
   (71237, 71247); (71258, 71263); (71277, 71295); (71354, 71359);
   (71370, 71423); (71451, 71452); (71468, 71471); (71495, 71679);
   (71740, 71839); (71923, 71934); (71943, 71944); (71946, 71947);
   (71956, 71956); (71959, 71959); (71990, 71990); (71993, 71994);
   (72007, 72015); (72026, 72095); (72104, 72105); (72152, 72153);
   (72165, 72191); (72264, 72271); (72355, 72367); (72441, 72703);
   (72713, 72713); (72759, 72759); (72774, 72783); (72813, 72815);
   (72848, 72849); (72872, 72872); (72887, 72959); (72967, 72967);
   (72970, 72970); (73015, 73017); (73019, 73019); (73022, 73022);
   (73032, 73039); (73050, 73055); (73062, 73062); (73065, 73065);
   (73103, 73103); (73106, 73106); (73113, 73119); (73130, 73439);
   (73465, 73647); (73649, 73663); (73714, 73726); (74650, 74751);
   (74863, 74863); (74869, 74879); (75076, 77711); (77811, 77823);
   (78895, 82943); (83527, 92159); (92729, 92735); (92767, 92767);
   (92778, 92781); (92863, 92863); (92874, 92879); (92910, 92911);
   (92918, 92927); (92998, 93007); (93018, 93018); (93026, 93026);
   (93048, 93052); (93072, 93759); (93851, 93951); (94027, 94030);
   (94088, 94094); (94112, 94175); (94181, 94191); (94194, 94207);
   (100344, 100351); (101590, 101631); (101641, 110575); (110580, 110580);
   (110588, 110588); (110591, 110591); (110883, 110927); (110931, 110947);
   (110952, 110959); (111356, 113663); (113771, 113775); (113789, 113791);
   (113801, 113807); (113818, 113819); (113824, 118527); (118574, 118575);
   (118599, 118607); (118724, 118783); (119030, 119039); (119079, 119080);
   (119155, 119162); (119275, 119295); (119366, 119519); (119540, 119551);
   (119639, 119647); (119673, 119807); (119893, 119893); (119965, 119965);
   (119968, 119969); (119971, 119972); (119975, 119976); (119981, 119981);
   (119994, 119994); (119996, 119996); (120004, 120004); (120070, 120070);
   (120075, 120076); (120085, 120085); (120093, 120093); (120122, 120122);
   (120127, 120127); (120133, 120133); (120135, 120137); (120145, 120145);
   (120486, 120487); (120780, 120781); (121484, 121498); (121504, 121504);
   (121520, 122623); (122655, 122879); (122887, 122887); (122905, 122906);
   (122914, 122914); (122917, 122917); (122923, 123135); (123181, 123183);
   (123198, 123199); (123210, 123213); (123216, 123535); (123567, 123583);
   (123642, 123646); (123648, 124895); (124903, 124903); (124908, 124908);
   (124911, 124911); (124927, 124927); (125125, 125126); (125143, 125183);
   (125260, 125263); (125274, 125277); (125280, 126064); (126133, 126208);
   (126270, 126463); (126468, 126468); (126496, 126496); (126499, 126499);
   (126501, 126502); (126504, 126504); (126515, 126515); (126520, 126520);
   (126522, 126522); (126524, 126529); (126531, 126534); (126536, 126536);
   (126538, 126538); (126540, 126540); (126544, 126544); (126547, 126547);
   (126549, 126550); (126552, 126552); (126554, 126554); (126556, 126556);
   (126558, 126558); (126560, 126560); (126563, 126563); (126565, 126566);
   (126571, 126571); (126579, 126579); (126584, 126584); (126589, 126589);
   (126591, 126591); (126602, 126602); (126620, 126624); (126628, 126628);
   (126634, 126634); (126652, 126703); (126706, 126975); (127020, 127023);
   (127124, 127135); (127151, 127152); (127168, 127168); (127184, 127184);
   (127222, 127231); (127406, 127461); (127491, 127503); (127548, 127551);
   (127561, 127567); (127570, 127583); (127590, 127743); (128728, 128732);
   (128749, 128751); (128765, 128767); (128884, 128895); (128985, 128991);
   (129004, 129007); (129009, 129023); (129036, 129039); (129096, 129103);
   (129114, 129119); (129160, 129167); (129198, 129199); (129202, 129279);
   (129620, 129631); (129646, 129647); (129653, 129655); (129661, 129663);
   (129671, 129679); (129709, 129711); (129723, 129727); (129734, 129743);
   (129754, 129759); (129768, 129775); (129783, 129791); (129939, 129939);
   (129995, 130031); (130042, 131071); (173792, 173823); (177977, 177983);
   (178206, 178207); (183970, 183983); (191457, 194559); (195102, 196607);
   (201547, 917759); (918000, 1114111)]%N.

(** [str.isprintable] on one code point: whether [repr] copies it as it
    is. *)
Definition isprintable (c : char) : bool :=
  (if c <? 256 then
     (32 <=? c) && (c <? 127) || (161 <=? c) && negb (c =? 173)
   else negb (existsb (fun r => (fst r <=? c) && (c <=? snd r)) unprintable))%N.

Definition repr_char (quote : char) (c : char) : str :=
  if ((c =? quote) || (c =? 92))%N then [92; c]%N
  else if (c =? 9)%N then u "\t"
  else if (c =? 10)%N then u "\n"
  else if (c =? 13)%N then u "\r"
  else if isprintable c then [c]
  else if (c <? 256)%N then u "\x" ++ hex_fixed 2 c
  else if (c <? 65536)%N then u "\u" ++ hex_fixed 4 c
  else u "\U" ++ hex_fixed 8 c.

(** [repr(s)]: single quotes, unless [s] holds a single quote and no double
    quote. *)
Definition repr (s : str) : str :=
  let quote : char :=
    if existsb (N.eqb 39) s && negb (existsb (N.eqb 34) s) then 34%N
    else 39%N in
  quote :: flat_map (repr_char quote) s ++ [quote].

End Text.
Import Text.

(* ================================================================== *)
(** * Numbers: the built-in [float] *)

Module Num.

Definition is_digit (c : char) : bool := ((48 <=? c) && (c <=? 57))%N.

(** [m * 10^e10], rounded to the nearest binary64 number, ties to even.
    For a negative exponent the quotient is computed with three bits more
    than the format holds, the last one recording whether the division left
    a remainder. *)
Definition float_of_decimal (neg : bool) (m : Z) (e10 : Z) : float :=
  let sgn z := if neg then (- z)%Z else z in
  SF2Prim
    (if (m =? 0)%Z then S754_zero neg
     else if (0 <=? e10)%Z then
       binary_normalize prec emax (sgn (m * 10 ^ e10)%Z) 0 false
     else
       let d := (10 ^ (- e10))%Z in
       let s := Z.max 0 (Z.log2 d + prec + 3 - Z.log2 m) in
       let n := (m * 2 ^ s)%Z in
       let sticky := if (n mod d =? 0)%Z then 0%Z else 1%Z in
       binary_normalize prec emax (sgn (2 * (n / d) + sticky)%Z)
         (- s - 1) false).

(** [float(n)] for a non-negative integer. *)
Definition float_of_nat (n : nat) : float :=
  float_of_decimal false (Z.of_nat n) 0.

Fixpoint span_digits (s : str) : str * str :=
  match s with
  | c :: s' =>
      if is_digit c then let (ds, r) := span_digits s' in (c :: ds, r)
      else ([], s)
  | [] => ([], [])
  end.

Definition digits_value (ds : str) : Z :=
  fold_left (fun acc c => (10 * acc + (Z.of_N c - 48))%Z) ds 0%Z.

(** An optional sign: whether it is a minus, and the rest. *)
Definition take_sign (s : str) : bool * str :=
  match s with
  | 43%N :: r => (false, r)
  | 45%N :: r => (true, r)
  | _ => (false, s)
  end.

Definition lower (c : char) : char :=
  if ((65 <=? c) && (c <=? 90))%N then (c + 32)%N else c.

(** White space as [float] strips it: the ASCII one, and what the
    interpreter turns into a space beforehand (code points above 127 that
    are white space). *)
Definition float_space (c : char) : bool :=
  ((9 <=? c) && (c <=? 13) || (c =? 32) || (127 <=? c) && isspace c)%N.

Fixpoint lstrip_float (s : str) : str :=
  match s with
  | [] => []
  | c :: s' => if float_space c then lstrip_float s' else s
  end.

(** Underscores are dropped when each stands between two digits; any other
    underscore makes the literal invalid. *)
Fixpoint drop_underscores (prev : char) (s : str) : option str :=
  match s with
  | [] => if (prev =? 95)%N then None else Some []
  | c :: s' =>
      if (c =? 95)%N then
        if is_digit prev then drop_underscores c s' else None
      else if (prev =? 95)%N && negb (is_digit c) then None
      else option_map (cons c) (drop_underscores c s')
  end.

(** The grammar of [float]'s argument once stripped:
    [[sign] (inf | infinity | nan | digits [. digits] [(e|E) [sign] digits])],
    with at least one digit in the mantissa, letters in either case.  The
    digits are the ASCII ones: [float] below has turned those of other
    scripts into them. *)
Definition parse_float (s : str) : option float :=
  let (neg, body) := take_sign s in
  let word := map lower body in
  if str_eqb word (u "inf") || str_eqb word (u "infinity") then
    Some (if neg then neg_infinity else infinity)
  else if str_eqb word (u "nan") then Some nan
  else
    let (ip, r1) := span_digits body in
    let (fp, r2) :=
      match r1 with
      | 46%N :: r => span_digits r
      | _ => ([], r1)
      end in
    match ip ++ fp with
    | [] => None
    | mant =>
        let m := digits_value mant in
        let shift := Z.of_nat (length fp) in
        match r2 with
        | [] => Some (float_of_decimal neg m (- shift))
        | e :: r3 =>
            if (lower e =? 101)%N then
              let (eneg, r4) := take_sign r3 in
              match span_digits r4 with
              | ((_ :: _) as ds, []) =>
                  let ex := digits_value ds in
                  Some (float_of_decimal neg m
                          ((if eneg then - ex else ex) - shift))
              | _ => None
              end
            else None
        end
    end.

(** The message of the [ValueError] that [float(s)] raises. *)
Definition float_error (s : str) : str :=
  u "could not convert string to float: " ++ repr s.

(** The code points, outside ASCII, of the digit zero of each script; the
    nine code points after each are its digits one to nine.  The table is
    that of the interpreter, which follows version 14.0 of the Unicode
    database. *)
Definition decimal_zeros : list N :=
  [1632; 1776; 1984; 2406; 2534; 2662; 2790; 2918; 3046; 3174; 3302; 3430;
   3558; 3664; 3792; 3872; 4160; 4240; 6112; 6160; 6470; 6608; 6784; 6800;
   6992; 7088; 7232; 7248; 42528; 43216; 43264; 43472; 43504; 43600; 44016;
   65296; 66720; 68912; 69734; 69872; 69942; 70096; 70384; 70736; 70864;
   71248; 71360; 71472; 71904; 72016; 72784; 73040; 73120; 92768; 92864;
   93008; 120782; 120792; 120802; 120812; 120822; 123200; 123632; 125264;
   130032]%N.

(** A decimal digit of any script as the ASCII digit of the same value,
    which is what [float] reads it as; any other code point as it is. *)
Definition ascii_digit (c : char) : char :=
  match find (fun z => (z <=? c) && (c <? z + 10))%N decimal_zeros with
  | Some z => (48 + (c - z))%N
  | None => c
  end.

(** [float(s)] for a string [s]. *)
Definition float (s : str) : result PrimFloat.float :=
  let body := rev (lstrip_float (rev (lstrip_float (map ascii_digit s)))) in
  match drop_underscores 0%N body with
  | Some lit =>
      match parse_float lit with
      | Some f => Ok f
      | None => Raise (ValueError (float_error s))
      end
  | None => Raise (ValueError (float_error s))
  end.

End Num.


(* ================================================================== *)
(** * Built-ins on lists of numbers *)

Module Builtins.

(** [all(l[i] < l[i+1] for i in range(len(l)-1))] *)
Fixpoint strictly_increasing (l : list float) : bool :=
  match l with
  | a :: (b :: _) as t => (a <? b)%float && strictly_increasing t
  | _ => true
  end.

(** One step of a stable sort by insertion: [p] goes behind every element
    whose key is not greater than its own under [lt]. *)
Fixpoint insort (lt : float -> float -> bool) (p : float * float)
    (l : list (float * float)) : list (float * float) :=
  match l with
  | [] => [p]
  | q :: l' => if lt (fst p) (fst q) then p :: l else q :: insort lt p l'
  end.

Definition sort_by (lt : float -> float -> bool)
    (pairs : list (float * float)) : list (float * float) :=
  fold_left (fun acc p => insort lt p acc) pairs [].

(** [sorted(pairs, key=lambda p: p[0])].  The built-in sort is stable and
    compares keys with [<] only; on keys that [<] orders (no NaN among
    them) its result is the one stable sorted rearrangement, which insertion
    from the left computes.  With a NaN among the keys the result of the
    built-in depends on the runs it finds (it leaves [2, nan, 1] as it
    is), which insertion does not follow: what is proved of the order of
    [sorted] is stated for keys without NaN. *)
Definition sorted (pairs : list (float * float)) : list (float * float) :=
  sort_by PrimFloat.ltb pairs.

(** [zip(a, b)] is [List.combine]; [zip( *pairs)] is [List.split]. *)

(** [min(l)] and [max(l)]: the first element, replaced by each later one
    that is smaller (larger); [ValueError] on an empty list. *)
Definition min (l : list float) : result float :=
  match l with
  | [] => Raise (ValueError (u "min() arg is an empty sequence"))
  | a :: l' =>
      Ok (fold_left (fun cur x => if (x <? cur)%float then x else cur) l' a)
  end.

Definition max (l : list float) : result float :=
  match l with
  | [] => Raise (ValueError (u "max() arg is an empty sequence"))
  | a :: l' =>
      Ok (fold_left (fun cur x => if (cur <? x)%float then x else cur) l' a)
  end.

(** [sum(l)]: the elements added from the left, starting from 0 (the
    interpreter adds them so up to version 3.11; later versions carry a
    correction term along). *)
Definition sum (l : list float) : float :=
  fold_left (fun acc x => (acc + x)%float) l 0%float.

End Builtins.

(* ================================================================== *)
(** * [parse_input_data] *)

(** The separators, in the order the loop tries them. *)
Definition separators : list char := [SPACE; COMMA; TAB; SEMICOLON].

(** The loop [for sep in ...: parts = line.split(sep); if len(parts) >= 2:
    break], from the value [parts] has when the loop is entered. *)
Fixpoint split_loop (seps : list char) (parts : list str) (line : str)
  : list str :=
  match seps with
  | [] => parts
  | sep :: seps' =>
      let parts := split sep line in
      if 2 <=? length parts then parts else split_loop seps' parts line
  end.

Definition format_error (line_num : nat) (line : str) : str :=
  u "第" ++ str_of_nat line_num ++ u "行格式错误: " ++ line.

Definition parse_error (line_num : nat) (cause : str) : str :=
  u "第" ++ str_of_nat line_num ++ u "行解析错误: " ++ cause.

(** The body of the [try] for one stripped line: the two numbers, or what
    the body raises. *)
Definition parse_line (line_num : nat) (line : str) : result (float * float) :=
  let parts := split_loop separators [] line in
  if length parts <? 2 then Raise (ValueError (format_error line_num line))
  else
    x <- Num.float (nth 0 parts []) ;;
    y <- Num.float (nth 1 parts []) ;;
    Ok (x, y).

(** Whether the loop skips the (stripped) line. *)
Definition skipped (line : str) : bool :=
  match line with
  | [] => true
  | _ => startswith HASH line
  end.

(** The loop over [enumerate(lines, 1)], from line number [line_num] on,
    with the lists collected so far.  [except ValueError as e] rewraps a
    [ValueError] and lets any other exception through. *)
Fixpoint parse_lines (line_num : nat) (lines : list str)
    (x_list y_list : list float) : result (list float * list float) :=
  match lines with
  | [] => Ok (x_list, y_list)
  | raw :: lines' =>
      let line := strip raw in
      if skipped line then parse_lines (S line_num) lines' x_list y_list
      else
        match parse_line line_num line with
        | Ok (x, y) =>
            parse_lines (S line_num) lines' (x_list ++ [x]) (y_list ++ [y])
        | Raise (ValueError e) =>
            Raise (ValueError (parse_error line_num (exn_str (ValueError e))))
        | Raise e => Raise e
        end
  end.

Definition insufficient_data : str := u "至少需要2组数据点才能绘制曲线".

(** The part after the loop: the size check and the ordering of the
    points. *)
Definition normalize (x_list y_list : list float)
  : result (list float * list float) :=
  if length x_list <? 2 then Raise (ValueError insufficient_data)
  else if negb (Builtins.strictly_increasing x_list) then
    let sorted_pairs := Builtins.sorted (combine x_list y_list) in
    Ok (List.split sorted_pairs)
  else Ok (x_list, y_list).

Definition parse_input_data (input_text : str)
  : result (list float * list float) :=
  let lines := split NL (strip input_text) in
  xy <- parse_lines 1 lines [] [] ;;
  normalize (fst xy) (snd xy).

(* ================================================================== *)
(** * The numpy and scipy routines [smooth_curve] calls *)

Module Numpy.

Definition isnan (f : float) : bool := negb (f =? f)%float.

Definition str_of_Z (z : Z) : str :=
  if (z <? 0)%Z then u "-" ++ str_of_N (Z.to_N (- z)) else str_of_N (Z.to_N z).

(** Sample [i] of [linspace] before the end point is put in: [i * step]
    from [start], with [step = (stop - start) / div]; when the step
    underflows to zero the quotient [i / div] is scaled by the span
    instead; [div = 0] (a single sample) scales [i] by the span. *)
Definition sample (start stop : float) (div : nat) (i : nat) : float :=
  let delta := (stop - start)%float in
  let y := Num.float_of_nat i in
  if (0 <? div)%nat then
    let step := (delta / Num.float_of_nat div)%float in
    if (step =? 0)%float then (y / Num.float_of_nat div * delta + start)%float
    else (y * step + start)%float
  else (y * delta + start)%float.

(** [y[-1] = stop] *)
Fixpoint set_last (y : list float) (stop : float) : list float :=
  match y with
  | [] => []
  | [_] => [stop]
  | a :: y' => a :: set_last y' stop
  end.

(** [np.linspace(start, stop, num)] with the end point included. *)
Definition linspace (start stop : float) (num : Z) : result (list float) :=
  if (num <? 0)%Z then
    Raise (ValueError (u "Number of samples, " ++ str_of_Z num
                         ++ u ", must be non-negative."))
  else
    let n := Z.to_nat num in
    let y := map (sample start stop (n - 1)) (seq 0 n) in
    Ok (if (1 <? n)%nat then set_last y stop else y).

(** The order [np.argsort] sorts by: NaN after every number. *)
Definition sort_lt (a b : float) : bool :=
  (a <? b)%float || negb (isnan a) && isnan b.

(** [np.interp] between the points after [p], for [fst p <= x]. *)
Fixpoint interp_from (x : float) (p : float * float)
    (rest : list (float * float)) : float :=
  match rest with
  | [] => snd p
  | q :: rest' =>
      if (fst q <=? x)%float then interp_from x q rest'
      else if (fst p =? x)%float then snd p
      else
        let slope := ((snd q - snd p) / (fst q - fst p))%float in
        let r := (slope * (x - fst p) + snd p)%float in
        if isnan r then
          let r' := (slope * (x - fst q) + snd q)%float in
          if isnan r' && (snd p =? snd q)%float then snd p else r'
        else r
  end.

(** [np.interp(x, xp, fp)] at one [x], for the points [combine xp fp]
    sorted by [xp]. *)
Definition interp (pts : list (float * float)) (x : float) : float :=
  if isnan x then x
  else
    match pts with
    | [] => nan
    | p :: rest =>
        let q := last pts p in
        if (fst q <? x)%float then snd q
        else if (x <? fst p)%float then snd p
        else interp_from x p rest
    end.

End Numpy.

Module Scipy.

(** What a constructed interpolator is: a function of the new abscissae
    that may raise. *)
Definition interp_func : Type := list float -> result (list float).

(** [interpolate.interp1d(x, y, kind='linear')]: the points are sorted by
    [x]; calling it outside the range of [x] raises ([bounds_error]).  The
    text of the two bounds errors is that of the older releases of scipy;
    the later ones also quote the offending value and the bound. *)
Definition interp1d_linear (x y : list float) : result interp_func :=
  if negb (length x =? length y)%nat then
    Raise (ValueError
             (u "x and y arrays must be equal in length along interpolation axis."))
  else
    let pts := Builtins.sort_by Numpy.sort_lt (combine x y) in
    match pts with
    | [] => Raise (ValueError (u "x and y arrays must have at least 1 entries"))
    | p :: _ =>
        Ok (fun x_new =>
              let y_new := map (Numpy.interp pts) x_new in
              if existsb (fun v => (v <? fst p)%float) x_new then
                Raise (ValueError
                         (u "A value in x_new is below the interpolation range."))
              else if existsb (fun v => (fst (last pts p) <? v)%float) x_new then
                Raise (ValueError
                         (u "A value in x_new is above the interpolation range."))
              else Ok y_new)
    end.

End Scipy.

(* ================================================================== *)
(** * [smooth_curve] *)

Section SmoothCurve.

(** The spline interpolators of scipy, whose algorithms are not part of
    this module: [interp1d(x, y, kind='quadratic')],
    [interp1d(x, y, kind='cubic')] and [Akima1DInterpolator(x, y)].  Each
    may raise when it is constructed and when it is called. *)
Variable interp1d_quadratic : list float -> list float -> result Scipy.interp_func.
Variable interp1d_cubic : list float -> list float -> result Scipy.interp_func.
Variable Akima1DInterpolator : list float -> list float -> result Scipy.interp_func.

Definition unsupported_method (method : str) : str :=
  u "不支持的插值方法: " ++ method.

Definition insufficient_points : str := u "数据点不足".

(** The [if]/[elif] chain on [method]: the interpolator constructed, or
    what the chain raises. *)
Definition dispatch (x_list y_list : list float) (method : str)
  : result Scipy.interp_func :=
  if str_eqb method (u "linear") then Scipy.interp1d_linear x_list y_list
  else if str_eqb method (u "quadratic") then interp1d_quadratic x_list y_list
  else if str_eqb method (u "cubic") then interp1d_cubic x_list y_list
  else if str_eqb method (u "akima") then Akima1DInterpolator x_list y_list
  else Raise (ValueError (unsupported_method method)).

(** The body of the [try]. *)
Definition try_method (x_list y_list : list float) (method : str)
    (smooth_x : list float) : result (list float) :=
  interp_func <- dispatch x_list y_list method ;;
  interp_func smooth_x.

(** The body of the [except Exception]. *)
Definition linear_fallback (x_list y_list smooth_x : list float)
  : result (list float) :=
  interp_func <- Scipy.interp1d_linear x_list y_list ;;
  interp_func smooth_x.

(** [smooth_x = np.linspace(min(x_list), max(x_list), num_points)] *)
Definition smooth_x_of (x_list : list float) (num_points : Z)
  : result (list float) :=
  lo <- Builtins.min x_list ;;
  hi <- Builtins.max x_list ;;
  Numpy.linspace lo hi num_points.

Definition smooth_curve (x_list y_list : list float) (method : str)
    (num_points : Z) : result (list float * list float) :=
  if (length x_list <? 2)%nat then Raise (ValueError insufficient_points)
  else
    smooth_x <- smooth_x_of x_list num_points ;;
    match try_method x_list y_list method smooth_x with
    | Ok smooth_y => Ok (smooth_x, smooth_y)
    | Raise _ =>
        smooth_y <- linear_fallback x_list y_list smooth_x ;;
        Ok (smooth_x, smooth_y)
    end.

(** The defaults of the signature: [method='cubic'], [num_points=1000]. *)
Definition default_method : str := u "cubic".
Definition default_num_points : Z := 1000.

Definition supported (method : str) : bool :=
  existsb (str_eqb method) [u "linear"; u "quadratic"; u "cubic"; u "akima"].

End SmoothCurve.

(* ================================================================== *)
(** * [calculate_statistics] *)

(** The dictionary returned, one field per key: ['最小值'], ['最大值'],
    ['平均值'], ['数据点数']. *)
Record statistics : Type := {
  minimum : float;
  maximum : float;
  mean : float;
  count : nat
}.

Definition calculate_statistics (y_list : list float) : result statistics :=
  lo <- Builtins.min y_list ;;
  hi <- Builtins.max y_list ;;
  Ok {| minimum := lo;
        maximum := hi;
        mean := (Builtins.sum y_list / Num.float_of_nat (length y_list))%float;
        count := length y_list |}.

(* ================================================================== *)
(** * The vocabulary of the properties *)

Module Spec.

(** A number, as opposed to NaN. *)
Definition notnan (f : float) : bool := (f =? f)%float.

(** [l[i] <= l[i+1]] for every [i]. *)
Fixpoint nondecreasing (l : list float) : bool :=
  match l with
  | a :: (b :: _) as t => (a <=? b)%float && nondecreasing t
  | _ => true
  end.

(** No two neighbours compare equal. *)
Fixpoint neighbours_differ (l : list float) : bool :=
  match l with
  | a :: (b :: _) as t => negb (a =? b)%float && neighbours_differ t
  | _ => true
  end.

(** The points whose abscissa equals [k]. *)
Definition same_x (k : float) (p : float * float) : bool :=
  (fst p =? k)%float.

(** The comparison of two floats as their specification makes it: none
    when one of them is NaN. *)
Definition cmp (a b : float) : option comparison :=
  SFcompare (Prim2SF a) (Prim2SF b).

(** [p] is not to the right of [q], said with [<] alone. *)
Definition not_after (p q : float * float) : Prop :=
  (fst q <? fst p)%float = false.

(** The first point is not to the right of the second. *)
Definition x_le (p q : float * float) : Prop :=
  (fst p <=? fst q)%float = true.

(** The lines of a text as the loop sees them. *)
Definition lines_of (input_text : str) : list str :=
  split NL (strip input_text).

(** The tokens the loop over the separators leaves for a line. *)
Definition tokens (line : str) : list str :=
  split_loop separators [] line.

(** The first separator, in the order of the loop, that cuts the line into
    two tokens or more. *)
Definition first_separator (line : str) : option char :=
  find (fun sep => 2 <=? length (split sep line)) separators.

(** The line gives a point: two tokens or more, the first two of which
    [float] accepts. *)
Definition parses (line : str) : bool :=
  match tokens line with
  | t0 :: t1 :: _ =>
      match Num.float t0, Num.float t1 with
      | Ok _, Ok _ => true
      | _, _ => false
      end
  | _ => false
  end.

(** A line the loop gets past: skipped, or giving a point. *)
Definition line_passes (raw : str) : bool :=
  skipped (strip raw) || parses (strip raw).

(** The message starts by naming line [n]. *)
Definition names_line_number (msg : str) (n : nat) : bool :=
  prefixb (u "第" ++ str_of_nat n ++ u "行") msg.

(** The message contains the text [s]. *)
Definition mentions (msg s : str) : bool := infixb s msg.

(** The token of the line that [float] rejects first, when the line has two
    tokens or more. *)
Definition offending_token (line : str) : option str :=
  match tokens line with
  | t0 :: t1 :: _ =>
      match Num.float t0, Num.float t1 with
      | Raise _, _ => Some t0
      | Ok _, Raise _ => Some t1
      | Ok _, Ok _ => None
      end
  | _ => None
  end.

(** What the body of the [try] raises on a line that gives no point:
    [float]'s message about the token it rejects, or the format message
    when there are fewer than two tokens. *)
Definition failure_cause (line_num : nat) (line : str) : str :=
  match offending_token line with
  | Some tok => Num.float_error tok
  | None => format_error line_num line
  end.

(** The errors of the design document; the module raises each as a
    [ValueError] with its own message. *)
Definition ParseError (line_num : nat) (cause : str) : exn :=
  ValueError (parse_error line_num cause).
Definition InsufficientDataError : exn := ValueError insufficient_data.
Definition InsufficientPointsError : exn := ValueError insufficient_points.
Definition UnsupportedMethodError (method : str) : exn :=
  ValueError (unsupported_method method).

(** Sample [i] of [n] evenly spaced ones over [[lo, hi]]: [i] steps of
    [(hi - lo) / (n - 1)] from [lo], the last of two or more being [hi]
    itself. *)
Definition evenly_spaced (lo hi : float) (n i : nat) : float :=
  if (1 <? n) && (i =? n - 1) then hi else Numpy.sample lo hi (n - 1) i.

(** Whether a message starts with an ASCII character, as those of numpy
    and scipy do and those of this module do not. *)
Definition ascii_head (msg : str) : bool :=
  match msg with
  | c :: _ => (c <? 128)%N
  | [] => false
  end.

(** A spline interpolator that cannot be constructed on the given data. *)
Definition failing_interpolator : list float -> list float -> result Scipy.interp_func :=
  fun _ _ =>
    Raise (ValueError (u "x and y arrays must have at least 3 entries")).

End Spec.
Import Spec.

(* ================================================================== *)
(** * The main window ([gui/main_window.py]) *)

Module Window.

(** [format(f, '.6f')]: the exact value of [f] rounded to six decimals,
    ties to even; the sign is kept when the digits are all zero. *)
Definition format_6f (f : float) : str :=
  let minus (s : bool) : str := if s then u "-" else [] in
  match Prim2SF f with
  | S754_nan => u "nan"
  | S754_infinity s => minus s ++ u "inf"
  | S754_zero s => minus s ++ u "0.000000"
  | S754_finite s m e =>
      let n := (Zpos m * 1000000)%Z in
      let q :=
        if (0 <=? e)%Z then (n * 2 ^ e)%Z
        else
          let d := (2 ^ (- e))%Z in
          let q := (n / d)%Z in
          let r := (n mod d)%Z in
          if (d <? 2 * r)%Z || ((d =? 2 * r)%Z && Z.odd q) then (q + 1)%Z
          else q in
      minus s ++ str_of_N (Z.to_N (q / 1000000)) ++ u "."
        ++ tl (str_of_N (Z.to_N (1000000 + q mod 1000000)))
  end.

(** The text built from [stats.items()]: the three numbers with six
    decimals, the count as an integer. *)
Definition stats_text (stats : statistics) : str :=
  u "统计信息:" ++ [NL]
  ++ u "最小值: " ++ format_6f (minimum stats) ++ [NL]
  ++ u "最大值: " ++ format_6f (maximum stats) ++ [NL]
  ++ u "平均值: " ++ format_6f (mean stats) ++ [NL]
  ++ u "数据点数: " ++ str_of_nat (count stats) ++ [NL].

(** What [plot_curve] puts on the figure. *)
Record plot : Type := {
  scatter_x : list float;
  scatter_y : list float;
  line_x : list float;
  line_y : list float;
  line_label : str;
  title : str;
  xlabel : str;
  ylabel : str
}.

(** What the window shows or writes: message boxes, the figure drawn, the
    file saved. *)
Inductive effect : Type :=
| Warning (caption message : str)
| Critical (caption message : str)
| Information (caption message : str)
| Drawn (p : plot)
| Saved (file_path : str).

(** The attributes of [MainWindow] and the state of the widgets its
    methods read or set: the text of the three editors, the current text
    of the combo box, the text of the statistics label, whether the export
    button is enabled. *)
Record MainWindow : Type := {
  data_input : str;
  method_combo : str;
  x_label_input : str;
  y_label_input : str;
  stats_label : str;
  export_btn : bool;
  x_data : list float;
  y_data : list float;
  smooth_x : option (list float);
  smooth_y : option (list float)
}.

(** The items of the combo box, in the order [init_ui] adds them. *)
Definition method_items : list str :=
  [u "cubic"; u "quadratic"; u "linear"; u "akima"].

(** The window after [__init__]. *)
Definition init : MainWindow :=
  {| data_input := [];
     method_combo := u "cubic";
     x_label_input := u "X 坐标";
     y_label_input := u "Y 坐标";
     stats_label := u "统计信息将在这里显示";
     export_btn := false;
     x_data := [];
     y_data := [];
     smooth_x := None;
     smooth_y := None |}.

(** The literal of [load_preset_data]: it starts with a line break and
    ends with a line of eight spaces. *)
Definition preset_data : str :=
  NL :: text ["# 示例数据：正弦曲线采样点";
              "0.0 0.0"; "1.0 0.841"; "2.0 0.909"; "3.0 0.141";
              "4.0 -0.757"; "5.0 -0.959"; "6.0 -0.279"; "7.0 0.657";
              "8.0 0.989"; "9.0 0.412"; "10.0 -0.544"; "        "].

Definition load_preset_data (w : MainWindow) : MainWindow :=
  {| data_input := preset_data;
     method_combo := method_combo w;
     x_label_input := x_label_input w;
     y_label_input := y_label_input w;
     stats_label := stats_label w;
     export_btn := export_btn w;
     x_data := x_data w;
     y_data := y_data w;
     smooth_x := smooth_x w;
     smooth_y := smooth_y w |}.

(** [s.strip() or default] *)
Definition strip_or (s default : str) : str :=
  match strip s with
  | [] => default
  | t => t
  end.

Section Methods.

(** The spline interpolators of scipy, as for [smooth_curve], and the two
    calls into matplotlib, each of which may raise: the drawing of the
    figure (from [figure.clear()] to [canvas.draw()]) and
    [figure.savefig]. *)
Variable interp1d_quadratic : list float -> list float -> result Scipy.interp_func.
Variable interp1d_cubic : list float -> list float -> result Scipy.interp_func.
Variable Akima1DInterpolator : list float -> list float -> result Scipy.interp_func.
Variable draw : plot -> result unit.
Variable savefig : str -> result unit.

(** The message box of the [except] of [plot_curve]. *)
Definition plot_failed (e : exn) : effect :=
  Critical (u "错误") (u "绘制失败：" ++ NL :: exn_str e).

(** [plot_curve]: the window afterwards and what was shown.  Each
    assignment made before an exception stays made. *)
Definition plot_curve (w : MainWindow) : MainWindow * list effect :=
  let input_text := data_input w in
  match strip input_text with
  | [] => (w, [Warning (u "警告") (u "请输入数据")])
  | _ =>
      match parse_input_data input_text with
      | Raise e => (w, [plot_failed e])
      | Ok (xs, ys) =>
          let w1 :=
            {| data_input := data_input w;
               method_combo := method_combo w;
               x_label_input := x_label_input w;
               y_label_input := y_label_input w;
               stats_label := stats_label w;
               export_btn := export_btn w;
               x_data := xs;
               y_data := ys;
               smooth_x := smooth_x w;
               smooth_y := smooth_y w |} in
          match calculate_statistics ys with
          | Raise e => (w1, [plot_failed e])
          | Ok stats =>
              let w2 :=
                {| data_input := data_input w;
                   method_combo := method_combo w;
                   x_label_input := x_label_input w;
                   y_label_input := y_label_input w;
                   stats_label := stats_text stats;
                   export_btn := export_btn w;
                   x_data := xs;
                   y_data := ys;
                   smooth_x := smooth_x w;
                   smooth_y := smooth_y w |} in
              let method := method_combo w in
              match smooth_curve interp1d_quadratic interp1d_cubic
                      Akima1DInterpolator xs ys method 1000 with
              | Raise e => (w2, [plot_failed e])
              | Ok (sx, sy) =>
                  let w3 (enabled : bool) :=
                    {| data_input := data_input w;
                       method_combo := method_combo w;
                       x_label_input := x_label_input w;
                       y_label_input := y_label_input w;
                       stats_label := stats_text stats;
                       export_btn := enabled;
                       x_data := xs;
                       y_data := ys;
                       smooth_x := Some sx;
                       smooth_y := Some sy |} in
                  let p :=
                    {| scatter_x := xs;
                       scatter_y := ys;
                       line_x := sx;
                       line_y := sy;
                       line_label := method ++ u "插值曲线";
                       title := u "光滑曲线图";
                       xlabel := strip_or (x_label_input w) (u "X 坐标");
                       ylabel := strip_or (y_label_input w) (u "Y 坐标") |} in
                  match draw p with
                  | Raise e => (w3 (export_btn w), [plot_failed e])
                  | Ok _ => (w3 true, [Drawn p])
                  end
              end
          end
      end
  end.

(** [export_image], given the path the file dialog returns if it is
    opened (empty when the dialog is cancelled). *)
Definition export_image (w : MainWindow) (file_path : str)
  : MainWindow * list effect :=
  match smooth_x w, smooth_y w with
  | Some _, Some _ =>
      match file_path with
      | [] => (w, [])
      | _ =>
          match savefig file_path with
          | Ok _ =>
              (w, [Saved file_path;
                   Information (u "成功")
                     (u "图片已成功导出到:" ++ NL :: file_path)])
          | Raise e =>
              (w, [Critical (u "错误") (u "导出失败：" ++ NL :: exn_str e)])
          end
      end
  | _, _ => (w, [Warning (u "警告") (u "请先绘制曲线")])
  end.

(** What the user can do with the widgets [init_ui] builds: type into the
    three editors, pick an item of the combo box, press one of the three
    buttons.  The export button is pressed only while it is enabled, and
    then the file dialog gives a path. *)
Inductive action : Type :=
| TypeData (s : str)
| TypeXLabel (s : str)
| TypeYLabel (s : str)
| PickMethod (i : nat)
| PressPreset
| PressPlot
| PressExport (file_path : str).

(** The slot each action triggers. *)
Definition step (w : MainWindow) (a : action) : MainWindow * list effect :=
  match a with
  | TypeData s =>
      ({| data_input := s;
          method_combo := method_combo w;
          x_label_input := x_label_input w;
          y_label_input := y_label_input w;
          stats_label := stats_label w;
          export_btn := export_btn w;
          x_data := x_data w;
          y_data := y_data w;
          smooth_x := smooth_x w;
          smooth_y := smooth_y w |}, [])
  | TypeXLabel s =>
      ({| data_input := data_input w;
          method_combo := method_combo w;
          x_label_input := s;
          y_label_input := y_label_input w;
          stats_label := stats_label w;
          export_btn := export_btn w;
          x_data := x_data w;
          y_data := y_data w;
          smooth_x := smooth_x w;
          smooth_y := smooth_y w |}, [])
  | TypeYLabel s =>
      ({| data_input := data_input w;
          method_combo := method_combo w;
          x_label_input := x_label_input w;
          y_label_input := s;
          stats_label := stats_label w;
          export_btn := export_btn w;
          x_data := x_data w;
          y_data := y_data w;
          smooth_x := smooth_x w;
          smooth_y := smooth_y w |}, [])
  | PickMethod i =>
      ({| data_input := data_input w;
          method_combo := nth i method_items (method_combo w);
          x_label_input := x_label_input w;
          y_label_input := y_label_input w;
          stats_label := stats_label w;
          export_btn := export_btn w;
          x_data := x_data w;
          y_data := y_data w;
          smooth_x := smooth_x w;
          smooth_y := smooth_y w |}, [])
  | PressPreset => (load_preset_data w, [])
  | PressPlot => plot_curve w
  | PressExport file_path =>
      if export_btn w then export_image w file_path else (w, [])
  end.

(** A session: the actions one after the other, with everything shown. *)
Fixpoint run (w : MainWindow) (actions : list action)
  : MainWindow * list effect :=
  match actions with
  | [] => (w, [])
  | a :: rest =>
      let (w1, shown1) := step w a in
      let (w2, shown2) := run w1 rest in
      (w2, shown1 ++ shown2)
  end.

End Methods.

End Window.

(* ================================================================== *)
(** * More vocabulary: what a text holds, what a window keeps *)

Module Reading.

(** The point a stripped line gives, if it gives one. *)
Definition line_point (line : str) : option (float * float) :=
  match tokens line with
  | t0 :: t1 :: _ =>
      match Num.float t0, Num.float t1 with
      | Ok x, Ok y => Some (x, y)
      | _, _ => None
      end
  | _ => None
  end.

Definition has_point (line : str) : bool :=
  match line_point line with
  | Some _ => true
  | None => false
  end.

(** The lines of a list that the loop does not skip, stripped. *)
Definition content (lines : list str) : list str :=
  filter (fun line => negb (skipped line)) (map strip lines).

(** The lines of a text that the loop does not skip, stripped. *)
Definition content_lines (input_text : str) : list str :=
  content (lines_of input_text).

(** The points of the lines that give one, in order. *)
Definition points_of (lines : list str) : list (float * float) :=
  flat_map (fun line => match line_point line with
                        | Some p => [p]
                        | None => []
                        end) lines.

(** Whether two results are both successes with the same value, or both
    failures. *)
Definition same_outcome {A} (r1 r2 : result A) : Prop :=
  match r1, r2 with
  | Ok a1, Ok a2 => a1 = a2
  | Raise _, Raise _ => True
  | _, _ => False
  end.

(** What every window of a session satisfies: an enabled export button
    comes with a stored curve, a stored curve has 1000 abscissae and as
    many ordinates as the linear or the chosen interpolation gave, the two
    halves of the curve are stored together, the stored data are paired,
    and the method is an item of the combo box. *)
Definition consistent (w : Window.MainWindow) : Prop :=
  (Window.export_btn w = true ->
     Window.smooth_x w <> None /\ Window.smooth_y w <> None)
  /\ (forall sx, Window.smooth_x w = Some sx -> length sx = 1000)
  /\ (Window.smooth_x w = None <-> Window.smooth_y w = None)
  /\ length (Window.x_data w) = length (Window.y_data w)
  /\ In (Window.method_combo w) Window.method_items.

(** The warning of [export_image]. *)
Definition plot_first : Window.effect :=
  Window.Warning (u "警告") (u "请先绘制曲线").

Definition is_saved (e : Window.effect) : bool :=
  match e with
  | Window.Saved _ => true
  | _ => false
  end.

Definition is_drawn (e : Window.effect) : bool :=
  match e with
  | Window.Drawn _ => true
  | _ => false
  end.

(** The sample data of [load_preset_data] as numbers, and the text of the
    statistics label for them. *)
#[local] Set Warnings "-inexact-float".
Definition preset_x : list float :=
  [0; 1; 2; 3; 4; 5; 6; 7; 8; 9; 10]%float.
Definition preset_y : list float :=
  [0; 0.841; 0.909; 0.141; -0.757; -0.959; -0.279; 0.657; 0.989; 0.412;
   -0.544]%float.
#[local] Set Warnings "+inexact-float".
(** A drawing and a saving that go through. *)
Definition draws : Window.plot -> result unit := fun _ => Ok tt.
Definition saves : str -> result unit := fun _ => Ok tt.

(** A drawing that goes through for the eleven points of the sample data
    and fails for any other plot. *)
Definition draws_eleven : Window.plot -> result unit :=
  fun p =>
    if (length (Window.scatter_x p) =? 11)%nat then Ok tt
    else Raise (OtherException (u "RuntimeError") (u "the canvas is closed")).

(** A window that shows the curve of the sample data while its editor
    holds two other points. *)
Definition edited_window : Window.MainWindow :=
  fst (Window.run failing_interpolator failing_interpolator
         failing_interpolator draws_eleven saves Window.init
         [Window.PressPreset; Window.PressPlot;
          Window.TypeData (text ["0 0"; "1 1"])]).

Definition preset_stats_label : str :=
  join NL [u "统计信息:"; u "最小值: -0.959000"; u "最大值: 0.989000";
           u "平均值: 0.128182"; u "数据点数: 11"; []].

End Reading.
Import Reading.

(* ================================================================== *)
(** * More vocabulary: the sampling grid *)

Module Sampling.

(** A number that is neither NaN nor infinite. *)
Definition finite (f : float) : bool :=
  match Prim2SF f with
  | S754_zero _ | S754_finite _ _ _ => true
  | _ => false
  end.

(** No sample is below [lo] or above [hi]. *)
Definition within (lo hi : float) (sx : list float) : bool :=
  forallb (fun v => negb (v <? lo)%float && negb (hi <? v)%float) sx.

(** The distance from one of [n] samples over [[lo, hi]] to the next: the
    span divided into [n - 1] parts, and the span itself for a single
    sample. *)
Definition gap (lo hi : float) (n : nat) : float :=
  if (1 <? n)%nat then ((hi - lo) / Num.float_of_nat (n - 1))%float
  else (hi - lo)%float.

(** [n] samples evenly spaced over [[lo, hi]], as far as binary64
    arithmetic has it: there are [n] of them; the last of two or more is
    [hi]; the first is [lo] when the gap is finite; and each one before the
    last is [lo] plus its index times the gap, when the gap is not zero. *)
Definition spaced (lo hi : float) (n : nat) (sx : list float) : Prop :=
  length sx = n
  /\ (2 <= n -> nth (n - 1) sx nan = hi)
  /\ (1 <= n -> finite (gap lo hi n) = true ->
      (nth 0 sx nan =? lo)%float = true)
  /\ (forall i, S i < n -> (gap lo hi n =? 0)%float = false ->
        nth i sx nan = (lo + Num.float_of_nat i * gap lo hi n)%float).

(** An interpolator that, whenever it gives ordinates, gives one for each
    abscissa it is called on, as those of scipy do. *)
Definition one_per_abscissa
    (interp : list float -> list float -> result Scipy.interp_func) : Prop :=
  forall x y interp_func x_new y_new,
    interp x y = Ok interp_func -> interp_func x_new = Ok y_new ->
    length y_new = length x_new.

(** An interpolator that can be constructed and called on any data: it
    gives the first ordinate at every abscissa. *)
Definition flat_interpolator
  : list float -> list float -> result Scipy.interp_func :=
  fun _ y => Ok (fun x_new => Ok (map (fun _ => hd 0%float y) x_new)).


(** The binary64 number that [1e308] denotes, and two abscissae whose
    difference overflows. *)
#[local] Set Warnings "-inexact-float".
Definition huge : float := 1e308%float.
#[local] Set Warnings "+inexact-float".
Definition far_apart : list float := [(- huge)%float; huge].

End Sampling.
Import Sampling.

(* ================================================================== *)
(** * The order of binary64 numbers *)

Module FloatOrder.

Ltac cmp_cases :=
  repeat match goal with
  | |- context [Z.compare ?a ?b] =>
      destruct (Z.compare_spec a b); subst
  | H : context [Z.compare ?a ?b] |- _ =>
      destruct (Z.compare_spec a b); subst
  | |- context [Pos.compare ?a ?b] =>
      destruct (Pos.compare_spec a b); subst
  | H : context [Pos.compare ?a ?b] |- _ =>
      destruct (Pos.compare_spec a b); subst
  end.

Ltac sf_split f :=
  let s := fresh "s" in
  destruct f as [s|s| |s ? ?]; try destruct s.

Ltac sf_crush :=
  cbn [SFcompare CompOpp option_map];
  change (Pos.compare_cont Eq) with Pos.compare;
  intros; try discriminate; try reflexivity;
  cmp_cases; cbn [CompOpp] in *;
  try discriminate; try reflexivity; try congruence; try lia.

Lemma SFcompare_None a b :
  SFcompare a b = None <-> a = S754_nan \/ b = S754_nan.
Proof.
  sf_split a; sf_split b; cbn [SFcompare]; split; intros H;
    try discriminate; try reflexivity; auto;
    destruct H; discriminate.
Qed.

Lemma SFcompare_swap a b :
  SFcompare b a = option_map CompOpp (SFcompare a b).
Proof. sf_split a; sf_split b; sf_crush. Qed.

Lemma SFcompare_Lt_trans a b c :
  SFcompare a b = Some Lt -> SFcompare b c = Some Lt ->
  SFcompare a c = Some Lt.
Proof. sf_split a; sf_split b; sf_split c; sf_crush. Qed.

Lemma SFcompare_Eq_l a b c x :
  SFcompare a b = Some Eq -> SFcompare b c = Some x ->
  SFcompare a c = Some x.
Proof. sf_split a; sf_split b; sf_split c; sf_crush. Qed.

Lemma SFcompare_refl a : a <> S754_nan -> SFcompare a a = Some Eq.
Proof. sf_split a; sf_crush. Qed.

Lemma ltb_cmp a b : (a <? b)%float = true <-> cmp a b = Some Lt.
Proof.
  rewrite ltb_spec. unfold SFltb, cmp.
  destruct (SFcompare _ _) as [[]|]; split; congruence.
Qed.

Lemma eqb_cmp a b : (a =? b)%float = true <-> cmp a b = Some Eq.
Proof.
  rewrite eqb_spec. unfold SFeqb, cmp.
  destruct (SFcompare _ _) as [[]|]; split; congruence.
Qed.

Lemma leb_cmp a b :
  (a <=? b)%float = true <-> cmp a b = Some Lt \/ cmp a b = Some Eq.
Proof.
  rewrite leb_spec. unfold SFleb, cmp.
  destruct (SFcompare _ _) as [[]|]; split; intros H; auto;
    try discriminate; destruct H; discriminate.
Qed.

Lemma notnan_cmp a : notnan a = true <-> Prim2SF a <> S754_nan.
Proof.
  unfold notnan. rewrite eqb_cmp. unfold cmp. split.
  - intros H E. rewrite E in H. discriminate.
  - apply SFcompare_refl.
Qed.

Lemma cmp_swap a b : cmp b a = option_map CompOpp (cmp a b).
Proof. apply SFcompare_swap. Qed.

Lemma cmp_some a b :
  notnan a = true -> notnan b = true -> exists c, cmp a b = Some c.
Proof.
  rewrite !notnan_cmp. intros Ha Hb. unfold cmp.
  destruct (SFcompare (Prim2SF a) (Prim2SF b)) as [c|] eqn:E; eauto.
  apply SFcompare_None in E. tauto.
Qed.

Lemma eqb_notnan a k : (a =? k)%float = true -> notnan a = true.
Proof.
  rewrite eqb_cmp, notnan_cmp. unfold cmp. intros H E.
  rewrite E in H. discriminate.
Qed.

Lemma ltb_trans a b c :
  (a <? b)%float = true -> (b <? c)%float = true -> (a <? c)%float = true.
Proof. rewrite !ltb_cmp. apply SFcompare_Lt_trans. Qed.

Lemma ltb_asym a b : (a <? b)%float = true -> (b <? a)%float = false.
Proof.
  intros H. apply ltb_cmp in H.
  destruct (b <? a)%float eqn:E; [|reflexivity].
  apply ltb_cmp in E. rewrite cmp_swap, H in E. discriminate.
Qed.

(** [a < b <= c] gives [a < c]. *)
Lemma ltb_nlt_trans a b c :
  notnan c = true ->
  (a <? b)%float = true -> (c <? b)%float = false -> (a <? c)%float = true.
Proof.
  intros Hc Hab Hcb.
  assert (Hb : notnan b = true).
  { apply notnan_cmp. intros E. apply ltb_cmp in Hab.
    unfold cmp in Hab. rewrite E in Hab.
    destruct (Prim2SF a); discriminate. }
  destruct (cmp_some _ _ Hb Hc) as [x Hx].
  apply ltb_cmp. apply ltb_cmp in Hab. destruct x.
  - assert (Hcb' : cmp c b = Some Eq) by (rewrite cmp_swap, Hx; reflexivity).
    assert (Hba : cmp b a = Some Gt) by (rewrite cmp_swap, Hab; reflexivity).
    pose proof (SFcompare_Eq_l _ _ _ _ Hcb' Hba) as T.
    change (cmp c a = Some Gt) in T. rewrite cmp_swap, T. reflexivity.
  - exact (SFcompare_Lt_trans _ _ _ Hab Hx).
  - exfalso. assert (E : (c <? b)%float = true).
    { apply ltb_cmp. rewrite cmp_swap, Hx. reflexivity. }
    congruence.
Qed.

(** Two numbers equal to a third are not in strict order. *)
Lemma eqb_nlt a b k :
  (a =? k)%float = true -> (b =? k)%float = true -> (a <? b)%float = false.
Proof.
  rewrite !eqb_cmp. intros Ha Hb.
  destruct (a <? b)%float eqn:E; [|reflexivity].
  apply ltb_cmp in E.
  assert (Hkb : cmp k b = Some Eq) by (rewrite cmp_swap, Hb; reflexivity).
  pose proof (SFcompare_Eq_l _ _ _ _ Ha Hkb) as T. fold (cmp a b) in T.
  congruence.
Qed.

(** On numbers, "not greater" is [<=]. *)
Lemma nlt_leb a b :
  notnan a = true -> notnan b = true ->
  (b <? a)%float = false -> (a <=? b)%float = true.
Proof.
  intros Ha Hb H. destruct (cmp_some _ _ Ha Hb) as [x Hx].
  apply leb_cmp. destruct x; auto.
  exfalso. assert (E : (b <? a)%float = true).
  { apply ltb_cmp. rewrite cmp_swap, Hx. reflexivity. }
  congruence.
Qed.

(** [a <= b] and [a <> b] give [a < b]. *)
Lemma leb_neq_ltb a b :
  (a <=? b)%float = true -> (a =? b)%float = false -> (a <? b)%float = true.
Proof.
  rewrite leb_cmp. intros [H|H] E.
  - now apply ltb_cmp.
  - apply eqb_cmp in H. congruence.
Qed.

Lemma ltb_leb a b : (a <? b)%float = true -> (a <=? b)%float = true.
Proof. rewrite ltb_cmp, leb_cmp. auto. Qed.

End FloatOrder.

(* ================================================================== *)
(** * The stable sort *)

Module SortFacts.
Import Builtins FloatOrder.

Lemma insort_perm lt p l : Permutation (p :: l) (insort lt p l).
Proof.
  induction l as [|q l IH]; cbn [insort]; [reflexivity|].
  destruct (lt (fst p) (fst q)); [reflexivity|].
  eapply perm_trans; [apply perm_swap|]. now apply perm_skip.
Qed.

Lemma fold_insort_perm lt l : forall acc,
  Permutation (acc ++ l) (fold_left (fun acc p => insort lt p acc) l acc).
Proof.
  induction l as [|p l IH]; intros acc; cbn [fold_left].
  - now rewrite app_nil_r.
  - eapply perm_trans; [|apply IH].
    eapply perm_trans; [symmetry; apply Permutation_middle|].
    change (Permutation ((p :: acc) ++ l) (insort lt p acc ++ l)).
    apply Permutation_app_tail, insort_perm.
Qed.

Lemma sort_by_perm lt l : Permutation l (sort_by lt l).
Proof. exact (fold_insort_perm lt l []). Qed.

Lemma insort_sorted p l :
  StronglySorted not_after l -> StronglySorted not_after (insort ltb p l).
Proof.
  induction 1 as [|q l Hl IH Hq]; cbn [insort].
  - repeat constructor.
  - destruct (fst p <? fst q)%float eqn:E.
    + constructor; [now constructor|].
      constructor; [exact (ltb_asym _ _ E)|].
      rewrite Forall_forall in *. intros r Hr. specialize (Hq r Hr).
      unfold not_after in *.
      destruct (fst r <? fst p)%float eqn:F; [|reflexivity].
      rewrite (ltb_trans _ _ _ F E) in Hq. discriminate.
    + constructor; [exact IH|].
      eapply Permutation_Forall; [apply insort_perm|].
      constructor; assumption.
Qed.

Lemma fold_insort_sorted l : forall acc,
  StronglySorted not_after acc ->
  StronglySorted not_after (fold_left (fun acc p => insort ltb p acc) l acc).
Proof.
  induction l as [|p l IH]; intros acc H; cbn [fold_left]; [exact H|].
  apply IH, insort_sorted, H.
Qed.

Lemma insort_filter k p l :
  StronglySorted not_after l ->
  filter (same_x k) (insort ltb p l)
  = filter (same_x k) l ++ filter (same_x k) [p].
Proof.
  induction 1 as [|q l Hl IH Hq]; cbn [insort]; [reflexivity|].
  destruct (fst p <? fst q)%float eqn:E.
  - cbn [filter]. destruct (same_x k p) eqn:Kp.
    + assert (N : forall r, In r (q :: l) -> same_x k r = false).
      { intros r Hr. destruct (same_x k r) eqn:Kr; [|reflexivity].
        unfold same_x in *.
        assert (L : (fst p <? fst r)%float = true).
        { destruct Hr as [<-|Hr]; [exact E|].
          rewrite Forall_forall in Hq.
          exact (ltb_nlt_trans _ _ _ (eqb_notnan _ _ Kr) E (Hq r Hr)). }
        rewrite (eqb_nlt _ _ _ Kp Kr) in L. discriminate. }
      assert (Z : filter (same_x k) (q :: l) = []).
      { clear - N. induction (q :: l) as [|r t IHt]; [reflexivity|].
        cbn [filter]. rewrite (N r (or_introl eq_refl)).
        apply IHt. intros r' Hr'. apply N. now right. }
      cbn [filter] in Z. rewrite Z. reflexivity.
    + now rewrite app_nil_r.
  - cbn [filter]. rewrite IH. cbn [filter].
    destruct (same_x k q); reflexivity.
Qed.

Lemma fold_insort_filter k l : forall acc,
  StronglySorted not_after acc ->
  filter (same_x k) (fold_left (fun acc p => insort ltb p acc) l acc)
  = filter (same_x k) acc ++ filter (same_x k) l.
Proof.
  induction l as [|p l IH]; intros acc H; cbn [fold_left].
  - cbn [filter]. now rewrite app_nil_r.
  - rewrite IH by now apply insort_sorted.
    rewrite insort_filter by exact H.
    rewrite <- app_assoc. f_equal.
    cbn [filter]. destruct (same_x k p); reflexivity.
Qed.

(** What [sorted] returns: the same points, none to the right of a later
    one, those of equal abscissa in their original order. *)
Lemma sorted_spec l :
  Permutation l (sorted l)
  /\ StronglySorted not_after (sorted l)
  /\ forall k, filter (same_x k) (sorted l) = filter (same_x k) l.
Proof.
  split; [apply sort_by_perm|]. split.
  - apply fold_insort_sorted. constructor.
  - intros k. unfold sorted, sort_by.
    rewrite fold_insort_filter by constructor. reflexivity.
Qed.

(** On numbers the order of [sorted] is [<=]. *)
Lemma sorted_x_le l :
  Forall (fun p => notnan (fst p) = true) l ->
  StronglySorted x_le (sorted l).
Proof.
  intros Hn. destruct (sorted_spec l) as (Hp & Hs & _).
  assert (Hn' : Forall (fun p => notnan (fst p) = true) (sorted l))
    by (eapply Permutation_Forall; eassumption).
  clear Hp Hn. induction Hs as [|q t Ht IH Hq]; [constructor|].
  inversion Hn' as [|? ? Nq Nt]; subst.
  constructor; [auto|].
  rewrite Forall_forall in *. intros r Hr.
  apply nlt_leb; auto. exact (Hq r Hr).
Qed.

(** An increasing list is already sorted: [sorted] leaves it as it is. *)
Lemma strictly_increasing_sorted_x (l : list float) :
  strictly_increasing l = true -> nondecreasing l = true.
Proof.
  induction l as [|a [|b t] IH]; cbn [strictly_increasing nondecreasing];
    try reflexivity.
  intros H. apply andb_true_iff in H as [H1 H2].
  rewrite (ltb_leb _ _ H1). exact (IH H2).
Qed.

Lemma StronglySorted_nondecreasing (l : list (float * float)) :
  StronglySorted x_le l -> nondecreasing (map fst l) = true.
Proof.
  induction 1 as [|p t Ht IH Hp]; [reflexivity|].
  destruct t as [|q t]; [reflexivity|].
  cbn [map nondecreasing] in *. rewrite IH.
  inversion Hp as [|? ? Hq _]; subst. unfold x_le in Hq. now rewrite Hq.
Qed.

Lemma nondecreasing_differ (l : list float) :
  nondecreasing l = true -> neighbours_differ l = true ->
  strictly_increasing l = true.
Proof.
  induction l as [|a [|b t] IH];
    cbn [strictly_increasing nondecreasing neighbours_differ];
    try reflexivity.
  intros H D. apply andb_true_iff in H as [H1 H2].
  apply andb_true_iff in D as [D1 D2].
  apply negb_true_iff in D1.
  rewrite (leb_neq_ltb _ _ H1 D1). exact (IH H2 D2).
Qed.

(** [<=] holds between numbers only. *)
Lemma leb_notnan a b :
  (a <=? b)%float = true -> notnan a = true /\ notnan b = true.
Proof.
  rewrite leb_cmp, !notnan_cmp. unfold cmp. intros H.
  split; intros E; rewrite E in H;
    [|destruct (Prim2SF a)]; destruct H; discriminate.
Qed.

(** Two points or more, one of them at NaN, are in order in no
    arrangement. *)
Lemma nan_never_sorted out p :
  In p out -> notnan (fst p) = false -> 2 <= length out ->
  ~ StronglySorted x_le out.
Proof.
  intros Hin Hn L S. destruct S as [|a l Sl Ha]; [cbn in L; lia|].
  destruct Hin as [<-|Hin].
  - destruct l as [|b l]; [cbn in L; lia|].
    inversion Ha as [|? ? Hab _]; subst.
    destruct (leb_notnan _ _ Hab). congruence.
  - rewrite Forall_forall in Ha.
    destruct (leb_notnan _ _ (Ha p Hin)). congruence.
Qed.

End SortFacts.

(* ================================================================== *)
(** * Facts about the text functions *)

Module TextFacts.

Lemma prefixb_refl_app p s : prefixb p (p ++ s) = true.
Proof.
  induction p as [|c p IH]; [reflexivity|].
  cbn [prefixb app]. now rewrite N.eqb_refl, IH.
Qed.

Lemma infixb_app a s b : infixb s (a ++ s ++ b) = true.
Proof.
  induction a as [|c a IH]; cbn [app].
  - destruct (s ++ b) eqn:E; cbn [infixb]; rewrite <- E;
      now rewrite prefixb_refl_app.
  - cbn [infixb]. rewrite IH. apply orb_true_r.
Qed.

Lemma infixb_end a s : infixb s (a ++ s) = true.
Proof. rewrite <- (app_nil_r s) at 2. apply infixb_app. Qed.

Lemma split_length sep s :
  length (split sep s) = S (count_occ N.eq_dec s sep).
Proof.
  induction s as [|c s IH]; [reflexivity|].
  cbn [split count_occ]. destruct (N.eqb_spec c sep) as [->|Hne].
  - destruct (N.eq_dec sep sep); [|congruence]. cbn [length]. now rewrite IH.
  - destruct (N.eq_dec c sep); [congruence|].
    destruct (split sep s) eqn:E; cbn [length] in *; [discriminate|].
    exact IH.
Qed.

(** A separator cuts a line in two or more exactly when it occurs in it. *)
Lemma split_two sep s :
  (2 <=? length (split sep s)) = existsb (N.eqb sep) s.
Proof.
  rewrite split_length.
  induction s as [|c s IH]; [reflexivity|].
  cbn [count_occ existsb]. destruct (N.eq_dec c sep) as [->|Hne].
  - now rewrite N.eqb_refl.
  - rewrite <- IH. destruct (N.eqb_spec sep c); [congruence|reflexivity].
Qed.

End TextFacts.

(* ================================================================== *)
(** * Facts about the parser *)

Module ParserFacts.
Import TextFacts.

Lemma float_cases tok :
  (exists f, Num.float tok = Ok f)
  \/ Num.float tok = Raise (ValueError (Num.float_error tok)).
Proof.
  unfold Num.float.
  destruct (Num.drop_underscores _ _) as [lit|]; [|now right].
  destruct (Num.parse_float lit); [left; eauto|now right].
Qed.

Lemma last_cons {A} (l : list A) : forall a d, last (a :: l) d = last l a.
Proof.
  induction l as [|b l IH]; intros a d; [reflexivity|].
  change (last (a :: b :: l) d) with (last (b :: l) d).
  now rewrite !IH.
Qed.

(** The loop over the separators: the first cut in two or more, or else
    the last cut tried. *)
Lemma split_loop_find seps parts line :
  split_loop seps parts line =
  match find (fun sep => 2 <=? length (split sep line)) seps with
  | Some sep => split sep line
  | None => last (map (fun sep => split sep line) seps) parts
  end.
Proof.
  revert parts. induction seps as [|sep seps IH]; intros parts;
    [reflexivity|].
  cbn [split_loop find map].
  destruct (2 <=? length (split sep line)) eqn:E; [reflexivity|].
  rewrite IH. destruct (find _ seps); [reflexivity|].
  now rewrite last_cons.
Qed.

(** The body of the [try] on a line that gives a point. *)
Lemma parse_line_parses n line :
  parses line = true -> exists xy, parse_line n line = Ok xy.
Proof.
  unfold parses, parse_line, tokens.
  destruct (split_loop separators [] line) as [|t0 [|t1 ts]];
    try discriminate.
  cbn [length Nat.ltb Nat.leb nth bind].
  destruct (Num.float t0); [|discriminate].
  destruct (Num.float t1); [|discriminate].
  cbn [bind]. eauto.
Qed.

(** The body of the [try] on a line that gives none. *)
Lemma parse_line_fails n line :
  parses line = false ->
  parse_line n line = Raise (ValueError (failure_cause n line)).
Proof.
  unfold parses, parse_line, failure_cause, offending_token, tokens.
  destruct (split_loop separators [] line) as [|t0 [|t1 ts]];
    try reflexivity.
  cbn [length Nat.ltb Nat.leb nth bind].
  destruct (float_cases t0) as [[f0 E0]|E0]; rewrite E0; cbn [bind];
    [|reflexivity].
  destruct (float_cases t1) as [[f1 E1]|E1]; rewrite E1; cbn [bind];
    [discriminate|reflexivity].
Qed.

(** The loop gets past lines that pass, whatever it has collected. *)
Lemma parse_lines_passes pre : forall n xs ys rest,
  forallb line_passes pre = true ->
  exists xs' ys',
    parse_lines n (pre ++ rest) xs ys
    = parse_lines (n + length pre) rest xs' ys'.
Proof.
  induction pre as [|raw pre IH]; intros n xs ys rest H.
  - exists xs, ys. cbn [app length]. now rewrite Nat.add_0_r.
  - cbn [forallb] in H. apply andb_true_iff in H as [Hr Hp].
    cbn [app parse_lines length]. rewrite Nat.add_succ_r.
    unfold line_passes in Hr.
    destruct (skipped (strip raw)) eqn:Sk.
    + exact (IH (S n) xs ys rest Hp).
    + cbn [orb] in Hr.
      destruct (parse_line_parses n _ Hr) as [[x y] E]. rewrite E.
      exact (IH (S n) _ _ rest Hp).
Qed.

(** The loop stops at the first line that neither is skipped nor gives a
    point. *)
Lemma parse_lines_first_failure pre raw post :
  forallb line_passes pre = true ->
  skipped (strip raw) = false ->
  parses (strip raw) = false ->
  parse_lines 1 (pre ++ raw :: post) [] []
  = Raise (ParseError (S (length pre))
             (failure_cause (S (length pre)) (strip raw))).
Proof.
  intros Hp Sk Pf.
  destruct (parse_lines_passes pre 1 [] [] (raw :: post) Hp)
    as (xs & ys & E).
  rewrite E. cbn [Nat.add parse_lines]. rewrite Sk.
  rewrite (parse_line_fails _ _ Pf). reflexivity.
Qed.

(** The two lists grow together. *)
Lemma parse_lines_length lines : forall n xs ys xs' ys',
  parse_lines n lines xs ys = Ok (xs', ys') ->
  length xs = length ys -> length xs' = length ys'.
Proof.
  induction lines as [|raw lines IH]; intros n xs ys xs' ys' H L;
    cbn [parse_lines] in H.
  - now inversion H; subst.
  - destruct (skipped (strip raw)); [exact (IH _ _ _ _ _ H L)|].
    destruct (parse_line n (strip raw)) as [[x y]|[e|c e]];
      try discriminate.
    apply (IH _ _ _ _ _ H). rewrite !length_app. cbn [length]. lia.
Qed.

Lemma split_map (l : list (float * float)) :
  List.split l = (map fst l, map snd l).
Proof.
  induction l as [|[a b] l IH]; [reflexivity|].
  cbn [List.split map fst snd]. now rewrite IH.
Qed.

Lemma map_fst_combine (xs ys : list float) :
  length xs = length ys -> map fst (combine xs ys) = xs.
Proof.
  revert ys. induction xs as [|x xs IH]; intros [|y ys] L;
    try discriminate; [reflexivity|].
  cbn [combine map fst]. f_equal. apply IH. now inversion L.
Qed.

Lemma map_snd_combine (xs ys : list float) :
  length xs = length ys -> map snd (combine xs ys) = ys.
Proof.
  revert ys. induction xs as [|x xs IH]; intros [|y ys] L;
    try discriminate; [reflexivity|].
  cbn [combine map snd]. f_equal. apply IH. now inversion L.
Qed.

Lemma forallb_Forall {A} (f : A -> bool) l :
  forallb f l = true -> Forall (fun x => f x = true) l.
Proof. rewrite forallb_forall, Forall_forall. auto. Qed.

Lemma strictly_increasing_short (l : list float) :
  Builtins.strictly_increasing l = false -> 2 <= length l.
Proof.
  destruct l as [|a [|b t]]; cbn; try discriminate. intros _. lia.
Qed.

(** The end of [parse_input_data] on points the loop has collected. *)
Lemma parse_input_data_normalize input_text xs ys :
  parse_lines 1 (lines_of input_text) [] [] = Ok (xs, ys) ->
  parse_input_data input_text = normalize xs ys.
Proof.
  intros H. unfold parse_input_data. fold (lines_of input_text).
  now rewrite H.
Qed.

Lemma parse_input_data_inv input_text xs ys :
  parse_input_data input_text = Ok (xs, ys) ->
  exists xs0 ys0,
    parse_lines 1 (lines_of input_text) [] [] = Ok (xs0, ys0)
    /\ normalize xs0 ys0 = Ok (xs, ys).
Proof.
  unfold parse_input_data. fold (lines_of input_text).
  destruct (parse_lines 1 _ [] []) as [[xs0 ys0]|e]; cbn [bind fst snd];
    [eauto|discriminate].
Qed.

End ParserFacts.

(* ================================================================== *)
(** * The parser: properties *)

Section ParserProperties.
Import Builtins FloatOrder SortFacts TextFacts ParserFacts.

(** C2, as the code has it.  When the parser accepts a text and the
    abscissae it returns are numbers (no NaN), they are in non-decreasing
    order; they are strictly increasing as soon as no two neighbours are
    equal.  Points of equal abscissa are kept, so the order need not be
    strict. *)
Theorem parser_x_nondecreasing input_text xs ys :
  parse_input_data input_text = Ok (xs, ys) ->
  forallb notnan xs = true ->
  nondecreasing xs = true
  /\ (neighbours_differ xs = true -> strictly_increasing xs = true).
Proof.
  intros H Hn.
  assert (Nd : nondecreasing xs = true).
  { destruct (parse_input_data_inv _ _ _ H) as (xs0 & ys0 & _ & N).
    unfold normalize in N.
    destruct (length xs0 <? 2); [discriminate|].
    destruct (strictly_increasing xs0) eqn:Inc; cbn [negb] in N.
    - inversion N; subst. now apply strictly_increasing_sorted_x.
    - rewrite split_map in N. inversion N; subst.
      apply StronglySorted_nondecreasing, sorted_x_le.
      eapply Permutation_Forall;
        [symmetry; apply sort_by_perm with (lt := ltb)|].
      apply Forall_map with (f := fst) (P := fun x => notnan x = true).
      apply forallb_Forall. exact Hn. }
  split; [exact Nd|]. now apply nondecreasing_differ.
Qed.

Lemma parser_x_nondecreasing_witness :
  nondecreasing [1; 1]%float = true
  /\ (neighbours_differ [1; 1]%float = true ->
      strictly_increasing [1; 1]%float = true).
Proof.
  apply (parser_x_nondecreasing (text ["1 2"; "1 3"])
           [1; 1]%float [2; 3]%float);
    vm_compute; reflexivity.
Defined.

(** C2, as the design document states it, fails: two lines with the same
    abscissa are accepted and both points are returned. *)
Lemma parser_x_not_strictly_increasing :
  exists xs ys,
    parse_input_data (text ["1 2"; "1 3"]) = Ok (xs, ys)
    /\ strictly_increasing xs = false.
Proof.
  exists [1; 1]%float, [2; 3]%float. split; vm_compute; reflexivity.
Qed.

(** C4, as the code has it.  When the abscissae the loop has collected
    are numbers (no NaN) and are not strictly increasing, the parser
    returns all the points collected, rearranged so that none is to the
    right of a later one, the points of equal abscissa in their original
    order; and on the three lines [3 9], [1 1], [2 4] it returns
    [x = [1, 2, 3]], [y = [1, 4, 9]]. *)
Theorem parser_sorts_stably :
  (forall input_text xs ys,
      parse_lines 1 (lines_of input_text) [] [] = Ok (xs, ys) ->
      strictly_increasing xs = false ->
      forallb notnan xs = true ->
      exists points out,
        xs = map fst points /\ ys = map snd points
        /\ parse_input_data input_text = Ok (map fst out, map snd out)
        /\ Permutation points out
        /\ StronglySorted x_le out
        /\ forall k, filter (same_x k) out = filter (same_x k) points)
  /\ parse_input_data (text ["3 9"; "1 1"; "2 4"])
     = Ok ([1; 2; 3]%float, [1; 4; 9]%float).
Proof.
  split; [|vm_compute; reflexivity].
  intros input_text xs ys H Inc Hn.
  pose proof (parse_lines_length _ _ _ _ _ _ H eq_refl) as L.
  exists (combine xs ys), (sorted (combine xs ys)).
  rewrite (map_fst_combine _ _ L), (map_snd_combine _ _ L).
  split; [reflexivity|]. split; [reflexivity|].
  destruct (sorted_spec (combine xs ys)) as (Hp & _ & Hf).
  repeat split; auto.
  - rewrite (parse_input_data_normalize _ _ _ H). unfold normalize.
    pose proof (strictly_increasing_short _ Inc) as L2.
    destruct (Nat.ltb_spec (length xs) 2); [lia|].
    rewrite Inc. cbn [negb]. now rewrite split_map.
  - apply sorted_x_le.
    apply Forall_map with (f := fst) (P := fun x => notnan x = true).
    rewrite (map_fst_combine _ _ L).
    apply forallb_Forall. exact Hn.
Qed.

Lemma parser_sorts_stably_witness :
  exists points out,
    [3; 1; 2]%float = map fst points /\ [9; 1; 4]%float = map snd points
    /\ parse_input_data (text ["3 9"; "1 1"; "2 4"])
       = Ok (map fst out, map snd out)
    /\ Permutation points out
    /\ StronglySorted x_le out
    /\ forall k, filter (same_x k) out = filter (same_x k) points.
Proof.
  apply (proj1 parser_sorts_stably (text ["3 9"; "1 1"; "2 4"])
           [3; 1; 2]%float [9; 1; 4]%float);
    vm_compute; reflexivity.
Defined.

(** C4, as the design document states it, fails: [float] reads [nan], and
    points of which one is at NaN are sorted by abscissa in no order.  The
    abscissae of the three lines [nan 1], [2 3], [1 5] are not strictly
    increasing; the parser returns [x = [nan, 1, 2]], [y = [1, 5, 3]],
    which is not sorted, and no arrangement of the three points is. *)
Lemma parser_cannot_sort_nan :
  exists xs ys,
    parse_lines 1 (lines_of (text ["nan 1"; "2 3"; "1 5"])) [] []
    = Ok (xs, ys)
    /\ strictly_increasing xs = false
    /\ parse_input_data (text ["nan 1"; "2 3"; "1 5"])
       = Ok ([nan; 1; 2]%float, [1; 5; 3]%float)
    /\ ~ StronglySorted x_le (combine [nan; 1; 2]%float [1; 5; 3]%float)
    /\ forall out,
         Permutation (combine xs ys) out -> ~ StronglySorted x_le out.
Proof.
  exists [nan; 2; 1]%float, [1; 3; 5]%float.
  split; [vm_compute; reflexivity|]. split; [vm_compute; reflexivity|].
  split; [vm_compute; reflexivity|]. split.
  - apply (nan_never_sorted _ (nan, 1%float));
      [now left|reflexivity|cbn; lia].
  - intros out P.
    apply (nan_never_sorted _ (nan, 1%float)).
    + eapply Permutation_in; [exact P|now left].
    + reflexivity.
    + apply Permutation_length in P. rewrite <- P. cbn. lia.
Qed.

(** C5, as the code has it.  At the first line that is neither skipped nor
    gives a point, the parser fails with the parse error of that line: the
    message starts with the 1-based number of the line in the stripped
    text, and carries what the line raised.  For a token that [float]
    rejects that is [float]'s message, which quotes the token; for a line
    of fewer than two tokens it is the format message, which ends with the
    text of the line.  On [abc 1] the error is that of line 1 and quotes
    the token [abc]. *)
Theorem parser_parse_error :
  (forall input_text pre raw post,
      lines_of input_text = pre ++ raw :: post ->
      forallb line_passes pre = true ->
      skipped (strip raw) = false ->
      parses (strip raw) = false ->
      let line_num := S (length pre) in
      let line := strip raw in
      exists msg,
        parse_input_data input_text = Raise (ValueError msg)
        /\ ValueError msg = ParseError line_num (failure_cause line_num line)
        /\ names_line_number msg line_num = true
        /\ match offending_token line with
           | Some tok => mentions msg (repr tok) = true
           | None => mentions msg line = true
           end)
  /\ parse_input_data (text ["abc 1"])
     = Raise (ParseError 1 (Num.float_error (u "abc"))).
Proof.
  split; [|vm_compute; reflexivity].
  intros input_text pre raw post Hl Hp Sk Pf line_num line.
  exists (parse_error line_num (failure_cause line_num line)).
  split; [|split; [reflexivity|split]].
  - unfold parse_input_data. fold (lines_of input_text). rewrite Hl.
    now rewrite (parse_lines_first_failure _ _ _ Hp Sk Pf).
  - unfold names_line_number, parse_error.
    change (u "行解析错误: ") with (u "行" ++ u "解析错误: ").
    set (p := u "第" ++ str_of_nat line_num ++ u "行").
    set (c := failure_cause line_num line).
    replace (u "第" ++ str_of_nat line_num ++ (u "行" ++ u "解析错误: ") ++ c)
      with (p ++ u "解析错误: " ++ c)
      by (unfold p; rewrite <- !app_assoc; reflexivity).
    apply prefixb_refl_app.
  - unfold mentions, parse_error, failure_cause.
    destruct (offending_token line) as [tok|].
    + unfold Num.float_error. rewrite !app_assoc. apply infixb_end.
    + unfold format_error. rewrite !app_assoc. apply infixb_end.
Qed.

Lemma parser_parse_error_witness :
  exists msg,
    parse_input_data (text ["1 2"; "3;x y"]) = Raise (ValueError msg)
    /\ ValueError msg = ParseError 2 (failure_cause 2 (u "3;x y"))
    /\ names_line_number msg 2 = true
    /\ match offending_token (u "3;x y") with
       | Some tok => mentions msg (repr tok) = true
       | None => mentions msg (u "3;x y") = true
       end.
Proof.
  exact (proj1 parser_parse_error (text ["1 2"; "3;x y"])
           [u "1 2"] (u "3;x y") [] eq_refl eq_refl eq_refl eq_refl).
Defined.

(** C5, as the design document states it, fails: on [abc 1] the message of
    the error names line 1 and the token [abc], not the text of the
    line. *)
Lemma parser_parse_error_omits_line :
  exists msg,
    parse_input_data (text ["abc 1"]) = Raise (ValueError msg)
    /\ names_line_number msg 1 = true
    /\ mentions msg (u "abc 1") = false.
Proof.
  eexists. split; [vm_compute; reflexivity|]. split; vm_compute; reflexivity.
Qed.

(** C6.  The tokens of a line are its cut at the first separator, in the
    order space, comma, tab, semicolon, that cuts it into two tokens or
    more, which is the first of them that occurs in the line; when none
    does the line stays whole.  On the lines [1,2], [3 4], [5<TAB>6] the
    parser returns [x = [1, 3, 5]], [y = [2, 4, 6]]. *)
Theorem parser_separator_priority :
  (forall line,
      separators = [SPACE; COMMA; TAB; SEMICOLON]
      /\ first_separator line
         = find (fun sep => existsb (N.eqb sep) line) separators
      /\ tokens line = match first_separator line with
                       | Some sep => split sep line
                       | None => [line]
                       end)
  /\ parse_input_data
       (join NL [u "1,2"; u "3 4"; u "5" ++ TAB :: u "6"])
     = Ok ([1; 3; 5]%float, [2; 4; 6]%float).
Proof.
  split; [|vm_compute; reflexivity].
  intros line. split; [reflexivity|].
  assert (F : first_separator line
              = find (fun sep => existsb (N.eqb sep) line) separators).
  { unfold first_separator, separators. cbn [find].
    now rewrite !split_two. }
  split; [exact F|].
  unfold tokens. rewrite split_loop_find. fold (first_separator line).
  destruct (first_separator line) eqn:E; [reflexivity|].
  rewrite F in E. unfold separators in *. cbn [find map last] in *.
  destruct (existsb (N.eqb SPACE) line); [discriminate|].
  destruct (existsb (N.eqb COMMA) line); [discriminate|].
  destruct (existsb (N.eqb TAB) line); [discriminate|].
  destruct (existsb (N.eqb SEMICOLON) line) eqn:S; [discriminate|].
  clear E F. induction line as [|c line IH]; [reflexivity|].
  cbn [existsb] in S. apply orb_false_iff in S as [S1 S2].
  cbn [split]. rewrite N.eqb_sym, S1, (IH S2). reflexivity.
Qed.

(** C7.  When the loop ends with fewer than two points collected, the
    parser fails with the insufficient-data error; a text of one valid line
    is such a case. *)
Theorem parser_insufficient_data :
  (forall input_text xs ys,
      parse_lines 1 (lines_of input_text) [] [] = Ok (xs, ys) ->
      length xs < 2 ->
      parse_input_data input_text = Raise InsufficientDataError)
  /\ parse_input_data (text ["1 2"]) = Raise InsufficientDataError.
Proof.
  split; [|vm_compute; reflexivity].
  intros input_text xs ys H L.
  rewrite (parse_input_data_normalize _ _ _ H). unfold normalize.
  destruct (Nat.ltb_spec (length xs) 2); [reflexivity|lia].
Qed.

Lemma parser_insufficient_data_witness :
  parse_input_data (text ["# only a comment"; ""; "1 2"])
  = Raise InsufficientDataError.
Proof.
  apply (proj1 parser_insufficient_data
           (text ["# only a comment"; ""; "1 2"]) [1]%float [2]%float);
    [vm_compute; reflexivity|cbn; lia].
Defined.

(** C10.  The line [1  2], two numbers with two spaces between them, is cut
    at the spaces into three tokens, the second of them empty; [float]
    rejects the empty token and the parser fails with the parse error of
    that line instead of returning the point. *)
Theorem parser_double_space :
  tokens (u "1  2") = [u "1"; []; u "2"]
  /\ Num.float [] = Raise (ValueError (Num.float_error []))
  /\ parse_input_data (text ["1  2"; "3 4"])
     = Raise (ParseError 1 (Num.float_error [])).
Proof. repeat split; vm_compute; reflexivity. Qed.

End ParserProperties.

(* ================================================================== *)
(** * Facts about the built-ins and the sampling grid *)

Module GridFacts.
Import Builtins FloatOrder.

Lemma ltb_irrefl a : (a <? a)%float = false.
Proof.
  destruct (a <? a)%float eqn:E; [|reflexivity].
  now rewrite (ltb_asym _ _ E) in E.
Qed.

(** The running minimum is an element seen and no element seen is below
    it. *)
Lemma fold_min l : forall a seen,
  In a seen -> (forall v, In v seen -> (v <? a)%float = false) ->
  let m := fold_left (fun cur x => if (x <? cur)%float then x else cur) l a in
  In m (seen ++ l) /\ forall v, In v (seen ++ l) -> (v <? m)%float = false.
Proof.
  induction l as [|x l IH]; intros a seen Ha Hs; cbn [fold_left].
  - rewrite app_nil_r. auto.
  - replace (seen ++ x :: l) with ((seen ++ [x]) ++ l)
      by (rewrite <- app_assoc; reflexivity).
    destruct (x <? a)%float eqn:E; apply IH.
    + apply in_or_app. right. now left.
    + intros v Hv. apply in_app_or in Hv as [Hv|[<-|[]]].
      * destruct (v <? x)%float eqn:F; [|reflexivity].
        pose proof (Hs v Hv) as Q.
        rewrite (ltb_trans _ _ _ F E) in Q. discriminate.
      * apply ltb_irrefl.
    + apply in_or_app. now left.
    + intros v Hv. apply in_app_or in Hv as [Hv|[<-|[]]]; auto.
Qed.

Lemma fold_max l : forall a seen,
  In a seen -> (forall v, In v seen -> (a <? v)%float = false) ->
  let m := fold_left (fun cur x => if (cur <? x)%float then x else cur) l a in
  In m (seen ++ l) /\ forall v, In v (seen ++ l) -> (m <? v)%float = false.
Proof.
  induction l as [|x l IH]; intros a seen Ha Hs; cbn [fold_left].
  - rewrite app_nil_r. auto.
  - replace (seen ++ x :: l) with ((seen ++ [x]) ++ l)
      by (rewrite <- app_assoc; reflexivity).
    destruct (a <? x)%float eqn:E; apply IH.
    + apply in_or_app. right. now left.
    + intros v Hv. apply in_app_or in Hv as [Hv|[<-|[]]].
      * destruct (x <? v)%float eqn:F; [|reflexivity].
        pose proof (Hs v Hv) as Q.
        rewrite (ltb_trans _ _ _ E F) in Q. discriminate.
      * apply ltb_irrefl.
    + apply in_or_app. now left.
    + intros v Hv. apply in_app_or in Hv as [Hv|[<-|[]]]; auto.
Qed.

Lemma min_spec l :
  l <> [] ->
  exists m, min l = Ok m /\ In m l
            /\ forall v, In v l -> (v <? m)%float = false.
Proof.
  destruct l as [|a l]; [congruence|]. intros _. eexists.
  split; [reflexivity|].
  apply (fold_min l a [a]); [now left|].
  intros v [<-|[]]. apply ltb_irrefl.
Qed.

Lemma max_spec l :
  l <> [] ->
  exists m, max l = Ok m /\ In m l
            /\ forall v, In v l -> (m <? v)%float = false.
Proof.
  destruct l as [|a l]; [congruence|]. intros _. eexists.
  split; [reflexivity|].
  apply (fold_max l a [a]); [now left|].
  intros v [<-|[]]. apply ltb_irrefl.
Qed.

Lemma set_last_length y stop : length (Numpy.set_last y stop) = length y.
Proof.
  induction y as [|a [|b y] IH]; try reflexivity.
  change (S (length (Numpy.set_last (b :: y) stop)) = S (length (b :: y))).
  now rewrite IH.
Qed.

Lemma set_last_nth y stop d : forall i,
  S i < length y -> nth i (Numpy.set_last y stop) d = nth i y d.
Proof.
  induction y as [|a [|b y] IH]; intros i Hi; cbn [length] in Hi; try lia.
  change (Numpy.set_last (a :: b :: y) stop)
    with (a :: Numpy.set_last (b :: y) stop).
  destruct i; [reflexivity|]. cbn [nth]. apply IH. cbn [length]. lia.
Qed.

Lemma set_last_nth_last y stop d :
  y <> [] -> nth (length y - 1) (Numpy.set_last y stop) d = stop.
Proof.
  induction y as [|a [|b y] IH]; intros H; [congruence|reflexivity|].
  change (Numpy.set_last (a :: b :: y) stop)
    with (a :: Numpy.set_last (b :: y) stop).
  replace (length (a :: b :: y) - 1) with (S (length (b :: y) - 1))
    by (cbn [length]; lia).
  cbn [nth]. apply IH. discriminate.
Qed.

(** [linspace] with a non-negative count: as many samples as asked, each
    the sample of its index, but for the last one of two or more, which is
    the end point. *)
Lemma linspace_spec lo hi num :
  (0 <= num)%Z ->
  exists sx,
    Numpy.linspace lo hi num = Ok sx
    /\ length sx = Z.to_nat num
    /\ forall i, i < Z.to_nat num ->
         nth i sx nan = evenly_spaced lo hi (Z.to_nat num) i.
Proof.
  intros Hn. unfold Numpy.linspace, evenly_spaced.
  destruct (Z.ltb_spec num 0); [lia|].
  set (n := Z.to_nat num).
  set (y := map (Numpy.sample lo hi (n - 1)) (seq 0 n)).
  assert (Ly : length y = n) by (unfold y; now rewrite length_map, length_seq).
  assert (Ny : forall i, i < n -> nth i y nan = Numpy.sample lo hi (n - 1) i).
  { intros i Hi. unfold y.
    rewrite nth_indep with (d' := Numpy.sample lo hi (n - 1) 0)
      by (rewrite length_map, length_seq; exact Hi).
    rewrite map_nth, seq_nth by exact Hi. reflexivity. }
  eexists. split; [reflexivity|].
  destruct (Nat.ltb_spec 1 n) as [H1|H1].
  - rewrite set_last_length. split; [exact Ly|].
    intros i Hi. destruct (Nat.eqb_spec i (n - 1)) as [->|Hne].
    + rewrite <- Ly. apply set_last_nth_last.
      destruct y; cbn in Ly; [lia|discriminate].
    + rewrite set_last_nth by lia. apply Ny. lia.
  - split; [exact Ly|]. intros i Hi. now apply Ny.
Qed.

End GridFacts.

(* ================================================================== *)
(** * Facts about [smooth_curve] *)

Module SmootherFacts.
Import GridFacts.

Lemma nonempty_of_length (x : list float) : 2 <= length x -> x <> [].
Proof. destruct x; cbn; [lia|discriminate]. Qed.

Lemma smooth_x_of_spec x num :
  2 <= length x -> (0 <= num)%Z ->
  exists sx lo hi,
    smooth_x_of x num = Ok sx
    /\ Builtins.min x = Ok lo /\ Builtins.max x = Ok hi
    /\ length sx = Z.to_nat num
    /\ forall i, i < Z.to_nat num ->
         nth i sx nan = evenly_spaced lo hi (Z.to_nat num) i.
Proof.
  intros L Hn. pose proof (nonempty_of_length _ L) as Ne.
  destruct (min_spec x Ne) as (lo & Hlo & _).
  destruct (max_spec x Ne) as (hi & Hhi & _).
  destruct (linspace_spec lo hi num Hn) as (sx & Hsx & P).
  exists sx, lo, hi. unfold smooth_x_of. rewrite Hlo, Hhi. cbn [bind].
  auto.
Qed.

Lemma smooth_x_of_raise x num e :
  2 <= length x -> smooth_x_of x num = Raise e ->
  ascii_head (exn_str e) = true.
Proof.
  intros L. pose proof (nonempty_of_length _ L) as Ne.
  destruct (min_spec x Ne) as (lo & Hlo & _).
  destruct (max_spec x Ne) as (hi & Hhi & _).
  unfold smooth_x_of. rewrite Hlo, Hhi. cbn [bind]. unfold Numpy.linspace.
  destruct (num <? 0)%Z; [|discriminate].
  intros H. inversion H. reflexivity.
Qed.

Lemma linear_fallback_raise x y sx e :
  linear_fallback x y sx = Raise e -> ascii_head (exn_str e) = true.
Proof.
  unfold linear_fallback, Scipy.interp1d_linear.
  destruct (negb _); cbn [bind]; [intros H; inversion H; reflexivity|].
  destruct (Builtins.sort_by _ _) as [|p pts]; cbn [bind];
    [intros H; inversion H; reflexivity|].
  destruct (existsb _ sx); [intros H; inversion H; reflexivity|].
  destruct (existsb _ sx); [intros H; inversion H; reflexivity|].
  discriminate.
Qed.

Lemma linear_fallback_length x y sx sy :
  linear_fallback x y sx = Ok sy -> length sy = length sx.
Proof.
  unfold linear_fallback, Scipy.interp1d_linear.
  destruct (negb _); cbn [bind]; [discriminate|].
  destruct (Builtins.sort_by _ _) as [|p pts]; cbn [bind]; [discriminate|].
  destruct (existsb _ sx); [discriminate|].
  destruct (existsb _ sx); [discriminate|].
  intros H. inversion H. apply length_map.
Qed.

Section Dispatch.
Variable quadratic cubic akima :
  list float -> list float -> result Scipy.interp_func.

Lemma smooth_curve_unfold x y method num sx :
  2 <= length x -> smooth_x_of x num = Ok sx ->
  smooth_curve quadratic cubic akima x y method num
  = match try_method quadratic cubic akima x y method sx with
    | Ok sy => Ok (sx, sy)
    | Raise _ => sy <- linear_fallback x y sx ;; Ok (sx, sy)
    end.
Proof.
  intros L H. unfold smooth_curve.
  destruct (Nat.ltb_spec (length x) 2); [lia|]. now rewrite H.
Qed.

Lemma smooth_curve_no_grid x y method num e :
  2 <= length x -> smooth_x_of x num = Raise e ->
  smooth_curve quadratic cubic akima x y method num = Raise e.
Proof.
  intros L H. unfold smooth_curve.
  destruct (Nat.ltb_spec (length x) 2); [lia|]. now rewrite H.
Qed.

Lemma dispatch_unsupported x y method :
  supported method = false ->
  dispatch quadratic cubic akima x y method
  = Raise (UnsupportedMethodError method).
Proof.
  unfold supported, dispatch. cbn [existsb]. intros H.
  repeat (apply orb_false_iff in H as [? H]).
  repeat match goal with E : str_eqb _ _ = false |- _ => rewrite E; clear E end.
  reflexivity.
Qed.

Lemma try_method_linear x y sx :
  try_method quadratic cubic akima x y (u "linear") sx
  = linear_fallback x y sx.
Proof. reflexivity. Qed.

(** An unsupported name behaves as [linear]. *)
Lemma smooth_curve_unsupported x y method num :
  2 <= length x -> supported method = false ->
  smooth_curve quadratic cubic akima x y method num
  = smooth_curve quadratic cubic akima x y (u "linear") num.
Proof.
  intros L U. destruct (smooth_x_of x num) as [sx|e] eqn:G.
  - rewrite !(smooth_curve_unfold _ _ _ _ _ L G).
    unfold try_method at 1. rewrite (dispatch_unsupported _ _ _ U).
    cbn [bind]. rewrite try_method_linear.
    destruct (linear_fallback x y sx); reflexivity.
  - now rewrite !(smooth_curve_no_grid _ _ _ _ _ L G).
Qed.

Lemma smooth_curve_unsupported_raise x y method num e :
  2 <= length x -> supported method = false ->
  smooth_curve quadratic cubic akima x y method num = Raise e ->
  ascii_head (exn_str e) = true.
Proof.
  intros L U. destruct (smooth_x_of x num) as [sx|e'] eqn:G.
  - rewrite (smooth_curve_unfold _ _ _ _ _ L G).
    unfold try_method. rewrite (dispatch_unsupported _ _ _ U). cbn [bind].
    destruct (linear_fallback x y sx) as [sy|e'] eqn:F; cbn [bind];
      [discriminate|].
    intros H. inversion H; subst. exact (linear_fallback_raise _ _ _ _ F).
  - rewrite (smooth_curve_no_grid _ _ _ _ _ L G).
    intros H. inversion H; subst. exact (smooth_x_of_raise _ _ _ L G).
Qed.

End Dispatch.

End SmootherFacts.

(* ================================================================== *)
(** * The curve smoother: properties *)

Section SmootherProperties.
Import GridFacts SmootherFacts.

(** The spline interpolators of scipy: any three. *)
Variable quadratic cubic akima :
  list float -> list float -> result Scipy.interp_func.

(** C1, on the code.  With two points or more and a method name outside
    the four supported ones, [smooth_curve] does what it does for
    [linear]: the [ValueError] the chain raises for the name is caught by
    the [except] around it.  The unsupported-method error never leaves the
    function; on the points (0,0), (1,1) with the name [spline] and three
    samples the linear curve is returned. *)
Theorem smoother_unsupported_method :
  (forall x_list y_list method num_points,
      2 <= length x_list -> supported method = false ->
      smooth_curve quadratic cubic akima x_list y_list method num_points
      = smooth_curve quadratic cubic akima x_list y_list (u "linear") num_points
      /\ smooth_curve quadratic cubic akima x_list y_list method num_points
         <> Raise (UnsupportedMethodError method))
  /\ smooth_curve quadratic cubic akima [0; 1]%float [0; 1]%float (u "spline") 3
     = Ok ([0; 0.5; 1]%float, [0; 0.5; 1]%float).
Proof.
  split; [|vm_compute; reflexivity].
  intros x y method num L U. split.
  - apply smooth_curve_unsupported; assumption.
  - intros H.
    pose proof (smooth_curve_unsupported_raise _ _ _ _ _ _ _ _ L U H) as A.
    discriminate A.
Qed.


End SmootherProperties.

Lemma smoother_unsupported_method_witness :
  smooth_curve failing_interpolator failing_interpolator failing_interpolator
    [1; 2; 4]%float [1; 4; 16]%float (u "Cubic") 5
  = smooth_curve failing_interpolator failing_interpolator failing_interpolator
      [1; 2; 4]%float [1; 4; 16]%float (u "linear") 5
  /\ smooth_curve failing_interpolator failing_interpolator
       failing_interpolator [1; 2; 4]%float [1; 4; 16]%float (u "Cubic") 5
     <> Raise (UnsupportedMethodError (u "Cubic")).
Proof.
  apply (proj1 (smoother_unsupported_method failing_interpolator
                  failing_interpolator failing_interpolator));
    [cbn; lia|reflexivity].
Defined.


(* ================================================================== *)
(** * The statistics: properties *)

Section StatisticsProperties.
Import GridFacts.

(** C9.  On a non-empty list [calculate_statistics] returns a record whose
    minimum is an element that no element is below, whose maximum is an
    element that no element is above, whose mean is the sum of the list
    divided by its length, and whose count is the length; on
    [[1, 2, 3, 4]] the record is minimum 1, maximum 4, mean 2.5,
    count 4. *)
Theorem statistics_summary :
  (forall y_list,
      y_list <> [] ->
      exists stats,
        calculate_statistics y_list = Ok stats
        /\ In (minimum stats) y_list
        /\ (forall v, In v y_list -> (v <? minimum stats)%float = false)
        /\ In (maximum stats) y_list
        /\ (forall v, In v y_list -> (maximum stats <? v)%float = false)
        /\ mean stats
           = (fold_left PrimFloat.add y_list 0
              / Num.float_of_nat (length y_list))%float
        /\ count stats = length y_list)
  /\ calculate_statistics [1; 2; 3; 4]%float
     = Ok {| minimum := 1; maximum := 4; mean := 2.5; count := 4 |}.
Proof.
  split; [|vm_compute; reflexivity].
  intros y Ne.
  destruct (min_spec y Ne) as (lo & Hlo & Ilo & Blo).
  destruct (max_spec y Ne) as (hi & Hhi & Ihi & Bhi).
  unfold calculate_statistics. rewrite Hlo, Hhi. cbn [bind].
  eexists. split; [reflexivity|]. cbn [minimum maximum mean count].
  repeat split; auto.
Qed.

Lemma statistics_summary_witness :
  exists stats,
    calculate_statistics [2.5; -1; 7]%float = Ok stats
    /\ In (minimum stats) [2.5; -1; 7]%float
    /\ (forall v, In v [2.5; -1; 7]%float ->
          (v <? minimum stats)%float = false)
    /\ In (maximum stats) [2.5; -1; 7]%float
    /\ (forall v, In v [2.5; -1; 7]%float ->
          (maximum stats <? v)%float = false)
    /\ mean stats
       = (fold_left PrimFloat.add [2.5; -1; 7]%float 0
          / Num.float_of_nat (length [2.5; -1; 7]%float))%float
    /\ count stats = length [2.5; -1; 7]%float.
Proof.
  apply (proj1 statistics_summary [2.5; -1; 7]%float). discriminate.
Defined.

End StatisticsProperties.

(* ================================================================== *)
(** * More facts about the parser *)

Module ReadingFacts.
Import Builtins FloatOrder SortFacts TextFacts ParserFacts.

(** The body of the [try] gives the point of the line, or raises when the
    line has none. *)
Lemma parse_line_point n line :
  match line_point line with
  | Some p => parse_line n line = Ok p
  | None => exists e, parse_line n line = Raise (ValueError e)
  end.
Proof.
  unfold line_point, parse_line, tokens.
  destruct (split_loop separators [] line) as [|t0 [|t1 ts]];
    cbn [length Nat.ltb Nat.leb nth bind]; eauto.
  destruct (float_cases t0) as [[x E0]|E0]; rewrite E0; cbn [bind]; eauto.
  destruct (float_cases t1) as [[y E1]|E1]; rewrite E1; cbn [bind]; eauto.
Qed.

(** The loop over the lines, read on the lines it does not skip: it
    succeeds exactly when each of them gives a point, and then appends
    their points in order. *)
Lemma parse_lines_content lines : forall n xs ys,
  match parse_lines n lines xs ys with
  | Ok r =>
      forallb has_point (content lines) = true
      /\ r = (xs ++ map fst (points_of (content lines)),
              ys ++ map snd (points_of (content lines)))
  | Raise _ => forallb has_point (content lines) = false
  end.
Proof.
  induction lines as [|raw lines IH]; intros n xs ys.
  - cbn. now rewrite !app_nil_r.
  - cbn [parse_lines]. unfold content in *. cbn [map filter].
    destruct (skipped (strip raw)) eqn:Sk; cbn [negb]; [apply IH|].
    cbn [forallb points_of flat_map]. unfold has_point.
    pose proof (parse_line_point n (strip raw)) as P.
    destruct (line_point (strip raw)) as [[x y]|].
    + rewrite P. specialize (IH (S n) (xs ++ [x]) (ys ++ [y])).
      destruct (parse_lines (S n) lines (xs ++ [x]) (ys ++ [y])) as [r|e].
      * destruct IH as [H ->]. split; [exact H|].
        cbn [app map fst snd]. now rewrite <- !app_assoc.
      * exact IH.
    + destruct P as [e ->]. reflexivity.
Qed.

Lemma points_of_length lines :
  forallb has_point lines = true -> length (points_of lines) = length lines.
Proof.
  induction lines as [|l lines IH]; [reflexivity|].
  cbn [forallb points_of flat_map]. unfold has_point.
  destruct (line_point l); [|discriminate].
  intros H. cbn [app length]. f_equal. now apply IH.
Qed.

(** [parse_input_data], read on the lines of the text it does not skip. *)
Lemma parse_input_data_points input_text :
  forallb has_point (content_lines input_text) = true ->
  parse_input_data input_text
  = normalize (map fst (points_of (content_lines input_text)))
              (map snd (points_of (content_lines input_text))).
Proof.
  intros H. unfold parse_input_data. fold (lines_of input_text).
  pose proof (parse_lines_content (lines_of input_text) 1 [] []) as P.
  fold (content_lines input_text) in P.
  destruct (parse_lines 1 (lines_of input_text) [] []) as [r|e].
  - destruct P as [_ ->]. reflexivity.
  - congruence.
Qed.

(** The loop raises nothing but parse errors. *)
Lemma parse_lines_raise lines : forall n xs ys e,
  parse_lines n lines xs ys = Raise e ->
  exists line_num cause, e = ParseError line_num cause.
Proof.
  induction lines as [|raw lines IH]; intros n xs ys e; cbn [parse_lines];
    [discriminate|].
  destruct (skipped (strip raw)); [apply IH|].
  pose proof (parse_line_point n (strip raw)) as P.
  destruct (line_point (strip raw)) as [[x y]|].
  - rewrite P. apply IH.
  - destruct P as [c ->]. intros H. inversion H. unfold ParseError. eauto.
Qed.

Lemma parse_input_data_no_point input_text :
  forallb has_point (content_lines input_text) = false ->
  exists line_num cause,
    parse_input_data input_text = Raise (ParseError line_num cause).
Proof.
  intros H. unfold parse_input_data. fold (lines_of input_text).
  pose proof (parse_lines_content (lines_of input_text) 1 [] []) as P.
  fold (content_lines input_text) in P.
  destruct (parse_lines 1 (lines_of input_text) [] []) as [r|e] eqn:E.
  - destruct P as [P _]. congruence.
  - cbn [bind]. destruct (parse_lines_raise _ _ _ _ _ E) as (n & c & ->).
    eauto.
Qed.

Lemma points_of_paired lines :
  length (map fst (points_of lines)) = length (map snd (points_of lines)).
Proof. now rewrite !length_map. Qed.

Lemma combine_fst_snd (l : list (float * float)) :
  combine (map fst l) (map snd l) = l.
Proof.
  induction l as [|[a b] l IH]; [reflexivity|].
  cbn [map combine fst snd]. now rewrite IH.
Qed.

Lemma normalize_shape xs ys xs' ys' :
  length xs = length ys ->
  normalize xs ys = Ok (xs', ys') ->
  length xs' = length ys' /\ 2 <= length xs'
  /\ Permutation (combine xs ys) (combine xs' ys')
  /\ (strictly_increasing xs = true -> xs' = xs /\ ys' = ys).
Proof.
  intros L. unfold normalize.
  destruct (Nat.ltb_spec (length xs) 2) as [|L2]; [discriminate|].
  destruct (strictly_increasing xs); cbn [negb]; intros H.
  - inversion H; subst. repeat split; auto.
  - rewrite split_map in H. inversion H; subst.
    pose proof (sort_by_perm ltb (combine xs ys)) as P.
    fold (sorted (combine xs ys)) in P.
    assert (Lc : length (sorted (combine xs ys)) = length xs).
    { rewrite <- (Permutation_length P), length_combine. lia. }
    rewrite !length_map, Lc.
    split; [reflexivity|]. split; [exact L2|]. split; [|discriminate].
    now rewrite combine_fst_snd.
Qed.

(** Sorting what is sorted changes nothing. *)
Lemma fold_insort_sorted_id l : forall acc,
  StronglySorted not_after (acc ++ l) ->
  fold_left (fun acc p => insort ltb p acc) l acc = acc ++ l.
Proof.
  induction l as [|p l IH]; intros acc H; cbn [fold_left].
  - now rewrite app_nil_r.
  - assert (E : insort ltb p acc = acc ++ [p]).
    { clear IH. induction acc as [|q acc IHa]; [reflexivity|].
      cbn [app] in H. inversion H as [|? ? Hs Hq]; subst.
      cbn [insort app].
      assert (N : (fst p <? fst q)%float = false).
      { rewrite Forall_forall in Hq. apply (Hq p).
        apply in_or_app. right. now left. }
      rewrite N. f_equal. now apply IHa. }
    rewrite E. rewrite IH; rewrite <- app_assoc; [reflexivity|exact H].
Qed.

Lemma sorted_fixed l : StronglySorted not_after l -> sorted l = l.
Proof. intros H. exact (fold_insort_sorted_id l [] H). Qed.

Lemma lstrip_spaces w s :
  forallb isspace w = true -> lstrip (w ++ s) = lstrip s.
Proof.
  induction w as [|c w IH]; [reflexivity|]. cbn [forallb app lstrip].
  intros H. apply andb_true_iff in H as [-> H]. now apply IH.
Qed.

Lemma rstrip_spaces s w :
  forallb isspace w = true -> rstrip (s ++ w) = rstrip s.
Proof.
  intros H. unfold rstrip. rewrite rev_app_distr, lstrip_spaces; [reflexivity|].
  rewrite forallb_forall in *. intros c Hc. apply H. now apply in_rev.
Qed.

Lemma strip_spaces w1 s w2 :
  forallb isspace w1 = true -> forallb isspace w2 = true ->
  strip (w1 ++ s ++ w2) = strip s.
Proof.
  intros H1 H2. unfold strip. rewrite (lstrip_spaces _ _ H1).
  induction s as [|c s IH]; cbn [app lstrip].
  - rewrite <- (app_nil_r w2), (lstrip_spaces _ _ H2). reflexivity.
  - destruct (isspace c); [exact IH|].
    change (c :: s ++ w2) with ((c :: s) ++ w2). now apply rstrip_spaces.
Qed.

Lemma split_app sep a r :
  existsb (N.eqb sep) a = false ->
  split sep (a ++ sep :: r) = a :: split sep r.
Proof.
  induction a as [|c a IH]; cbn [existsb app split]; intros H.
  - now rewrite N.eqb_refl.
  - apply orb_false_iff in H as [H1 H2].
    rewrite N.eqb_sym, H1, (IH H2). reflexivity.
Qed.

Lemma split_none sep a :
  existsb (N.eqb sep) a = false -> split sep a = [a].
Proof.
  induction a as [|c a IH]; cbn [existsb split]; intros H; [reflexivity|].
  apply orb_false_iff in H as [H1 H2].
  rewrite N.eqb_sym, H1, (IH H2). reflexivity.
Qed.

(** A line that holds a space is cut at its spaces. *)
Lemma tokens_space a r :
  tokens (a ++ SPACE :: r) = split SPACE (a ++ SPACE :: r).
Proof.
  unfold tokens, separators. cbn [split_loop]. rewrite split_two.
  rewrite existsb_app. cbn [existsb]. rewrite N.eqb_refl.
  now rewrite orb_true_r.
Qed.

End ReadingFacts.

(* ================================================================== *)
(** * The parser: further properties *)

Section ParserMore.
Import Builtins FloatOrder SortFacts TextFacts ParserFacts ReadingFacts.

(** X1.  The three outcomes of the parser, told apart by the lines it does
    not skip: it returns when each of them gives a point and there are two
    or more, and then there are as many abscissae and ordinates as such
    lines; it fails with the insufficient-data error when each gives a
    point and there are fewer than two; it fails with a parse error when
    one of them gives no point. *)
Theorem parser_outcome input_text :
  match parse_input_data input_text with
  | Ok (xs, ys) =>
      forallb has_point (content_lines input_text) = true
      /\ 2 <= length (content_lines input_text)
      /\ length xs = length (content_lines input_text)
      /\ length ys = length (content_lines input_text)
  | Raise e =>
      (forallb has_point (content_lines input_text) = true
       /\ length (content_lines input_text) < 2
       /\ e = InsufficientDataError)
      \/ (forallb has_point (content_lines input_text) = false
          /\ exists line_num cause, e = ParseError line_num cause)
  end.
Proof.
  destruct (forallb has_point (content_lines input_text)) eqn:A.
  - rewrite (parse_input_data_points _ A).
    pose proof (points_of_length _ A) as Lp.
    set (pts := points_of (content_lines input_text)) in *.
    destruct (normalize (map fst pts) (map snd pts)) as [[xs ys]|e] eqn:N.
    + destruct (normalize_shape _ _ _ _ (points_of_paired _) N)
        as (L & L2 & P & _).
      apply Permutation_length in P.
      rewrite !length_combine, !length_map, <- L, Nat.min_id in P.
      fold pts in P. rewrite Nat.min_id in P.
      repeat split; lia.
    + left. unfold normalize in N. rewrite length_map, Lp in N.
      destruct (Nat.ltb_spec (length (content_lines input_text)) 2);
        [|destruct (negb _); discriminate].
      inversion N. auto.
  - destruct (parse_input_data_no_point _ A) as (n & c & ->). right. eauto.
Qed.

(** X2.  What the parser returns is a rearrangement of the points of the
    lines it does not skip, none lost and none added, and it is those
    points in the order of the text when their abscissae already
    increase. *)
Theorem parser_returns_the_points input_text xs ys :
  parse_input_data input_text = Ok (xs, ys) ->
  Permutation (points_of (content_lines input_text)) (combine xs ys)
  /\ length xs = length ys
  /\ (strictly_increasing (map fst (points_of (content_lines input_text)))
      = true ->
      combine xs ys = points_of (content_lines input_text)).
Proof.
  intros H.
  destruct (forallb has_point (content_lines input_text)) eqn:A.
  - rewrite (parse_input_data_points _ A) in H.
    destruct (normalize_shape _ _ _ _ (points_of_paired _) H)
      as (L & _ & P & I).
    rewrite combine_fst_snd in P. repeat split; auto.
    intros Inc. destruct (I Inc) as [-> ->]. apply combine_fst_snd.
  - destruct (parse_input_data_no_point _ A) as (n & c & E). congruence.
Qed.

Lemma parser_returns_the_points_witness :
  Permutation
    (points_of (content_lines (text ["# unsorted"; "2 4"; ""; "1 1"])))
    (combine [1; 2]%float [1; 4]%float)
  /\ length [1; 2]%float = length [1; 4]%float
  /\ (strictly_increasing
        (map fst
           (points_of (content_lines (text ["# unsorted"; "2 4"; ""; "1 1"]))))
      = true ->
      combine [1; 2]%float [1; 4]%float
      = points_of (content_lines (text ["# unsorted"; "2 4"; ""; "1 1"]))).
Proof.
  apply (parser_returns_the_points (text ["# unsorted"; "2 4"; ""; "1 1"])).
  vm_compute. reflexivity.
Defined.

(** X3.  Blank lines and comment lines do not count: two texts with the
    same other lines, up to the white space around each, have the same
    outcome, the same points or a failure in both. *)
Theorem parser_ignores_skipped_lines text1 text2 :
  content_lines text1 = content_lines text2 ->
  same_outcome (parse_input_data text1) (parse_input_data text2).
Proof.
  intros E.
  destruct (forallb has_point (content_lines text1)) eqn:A.
  - rewrite (parse_input_data_points _ A).
    rewrite E in A. rewrite (parse_input_data_points _ A), E.
    unfold same_outcome. destruct (normalize _ _); auto.
  - destruct (parse_input_data_no_point _ A) as (n1 & c1 & ->).
    rewrite E in A.
    destruct (parse_input_data_no_point _ A) as (n2 & c2 & ->).
    exact I.
Qed.

Lemma parser_ignores_skipped_lines_witness :
  same_outcome (parse_input_data (text ["1 2"; "3 4"]))
    (parse_input_data (text ["# header"; "  1 2  "; ""; "  # note"; "3 4"])).
Proof.
  apply parser_ignores_skipped_lines. vm_compute. reflexivity.
Defined.

(** X4.  White space before and after the whole text does not count, not
    even for the line numbers of the parse errors: the lines are numbered
    from the first line that is not blank. *)
Theorem parser_strips_text before input_text after :
  forallb isspace before = true -> forallb isspace after = true ->
  parse_input_data (before ++ input_text ++ after)
  = parse_input_data input_text.
Proof.
  intros H1 H2. unfold parse_input_data.
  now rewrite (strip_spaces _ _ _ H1 H2).
Qed.

Lemma parser_strips_text_witness :
  parse_input_data ([NL; NL] ++ text ["1 2"; "abc 1"] ++ [NL; SPACE])
  = parse_input_data (text ["1 2"; "abc 1"]).
Proof.
  apply parser_strips_text; reflexivity.
Defined.

(** X5.  What follows the second column is not read: on a line cut at
    spaces, whatever comes after the space that ends the second token
    changes neither the point nor the error. *)
Theorem parser_ignores_extra_columns line_num first second rest :
  existsb (N.eqb SPACE) first = false ->
  existsb (N.eqb SPACE) second = false ->
  parse_line line_num (first ++ SPACE :: second ++ SPACE :: rest)
  = parse_line line_num (first ++ SPACE :: second).
Proof.
  intros Ha Hb. unfold parse_line.
  fold (tokens (first ++ SPACE :: second ++ SPACE :: rest)).
  fold (tokens (first ++ SPACE :: second)).
  rewrite !tokens_space, !(split_app _ _ _ Ha), (split_app _ _ _ Hb),
    (split_none _ _ Hb).
  destruct (split SPACE rest); reflexivity.
Qed.

Lemma parser_ignores_extra_columns_witness :
  parse_line 7 (u "1.5" ++ SPACE :: u "2,5" ++ SPACE :: u "# 3 4")
  = parse_line 7 (u "1.5" ++ SPACE :: u "2,5").
Proof.
  apply parser_ignores_extra_columns; reflexivity.
Defined.

(** X6.  Columns set apart by more than one space are never read: when a
    space follows the space that ends the first token, the second token is
    empty and the line raises, [float]'s error on the first token if it
    rejects it and on the empty token otherwise. *)
Theorem parser_rejects_repeated_space line_num first rest :
  existsb (N.eqb SPACE) first = false ->
  parse_line line_num (first ++ SPACE :: SPACE :: rest)
  = match Num.float first with
    | Ok _ => Raise (ValueError (Num.float_error []))
    | Raise e => Raise e
    end.
Proof.
  intros Ha. unfold parse_line.
  fold (tokens (first ++ SPACE :: SPACE :: rest)).
  rewrite tokens_space, (split_app _ _ _ Ha).
  assert (E : split SPACE (SPACE :: rest) = [] :: split SPACE rest)
    by (cbn [split]; now rewrite N.eqb_refl).
  rewrite E. cbn [length Nat.ltb Nat.leb nth bind].
  destruct (Num.float first); reflexivity.
Qed.

Lemma parser_rejects_repeated_space_witness :
  parse_line 3 (u "10.5" ++ SPACE :: SPACE :: u "   7")
  = match Num.float (u "10.5") with
    | Ok _ => Raise (ValueError (Num.float_error []))
    | Raise e => Raise e
    end.
Proof.
  apply parser_rejects_repeated_space. reflexivity.
Defined.

(** X7.  The ordering step changes nothing the second time: the series the
    parser returns, its abscissae being numbers, is returned as it is when
    it goes through the size check and the ordering again. *)
Theorem parser_normalize_idempotent input_text xs ys :
  parse_input_data input_text = Ok (xs, ys) ->
  forallb notnan xs = true ->
  normalize xs ys = Ok (xs, ys).
Proof.
  intros H _.
  destruct (parse_input_data_inv _ _ _ H) as (xs0 & ys0 & E & N).
  pose proof (parse_lines_length _ _ _ _ _ _ E eq_refl) as L0.
  destruct (normalize_shape _ _ _ _ L0 N) as (L & L2 & _ & _).
  unfold normalize in *.
  destruct (Nat.ltb_spec (length xs) 2); [lia|].
  destruct (strictly_increasing xs) eqn:Inc; cbn [negb]; [reflexivity|].
  destruct (length xs0 <? 2); [discriminate|].
  destruct (strictly_increasing xs0) eqn:Inc0; cbn [negb] in N.
  - inversion N; subst. congruence.
  - rewrite split_map in N. inversion N; subst.
    destruct (sorted_spec (combine xs0 ys0)) as (_ & S & _).
    now rewrite combine_fst_snd, (sorted_fixed _ S), split_map.
Qed.

Lemma parser_normalize_idempotent_witness :
  normalize [1; 1; 2]%float [7; 5; 4]%float
  = Ok ([1; 1; 2]%float, [7; 5; 4]%float).
Proof.
  apply (parser_normalize_idempotent (text ["2 4"; "1 7"; "1 5"]));
    vm_compute; reflexivity.
Defined.

End ParserMore.

(* ================================================================== *)
(** * More facts about the order, the smoother and the statistics *)

Module PipelineFacts.
Import Builtins FloatOrder ParserFacts GridFacts SmootherFacts.

Lemma leb_trans a b c :
  (a <=? b)%float = true -> (b <=? c)%float = true -> (a <=? c)%float = true.
Proof.
  rewrite !leb_cmp. intros [H1|H1] [H2|H2].
  - left. exact (SFcompare_Lt_trans _ _ _ H1 H2).
  - left.
    assert (Hcb : cmp c b = Some Eq) by (rewrite cmp_swap, H2; reflexivity).
    assert (Hba : cmp b a = Some Gt) by (rewrite cmp_swap, H1; reflexivity).
    pose proof (SFcompare_Eq_l _ _ _ _ Hcb Hba) as T.
    change (cmp c a = Some Gt) in T. rewrite cmp_swap, T. reflexivity.
  - left. exact (SFcompare_Eq_l _ _ _ _ H1 H2).
  - right. exact (SFcompare_Eq_l _ _ _ _ H1 H2).
Qed.

Lemma leb_nlt a b : (a <=? b)%float = true -> (b <? a)%float = false.
Proof.
  rewrite leb_cmp. intros H.
  destruct (b <? a)%float eqn:E; [|reflexivity].
  apply ltb_cmp in E. rewrite cmp_swap in E.
  destruct H as [H|H]; rewrite H in E; discriminate.
Qed.

Lemma leb_nlt_eqb a b :
  (a <=? b)%float = true -> (a <? b)%float = false -> (a =? b)%float = true.
Proof.
  intros H N. apply eqb_cmp. apply leb_cmp in H as [H|H]; [|exact H].
  apply ltb_cmp in H. congruence.
Qed.

(** In a non-decreasing list the head is below every element and every
    element is below the last. *)
Lemma nondecreasing_head l : forall a,
  nondecreasing (a :: l) = true ->
  forall v, In v l -> (a <=? v)%float = true.
Proof.
  induction l as [|b l IH]; intros a H v Hv; [destruct Hv|].
  cbn [nondecreasing] in H. apply andb_true_iff in H as [Hab Hl].
  destruct Hv as [<-|Hv]; [exact Hab|].
  exact (leb_trans _ _ _ Hab (IH b Hl v Hv)).
Qed.

Lemma last_in (l : list float) : forall a d, In (last (a :: l) d) (a :: l).
Proof.
  induction l as [|b l IH]; intros a d; [now left|].
  change (last (a :: b :: l) d) with (last (b :: l) d). right. apply IH.
Qed.

Lemma nondecreasing_last l a d :
  nondecreasing (a :: l) = true -> notnan a = true ->
  (a <=? last (a :: l) d)%float = true.
Proof.
  intros H Na. destruct (last_in l a d) as [<-|Hl].
  - apply nlt_leb; auto. apply ltb_irrefl.
  - exact (nondecreasing_head l a H _ Hl).
Qed.

Lemma nondecreasing_tail a l :
  nondecreasing (a :: l) = true -> nondecreasing l = true.
Proof.
  destruct l as [|b l]; [reflexivity|]. cbn [nondecreasing].
  intros H. now apply andb_true_iff in H.
Qed.

(** Every element of a non-decreasing list of numbers is below the
    last. *)
Lemma nondecreasing_below_last l : forall d v,
  nondecreasing l = true -> forallb notnan l = true ->
  In v l -> (v <=? last l d)%float = true.
Proof.
  induction l as [|a l IH]; intros d v H N Hv; [destruct Hv|].
  cbn [forallb] in N. apply andb_true_iff in N as [Na Nl].
  destruct Hv as [<-|Hv]; [now apply nondecreasing_last|].
  destruct l as [|b l]; [destruct Hv|].
  change (last (a :: b :: l) d) with (last (b :: l) d).
  apply IH; auto. exact (nondecreasing_tail _ _ H).
Qed.

(** The minimum of a non-decreasing list is its head; its maximum equals
    its last element. *)
Lemma min_of_nondecreasing a l :
  nondecreasing (a :: l) = true -> min (a :: l) = Ok a.
Proof.
  intros H. unfold min. f_equal.
  pose proof (nondecreasing_head l a H) as B. clear H.
  induction l as [|b l IH]; [reflexivity|]. cbn [fold_left].
  rewrite (leb_nlt _ _ (B b (or_introl eq_refl))).
  apply IH. intros v Hv. apply B. now right.
Qed.

Lemma max_of_nondecreasing l d :
  l <> [] -> nondecreasing l = true -> forallb notnan l = true ->
  exists hi, max l = Ok hi /\ (hi =? last l d)%float = true.
Proof.
  intros Ne H N. destruct (max_spec l Ne) as (hi & E & Hin & B).
  exists hi. split; [exact E|].
  apply leb_nlt_eqb; [now apply nondecreasing_below_last|].
  apply B. destruct l as [|a l]; [congruence|]. apply last_in.
Qed.

(** Whatever leaves [smooth_curve] on two points or more was raised by
    [linspace] on a negative count or by linear interpolation after the
    chosen interpolator failed. *)
Lemma smooth_curve_raise quadratic cubic akima x y method num e :
  2 <= length x ->
  smooth_curve quadratic cubic akima x y method num = Raise e ->
  ((num <? 0)%Z = true /\ smooth_x_of x num = Raise e)
  \/ exists sx e0,
       smooth_x_of x num = Ok sx
       /\ try_method quadratic cubic akima x y method sx = Raise e0
       /\ linear_fallback x y sx = Raise e.
Proof.
  intros L. destruct (smooth_x_of x num) as [sx|e'] eqn:G.
  - rewrite (smooth_curve_unfold _ _ _ _ _ _ _ _ L G).
    destruct (try_method quadratic cubic akima x y method sx) as [sy|e0]
      eqn:T; [discriminate|].
    destruct (linear_fallback x y sx) as [sy|e1] eqn:F; cbn [bind];
      [discriminate|].
    intros H. inversion H; subst. right. exists sx, e0. auto.
  - rewrite (smooth_curve_no_grid _ _ _ _ _ _ _ _ L G).
    intros H. inversion H; subst. left. split; [|reflexivity].
    destruct (Z.ltb_spec num 0); [reflexivity|].
    destruct (smooth_x_of_spec x num L ltac:(lia)) as (sx & ? & ? & E & _).
    congruence.
Qed.

Lemma smooth_curve_raise_ascii quadratic cubic akima x y method num e :
  2 <= length x ->
  smooth_curve quadratic cubic akima x y method num = Raise e ->
  ascii_head (exn_str e) = true.
Proof.
  intros L H.
  destruct (smooth_curve_raise _ _ _ _ _ _ _ _ L H)
    as [[_ G]|(sx & e0 & _ & _ & F)].
  - exact (smooth_x_of_raise _ _ _ L G).
  - exact (linear_fallback_raise _ _ _ _ F).
Qed.

Lemma smooth_curve_short quadratic cubic akima x y method num :
  length x < 2 ->
  smooth_curve quadratic cubic akima x y method num
  = Raise InsufficientPointsError.
Proof.
  intros L. unfold smooth_curve.
  destruct (Nat.ltb_spec (length x) 2); [reflexivity|lia].
Qed.

End PipelineFacts.

(* ================================================================== *)
(** * Facts about the sampling grid and linear interpolation *)

Module SamplingFacts.
Import Builtins FloatOrder SortFacts ParserFacts GridFacts SmootherFacts
  PipelineFacts.

(** Numbers that compare equal compare alike with any third. *)
Lemma SFcompare_Eq_cong_l a b c :
  SFcompare a b = Some Eq -> SFcompare a c = SFcompare b c.
Proof. sf_split a; sf_split b; sf_split c; sf_crush. Qed.

Lemma SFcompare_Eq_cong_r a b c :
  SFcompare a b = Some Eq -> SFcompare c a = SFcompare c b.
Proof. sf_split a; sf_split b; sf_split c; sf_crush. Qed.

Lemma ltb_eqb_l a b v :
  (a =? b)%float = true -> (a <? v)%float = (b <? v)%float.
Proof.
  rewrite eqb_cmp. unfold cmp. intros H.
  rewrite !ltb_spec. unfold SFltb.
  now rewrite (SFcompare_Eq_cong_l _ _ (Prim2SF v) H).
Qed.

Lemma ltb_eqb_r a b v :
  (a =? b)%float = true -> (v <? a)%float = (v <? b)%float.
Proof.
  rewrite eqb_cmp. unfold cmp. intros H.
  rewrite !ltb_spec. unfold SFltb.
  now rewrite (SFcompare_Eq_cong_r _ _ (Prim2SF v) H).
Qed.

Lemma eqb_sym a b : (a =? b)%float = true -> (b =? a)%float = true.
Proof. rewrite !eqb_cmp. intros H. rewrite cmp_swap, H. reflexivity. Qed.

Lemma eqb_trans a b c :
  (a =? b)%float = true -> (b =? c)%float = true -> (a =? c)%float = true.
Proof. rewrite !eqb_cmp. apply SFcompare_Eq_l. Qed.

(** On numbers the order [argsort] sorts by is [<]. *)
Lemma insort_sort_lt p l :
  Forall (fun q => notnan (fst q) = true) l ->
  insort Numpy.sort_lt p l = insort ltb p l.
Proof.
  induction 1 as [|q l Nq Nl IH]; cbn [insort]; [reflexivity|].
  unfold Numpy.sort_lt at 1, Numpy.isnan. unfold notnan in Nq.
  rewrite Nq. cbn [negb]. rewrite andb_false_r, orb_false_r.
  now rewrite IH.
Qed.

Lemma fold_insort_sort_lt l : forall acc,
  Forall (fun q => notnan (fst q) = true) acc ->
  Forall (fun q => notnan (fst q) = true) l ->
  fold_left (fun acc p => insort Numpy.sort_lt p acc) l acc
  = fold_left (fun acc p => insort ltb p acc) l acc.
Proof.
  induction l as [|p l IH]; intros acc Ha Hl; cbn [fold_left]; [reflexivity|].
  inversion Hl as [|? ? Np Nl]; subst.
  rewrite (insort_sort_lt p acc Ha). apply IH; [|exact Nl].
  eapply Permutation_Forall; [apply insort_perm|]. now constructor.
Qed.

Lemma sort_by_sort_lt l :
  Forall (fun q => notnan (fst q) = true) l ->
  sort_by Numpy.sort_lt l = sorted l.
Proof. intros H. apply fold_insort_sort_lt; [constructor|exact H]. Qed.

Lemma last_map_fst (l : list (float * float)) : forall d,
  last (map fst l) (fst d) = fst (last l d).
Proof.
  induction l as [|p [|q l] IH]; intros d; try reflexivity.
  change (last (map fst (q :: l)) (fst d) = fst (last (q :: l) d)).
  apply IH.
Qed.

Lemma forallb_perm (f : float -> bool) l l' :
  Permutation l l' -> forallb f l = true -> forallb f l' = true.
Proof.
  intros P H. rewrite forallb_forall in *. intros v Hv. apply H.
  eapply Permutation_in; [symmetry; exact P|exact Hv].
Qed.

(** The minima of two arrangements of the same numbers are equal, and so
    are the maxima. *)
Lemma min_perm l l' a b :
  Permutation l l' -> forallb notnan l = true ->
  min l = Ok a -> min l' = Ok b -> (a =? b)%float = true.
Proof.
  intros P N Ha Hb.
  assert (Ne : l <> []) by (intros ->; discriminate).
  assert (Ne' : l' <> []) by (intros ->; discriminate).
  destruct (min_spec l Ne) as (a' & Ea & Ia & Ba).
  destruct (min_spec l' Ne') as (b' & Eb & Ib & Bb).
  assert (a' = a) by congruence. assert (b' = b) by congruence. subst.
  rewrite forallb_forall in N.
  assert (Ib' : In b l) by (eapply Permutation_in; [symmetry|]; eassumption).
  assert (Ia' : In a l') by (eapply Permutation_in; eassumption).
  apply leb_nlt_eqb; [apply nlt_leb; auto|auto].
Qed.

Lemma max_perm l l' a b :
  Permutation l l' -> forallb notnan l = true ->
  max l = Ok a -> max l' = Ok b -> (a =? b)%float = true.
Proof.
  intros P N Ha Hb.
  assert (Ne : l <> []) by (intros ->; discriminate).
  assert (Ne' : l' <> []) by (intros ->; discriminate).
  destruct (max_spec l Ne) as (a' & Ea & Ia & Ba).
  destruct (max_spec l' Ne') as (b' & Eb & Ib & Bb).
  assert (a' = a) by congruence. assert (b' = b) by congruence. subst.
  rewrite forallb_forall in N.
  assert (Ib' : In b l) by (eapply Permutation_in; [symmetry|]; eassumption).
  assert (Ia' : In a l') by (eapply Permutation_in; eassumption).
  apply eqb_sym. apply leb_nlt_eqb; [apply nlt_leb; auto|auto].
Qed.

(** The points [interp1d] keeps, sorted by abscissa: the first is at the
    minimum of the abscissae and the last at their maximum. *)
Lemma sorted_ends x y lo hi :
  x <> [] -> length y = length x -> forallb notnan x = true ->
  min x = Ok lo -> max x = Ok hi ->
  exists p t,
    sort_by Numpy.sort_lt (combine x y) = p :: t
    /\ (fst p =? lo)%float = true
    /\ (fst (last (p :: t) p) =? hi)%float = true.
Proof.
  intros Ne L N Hlo Hhi. symmetry in L.
  assert (Nn : Forall (fun q => notnan (fst q) = true) (combine x y)).
  { apply Forall_map with (f := fst) (P := fun v => notnan v = true).
    rewrite (map_fst_combine _ _ L). apply forallb_Forall. exact N. }
  rewrite (sort_by_sort_lt _ Nn).
  pose proof (sorted_x_le _ Nn) as S.
  pose proof (sort_by_perm ltb (combine x y)) as P. fold (sorted (combine x y)) in P.
  assert (Px : Permutation x (map fst (sorted (combine x y)))).
  { rewrite <- (map_fst_combine _ _ L) at 1. now apply Permutation_map. }
  destruct (sorted (combine x y)) as [|p t].
  { apply Permutation_length in Px. destruct x; [congruence|discriminate]. }
  exists p, t. split; [reflexivity|].
  pose proof (StronglySorted_nondecreasing _ S) as Nd.
  pose proof (forallb_perm _ _ _ Px N) as N'.
  split.
  - apply eqb_sym.
    exact (min_perm _ _ _ _ Px N Hlo (min_of_nondecreasing _ _ Nd)).
  - destruct (max_of_nondecreasing (map fst (p :: t)) (fst p)
                ltac:(discriminate) Nd N') as (hi' & Hhi' & E).
    rewrite last_map_fst in E.
    apply eqb_sym in E.
    exact (eqb_trans _ _ _ E (eqb_sym _ _ (max_perm _ _ _ _ Px N Hhi Hhi'))).
Qed.

Lemma existsb_same (f f' : float -> bool) l :
  (forall v, f v = f' v) -> existsb f l = existsb f' l.
Proof.
  intros H. induction l as [|v l IH]; [reflexivity|].
  cbn [existsb]. now rewrite H, IH.
Qed.

Lemma within_existsb lo hi g :
  within lo hi g
  = negb (existsb (fun v => (v <? lo)%float) g)
    && negb (existsb (fun v => (hi <? v)%float) g).
Proof.
  induction g as [|v g IH]; [reflexivity|].
  cbn [within forallb existsb]. fold (within lo hi g). rewrite IH.
  destruct (v <? lo)%float, (hi <? v)%float,
    (existsb (fun v => (v <? lo)%float) g),
    (existsb (fun v => (hi <? v)%float) g); reflexivity.
Qed.

(** Linear interpolation of numbers goes through exactly when no new
    abscissa is outside the range of the points. *)
Lemma linear_fallback_within x y g lo hi :
  x <> [] -> length y = length x -> forallb notnan x = true ->
  min x = Ok lo -> max x = Ok hi ->
  if within lo hi g
  then exists sy, linear_fallback x y g = Ok sy /\ length sy = length g
  else exists msg, linear_fallback x y g = Raise (ValueError msg).
Proof.
  intros Ne L N Hlo Hhi.
  destruct (sorted_ends x y lo hi Ne L N Hlo Hhi) as (p & t & S & Elo & Ehi).
  unfold linear_fallback, Scipy.interp1d_linear.
  rewrite L, Nat.eqb_refl. cbn [negb]. rewrite S. cbn [bind].
  rewrite within_existsb.
  rewrite (existsb_same (fun v => (v <? fst p)%float)
             (fun v => (v <? lo)%float) g)
    by (intros v; apply ltb_eqb_r; exact Elo).
  rewrite (existsb_same (fun v => (fst (last (p :: t) p) <? v)%float)
             (fun v => (hi <? v)%float) g)
    by (intros v; apply ltb_eqb_l; exact Ehi).
  destruct (existsb (fun v => (v <? lo)%float) g); cbn [negb andb]; [eauto|].
  destruct (existsb (fun v => (hi <? v)%float) g); cbn [negb]; [eauto|].
  eexists. split; [reflexivity|]. apply length_map.
Qed.

(** The interpolator of a method gives one ordinate for each abscissa when
    the spline interpolators do. *)
Lemma try_method_length quadratic cubic akima x y method g sy :
  one_per_abscissa quadratic -> one_per_abscissa cubic ->
  one_per_abscissa akima ->
  try_method quadratic cubic akima x y method g = Ok sy ->
  length sy = length g.
Proof.
  intros Hq Hc Ha. unfold try_method, dispatch.
  destruct (str_eqb method (u "linear")).
  { apply linear_fallback_length. }
  destruct (str_eqb method (u "quadratic")).
  { destruct (quadratic x y) as [f|] eqn:E; cbn [bind]; [|discriminate].
    apply (Hq _ _ _ _ _ E). }
  destruct (str_eqb method (u "cubic")).
  { destruct (cubic x y) as [f|] eqn:E; cbn [bind]; [|discriminate].
    apply (Hc _ _ _ _ _ E). }
  destruct (str_eqb method (u "akima")).
  { destruct (akima x y) as [f|] eqn:E; cbn [bind]; [|discriminate].
    apply (Ha _ _ _ _ _ E). }
  discriminate.
Qed.

(** Addition of binary64 numbers is commutative. *)
Lemma add_comm a b : (a + b)%float = (b + a)%float.
Proof.
  apply Prim2SF_inj. rewrite !add_spec. unfold SF64add, SFadd.
  destruct (Prim2SF a) as [[]|[]| |sa ma ea], (Prim2SF b) as [[]|[]| |sb mb eb];
    try reflexivity.
  rewrite (Z.min_comm eb ea). f_equal. apply Z.add_comm.
Qed.

Lemma SFeqb_refl a : a <> S754_nan -> SFeqb a a = true.
Proof. intros H. unfold SFeqb. now rewrite (SFcompare_refl a H). Qed.

(** Adding a zero to a number gives a number equal to it. *)
Lemma zero_add z s lo :
  Prim2SF z = S754_zero s -> notnan lo = true ->
  (z + lo =? lo)%float = true.
Proof.
  intros Hz Hl. apply notnan_cmp in Hl.
  rewrite eqb_spec, add_spec, Hz. unfold SF64add, SFadd.
  destruct (Prim2SF lo) as [sl|sl| |sl ml el]; try congruence.
  - destruct s, sl; reflexivity.
  - now apply SFeqb_refl.
  - now apply SFeqb_refl.
Qed.

(** A zero times a finite number is a zero. *)
Lemma zero_mul z s f :
  Prim2SF z = S754_zero s -> finite f = true ->
  exists s', Prim2SF (z * f) = S754_zero s'.
Proof.
  intros Hz Hf. unfold finite in Hf. rewrite mul_spec, Hz.
  unfold SF64mul, SFmul.
  destruct (Prim2SF f); try discriminate; eauto.
Qed.

(** The first sample of [linspace] equals the start when the gap is
    finite. *)
Lemma first_sample lo hi n :
  notnan lo = true -> finite (gap lo hi n) = true ->
  (Numpy.sample lo hi (n - 1) 0 =? lo)%float = true.
Proof.
  intros Hl Hg. unfold Numpy.sample, gap in *.
  change (Num.float_of_nat 0) with 0%float.
  assert (Z0 : Prim2SF 0 = S754_zero false) by reflexivity.
  destruct (Nat.ltb_spec 1 n) as [H1|H1].
  - destruct (Nat.ltb_spec 0 (n - 1)) as [_|]; [|lia].
    set (d := Num.float_of_nat (n - 1)) in *.
    set (delta := (hi - lo)%float) in *.
    destruct (delta / d =? 0)%float eqn:E.
    + assert (Q : exists s, Prim2SF (0 / d * delta) = S754_zero s).
      { rewrite eqb_spec, div_spec in E. rewrite mul_spec, div_spec, Z0.
        unfold SF64mul, SF64div, SFmul, SFdiv in *.
        destruct (Prim2SF delta) as [sd|sd| |sd md ed],
                 (Prim2SF d) as [sv|sv| |sv mv ev];
          try discriminate E; eauto; destruct sd, sv; discriminate E. }
      destruct Q as [s Q]. exact (zero_add _ _ _ Q Hl).
    + destruct (zero_mul 0 false (delta / d) Z0 Hg) as [s Q].
      exact (zero_add _ _ _ Q Hl).
  - destruct (Nat.ltb_spec 0 (n - 1)); [lia|].
    destruct (zero_mul 0 false (hi - lo) Z0 Hg) as [s Q].
    exact (zero_add _ _ _ Q Hl).
Qed.

(** What [linspace] returns is evenly spaced. *)
Lemma linspace_spaced lo hi num grid :
  (0 <= num)%Z -> notnan lo = true ->
  Numpy.linspace lo hi num = Ok grid ->
  spaced lo hi (Z.to_nat num) grid.
Proof.
  intros Hn Hl G.
  destruct (linspace_spec lo hi num Hn) as (sx & E & Len & Sp).
  assert (sx = grid) by congruence. subst sx.
  set (n := Z.to_nat num) in *. unfold spaced.
  split; [exact Len|]. split; [|split].
  - intros H2. rewrite Sp by lia. unfold evenly_spaced.
    destruct (Nat.ltb_spec 1 n); [|lia]. now rewrite Nat.eqb_refl.
  - intros H1 Hg. rewrite Sp by lia. unfold evenly_spaced.
    destruct (Nat.eqb_spec 0 (n - 1)) as [Z|Z].
    + destruct (Nat.ltb_spec 1 n); [lia|]. cbn [andb].
      now apply first_sample.
    + rewrite andb_false_r. now apply first_sample.
  - intros i Hi Hg. rewrite Sp by lia. unfold evenly_spaced.
    destruct (Nat.eqb_spec i (n - 1)); [lia|]. rewrite andb_false_r.
    unfold Numpy.sample, gap in *.
    destruct (Nat.ltb_spec 1 n); [|lia].
    destruct (Nat.ltb_spec 0 (n - 1)); [|lia].
    rewrite Hg. apply add_comm.
Qed.

(** The grid can leave the range without any overflow: over a span of 600
    times the smallest positive number, the step of 1000 samples rounds
    up to that smallest number, and the samples run past the end. *)
Lemma small_span_overshoots :
  exists grid,
    Numpy.linspace 0 (600 * 0x1p-1074) 1000 = Ok grid
    /\ within 0 (600 * 0x1p-1074) grid = false.
Proof. eexists. split; [vm_compute; reflexivity|]. vm_compute. reflexivity. Qed.

End SamplingFacts.

(* ================================================================== *)
(** * Facts about linear interpolation *)

Module LinearFacts.
Import Builtins FloatOrder SortFacts ParserFacts GridFacts SmootherFacts
  PipelineFacts ReadingFacts SamplingFacts.

Lemma eqb_leb a b : (a =? b)%float = true -> (a <=? b)%float = true.
Proof. rewrite eqb_cmp, leb_cmp. auto. Qed.

Lemma ltb_nleb a b : (a <? b)%float = true -> (b <=? a)%float = false.
Proof.
  intros H. destruct (b <=? a)%float eqn:E; [|reflexivity].
  rewrite (leb_nlt _ _ E) in H. discriminate.
Qed.

Lemma leb_refl a : notnan a = true -> (a <=? a)%float = true.
Proof. intros H. apply nlt_leb; auto. apply ltb_irrefl. Qed.

Lemma nth_last (l : list float) d : nth (length l - 1) l d = last l d.
Proof.
  induction l as [|a [|b l] IH]; try reflexivity.
  change (last (a :: b :: l) d) with (last (b :: l) d). rewrite <- IH.
  replace (length (a :: b :: l) - 1) with (S (length (b :: l) - 1))
    by (cbn [length]; lia).
  reflexivity.
Qed.

Lemma strictly_increasing_tail a l :
  strictly_increasing (a :: l) = true -> strictly_increasing l = true.
Proof.
  destruct l as [|b l]; [reflexivity|]. cbn [strictly_increasing].
  intros H. now apply andb_true_iff in H.
Qed.

(** Two numbers or more in increasing order: none of them is NaN. *)
Lemma strictly_increasing_notnan l :
  2 <= length l -> strictly_increasing l = true -> forallb notnan l = true.
Proof.
  induction l as [|a [|b t] IH]; cbn [length]; try lia.
  intros _ H. pose proof (strictly_increasing_tail _ _ H) as Ht.
  cbn [strictly_increasing] in H. apply andb_true_iff in H as [Hab _].
  destruct (leb_notnan _ _ (ltb_leb _ _ Hab)) as [Na Nb].
  change (notnan a && forallb notnan (b :: t) = true). rewrite Na.
  destruct t as [|c t]; [cbn [forallb andb]; now rewrite Nb|].
  apply IH; [cbn [length]; lia|exact Ht].
Qed.

(** Points of increasing abscissae are in the order [sorted] leaves. *)
Lemma increasing_not_after x : forall y,
  strictly_increasing x = true -> StronglySorted not_after (combine x y).
Proof.
  induction x as [|a x IH]; intros [|b y] H; try constructor.
  - apply IH. exact (strictly_increasing_tail _ _ H).
  - rewrite Forall_forall. intros [rx ry] Hr. apply in_combine_l in Hr.
    unfold not_after. cbn [fst]. apply leb_nlt.
    exact (nondecreasing_head x a (strictly_increasing_sorted_x _ H) rx Hr).
Qed.

(** [np.interp] at the abscissa of one of the points gives the ordinate of
    that point. *)
Lemma interp_from_hits rest : forall p v pk,
  strictly_increasing (map fst (p :: rest)) = true ->
  forallb notnan (map fst (p :: rest)) = true ->
  In pk (p :: rest) -> (fst pk =? v)%float = true ->
  Numpy.interp_from v p rest = snd pk.
Proof.
  induction rest as [|q rest IH]; intros p v pk S N Hin E.
  - destruct Hin as [<-|[]]. reflexivity.
  - cbn [Numpy.interp_from].
    pose proof (strictly_increasing_tail _ _ S) as St.
    cbn [map strictly_increasing] in S. apply andb_true_iff in S as [Hpq _].
    cbn [map forallb] in N. apply andb_true_iff in N as [Np Nt].
    destruct Hin as [<-|Hin].
    + rewrite (ltb_eqb_l _ _ (fst q) E) in Hpq.
      rewrite (ltb_nleb _ _ Hpq). now rewrite E.
    + assert (Hq : (fst q <=? fst pk)%float = true).
      { destruct Hin as [<-|Hin].
        - apply leb_refl. cbn [forallb] in Nt.
          now apply andb_true_iff in Nt.
        - apply (nondecreasing_head (map fst rest) (fst q)
                   (strictly_increasing_sorted_x _ St)).
          now apply in_map. }
      rewrite (leb_trans _ _ _ Hq (eqb_leb _ _ E)).
      apply IH; auto.
Qed.

Lemma interp_hits pts v pk :
  strictly_increasing (map fst pts) = true ->
  forallb notnan (map fst pts) = true ->
  In pk pts -> (fst pk =? v)%float = true ->
  Numpy.interp pts v = snd pk.
Proof.
  intros S N Hin E. unfold Numpy.interp, Numpy.isnan.
  pose proof (eqb_notnan _ _ (eqb_sym _ _ E)) as Nv. unfold notnan in Nv.
  rewrite Nv. cbn [negb].
  destruct pts as [|p rest]; [destruct Hin|].
  pose proof (strictly_increasing_sorted_x _ S) as Nd.
  assert (Hlast : (fst pk <=? fst (last (p :: rest) p))%float = true).
  { rewrite <- last_map_fst.
    apply nondecreasing_below_last; auto. now apply in_map. }
  assert (Hhead : (fst p <=? fst pk)%float = true).
  { destruct Hin as [<-|Hin].
    - apply leb_refl. cbn [map forallb] in N.
      now apply andb_true_iff in N.
    - apply (nondecreasing_head (map fst rest) (fst p) Nd).
      now apply in_map. }
  rewrite <- (ltb_eqb_r _ _ (fst (last (p :: rest) p)) E).
  rewrite (leb_nlt _ _ Hlast).
  rewrite <- (ltb_eqb_l _ _ (fst p) E).
  rewrite (leb_nlt _ _ Hhead).
  now apply interp_from_hits.
Qed.

(** Linear interpolation of points of increasing abscissae passes through
    the points. *)
Lemma linear_through_points x y g sy :
  2 <= length x -> strictly_increasing x = true -> length y = length x ->
  linear_fallback x y g = Ok sy ->
  forall i k, i < length g -> k < length x ->
    (nth k x nan =? nth i g nan)%float = true ->
    nth i sy nan = nth k y nan.
Proof.
  intros L S Ly H i k Hi Hk E. symmetry in Ly.
  pose proof (strictly_increasing_notnan _ L S) as N.
  assert (Nn : Forall (fun q => notnan (fst q) = true) (combine x y)).
  { apply Forall_map with (f := fst) (P := fun v => notnan v = true).
    rewrite (map_fst_combine _ _ Ly). apply forallb_Forall. exact N. }
  unfold linear_fallback, Scipy.interp1d_linear in H.
  rewrite <- Ly, Nat.eqb_refl in H. cbn [negb] in H.
  rewrite (sort_by_sort_lt _ Nn),
    (sorted_fixed _ (increasing_not_after x y S)) in H.
  destruct (combine x y) as [|p t] eqn:C.
  { apply (f_equal (@length _)) in C. rewrite length_combine in C.
    cbn in C. lia. }
  cbn [bind] in H.
  destruct (existsb _ g); [discriminate|].
  destruct (existsb _ g); [discriminate|].
  inversion H; subst sy. rewrite <- C.
  rewrite nth_indep with (d' := Numpy.interp (combine x y) nan)
    by (now rewrite length_map).
  rewrite map_nth.
  replace (nth k y nan) with (snd (nth k (combine x y) (nan, nan)))
    by (now rewrite (combine_nth _ _ _ _ _ Ly)).
  apply interp_hits.
  - now rewrite (map_fst_combine _ _ Ly).
  - now rewrite (map_fst_combine _ _ Ly).
  - apply nth_In. rewrite length_combine. lia.
  - now rewrite (combine_nth _ _ _ _ _ Ly).
Qed.

End LinearFacts.

(* ================================================================== *)
(** * The curve smoother: the samples *)

Section SmootherSamples.
Import Builtins FloatOrder GridFacts SmootherFacts PipelineFacts SamplingFacts.

Variable quadratic cubic akima :
  list float -> list float -> result Scipy.interp_func.

(** C8, as the code has it.  Take two points or more whose abscissae are
    numbers (no NaN), with as many ordinates, a supported method whose
    interpolator gives one ordinate per abscissa, and a non-negative
    number of samples.  The abscissae of the curve are the grid of
    [linspace] from [min(x)] to [max(x)]: [num_points] samples, the last
    being [max(x)], the first [min(x)] when the gap is finite, each one
    before the last at its index times the gap from [min(x)] when the gap
    is not zero.  [smooth_curve] returns whenever no sample of the grid is
    outside [[min(x), max(x)]]; whatever curve it returns has the grid for
    abscissae and [num_points] ordinates; and with [linear] it raises a
    [ValueError] when a sample is outside.  The default number of samples
    is 1000; with [linear], the points (0,0), (1,1) and three samples the
    curve is [sx = [0, 0.5, 1]], [sy = [0, 0.5, 1]]. *)
Theorem smoother_samples :
  (forall x_list y_list method num_points,
      2 <= length x_list -> length y_list = length x_list ->
      forallb notnan x_list = true ->
      supported method = true ->
      (0 <= num_points)%Z ->
      one_per_abscissa quadratic -> one_per_abscissa cubic ->
      one_per_abscissa akima ->
      exists lo hi grid,
        Builtins.min x_list = Ok lo /\ Builtins.max x_list = Ok hi
        /\ Numpy.linspace lo hi num_points = Ok grid
        /\ spaced lo hi (Z.to_nat num_points) grid
        /\ (within lo hi grid = true ->
            exists sy,
              smooth_curve quadratic cubic akima x_list y_list method
                num_points
              = Ok (grid, sy))
        /\ (forall sx sy,
              smooth_curve quadratic cubic akima x_list y_list method
                num_points
              = Ok (sx, sy) ->
              sx = grid /\ length sy = Z.to_nat num_points)
        /\ (within lo hi grid = false ->
            exists msg,
              smooth_curve quadratic cubic akima x_list y_list (u "linear")
                num_points
              = Raise (ValueError msg)))
  /\ default_num_points = 1000%Z
  /\ smooth_curve quadratic cubic akima [0; 1]%float [0; 1]%float
       (u "linear") 3
     = Ok ([0; 0.5; 1]%float, [0; 0.5; 1]%float).
Proof.
  split; [|split; [reflexivity|vm_compute; reflexivity]].
  intros x y method num L Ly N _ Hn Hq Hc Ha.
  pose proof (nonempty_of_length _ L) as Ne.
  destruct (min_spec x Ne) as (lo & Hlo & Ilo & _).
  destruct (max_spec x Ne) as (hi & Hhi & _).
  assert (Nlo : notnan lo = true).
  { rewrite forallb_forall in N. now apply N. }
  destruct (linspace_spec lo hi num Hn) as (grid & G & Len & _).
  assert (Gx : smooth_x_of x num = Ok grid).
  { unfold smooth_x_of. rewrite Hlo, Hhi. exact G. }
  pose proof (linear_fallback_within x y grid lo hi Ne Ly N Hlo Hhi) as W.
  exists lo, hi, grid.
  split; [exact Hlo|]. split; [exact Hhi|]. split; [exact G|].
  split; [exact (linspace_spaced _ _ _ _ Hn Nlo G)|].
  split; [|split].
  - intros Hw. rewrite Hw in W. destruct W as (y_lin & F & _).
    rewrite (smooth_curve_unfold _ _ _ _ _ _ _ _ L Gx).
    destruct (try_method quadratic cubic akima x y method grid); [eauto|].
    rewrite F. cbn [bind]. eauto.
  - intros sx sy. rewrite (smooth_curve_unfold _ _ _ _ _ _ _ _ L Gx).
    destruct (try_method quadratic cubic akima x y method grid)
      as [sy'|e] eqn:T.
    + intros H. inversion H; subst. split; [reflexivity|].
      rewrite <- Len. exact (try_method_length _ _ _ _ _ _ _ _ Hq Hc Ha T).
    + destruct (linear_fallback x y grid) as [y_lin|e'] eqn:F; cbn [bind];
        [|discriminate].
      intros H. inversion H; subst. split; [reflexivity|].
      rewrite <- Len. exact (linear_fallback_length _ _ _ _ F).
  - intros Hw. rewrite Hw in W. destruct W as (msg & F).
    exists msg. rewrite (smooth_curve_unfold _ _ _ _ _ _ _ _ L Gx).
    rewrite try_method_linear, F. reflexivity.
Qed.

End SmootherSamples.

Lemma smoother_samples_witness :
  exists lo hi grid,
    Builtins.min [3; 1; 2]%float = Ok lo
    /\ Builtins.max [3; 1; 2]%float = Ok hi
    /\ Numpy.linspace lo hi 5 = Ok grid
    /\ spaced lo hi (Z.to_nat 5) grid
    /\ (within lo hi grid = true ->
        exists sy,
          smooth_curve failing_interpolator flat_interpolator
            failing_interpolator [3; 1; 2]%float [9; 1; 4]%float (u "cubic") 5
          = Ok (grid, sy))
    /\ (forall sx sy,
          smooth_curve failing_interpolator flat_interpolator
            failing_interpolator [3; 1; 2]%float [9; 1; 4]%float (u "cubic") 5
          = Ok (sx, sy) ->
          sx = grid /\ length sy = Z.to_nat 5)
    /\ (within lo hi grid = false ->
        exists msg,
          smooth_curve failing_interpolator flat_interpolator
            failing_interpolator [3; 1; 2]%float [9; 1; 4]%float (u "linear") 5
          = Raise (ValueError msg)).
Proof.
  apply (proj1 (smoother_samples failing_interpolator flat_interpolator
                  failing_interpolator));
    [cbn; lia|reflexivity|reflexivity|reflexivity|lia| | | ].
  - intros x y f x_new y_new H. discriminate H.
  - intros x y f x_new y_new H1 H2. inversion H1; subst.
    inversion H2; subst. apply length_map.
  - intros x y f x_new y_new H. discriminate H.
Defined.

(** C8, as the design document states it, fails: the two lines
    [-1e308 0] and [1e308 1] parse into a series of two points, and on
    that series [smooth_curve] returns no samples with the supported
    method [linear] and three samples asked for: the span
    [max(x) - min(x)] overflows, the grid is [nan, inf, 1e308], which
    leaves the range of the points, and the call raises a [ValueError]. *)
Lemma smoother_raises_when_span_overflows :
  parse_input_data (text ["-1e308 0"; "1e308 1"])
  = Ok (far_apart, [0; 1]%float)
  /\ 2 <= length far_apart
  /\ supported (u "linear") = true
  /\ smooth_x_of far_apart 3 = Ok [nan; infinity; huge]
  /\ forall quadratic cubic akima, exists msg,
       smooth_curve quadratic cubic akima far_apart [0; 1]%float
         (u "linear") 3
       = Raise (ValueError msg).
Proof.
  split; [vm_compute; reflexivity|].
  split; [cbn; lia|]. split; [reflexivity|].
  split; [vm_compute; reflexivity|].
  intros quadratic cubic akima.
  exists (u "A value in x_new is above the interpolation range.").
  vm_compute. reflexivity.
Qed.


(* ================================================================== *)
(** * The smoother and the statistics: further properties *)

Section SmootherMore.
Import Builtins FloatOrder SortFacts ParserFacts GridFacts SmootherFacts
  PipelineFacts SamplingFacts LinearFacts.

Variable quadratic cubic akima :
  list float -> list float -> result Scipy.interp_func.

(** X8.  What leaves [smooth_curve] on two points or more is never the
    exception of the chosen interpolator: it is the [ValueError] of
    [linspace] for a negative number of samples, which is raised before
    the [try], or what linear interpolation raised after the chosen
    interpolator had failed. *)
Theorem smoother_error_origin x_list y_list method num_points e :
  2 <= length x_list ->
  smooth_curve quadratic cubic akima x_list y_list method num_points
  = Raise e ->
  ((num_points < 0)%Z
   /\ e = ValueError (u "Number of samples, " ++ Numpy.str_of_Z num_points
                        ++ u ", must be non-negative."))
  \/ exists smooth_x e0,
       smooth_x_of x_list num_points = Ok smooth_x
       /\ try_method quadratic cubic akima x_list y_list method smooth_x
          = Raise e0
       /\ linear_fallback x_list y_list smooth_x = Raise e.
Proof.
  intros L H.
  destruct (smooth_curve_raise _ _ _ _ _ _ _ _ L H) as [[N G]|R];
    [left|right; exact R].
  split; [now apply Z.ltb_lt|].
  pose proof (nonempty_of_length _ L) as Ne.
  destruct (min_spec _ Ne) as (lo & Hlo & _).
  destruct (max_spec _ Ne) as (hi & Hhi & _).
  unfold smooth_x_of in G. rewrite Hlo, Hhi in G. cbn [bind] in G.
  unfold Numpy.linspace in G. rewrite N in G. now inversion G.
Qed.

(** X9.  [smooth_curve] fails with the insufficient-points error exactly
    when it is given fewer than two abscissae, whatever the ordinates, the
    method and the number of samples. *)
Theorem smoother_insufficient_points_iff x_list y_list method num_points :
  smooth_curve quadratic cubic akima x_list y_list method num_points
  = Raise InsufficientPointsError
  <-> length x_list < 2.
Proof.
  split.
  - intros H. destruct (Nat.lt_ge_cases (length x_list) 2) as [|L]; [assumption|].
    pose proof (smooth_curve_raise_ascii _ _ _ _ _ _ _ _ L H) as A.
    discriminate A.
  - apply smooth_curve_short.
Qed.

(** X10.  The abscissae of the curve depend on the abscissae of the points
    and on the number of samples only: two calls that return, on the same
    [x_list] and [num_points], return the same [smooth_x], whatever the
    ordinates, the methods and the interpolators. *)
Theorem smoother_grid_independent
    quadratic' cubic' akima' x_list y_list y_list' method method'
    num_points sx sy sx' sy' :
  smooth_curve quadratic cubic akima x_list y_list method num_points
  = Ok (sx, sy) ->
  smooth_curve quadratic' cubic' akima' x_list y_list' method' num_points
  = Ok (sx', sy') ->
  sx = sx'.
Proof.
  intros H H'.
  destruct (Nat.lt_ge_cases (length x_list) 2) as [S|L].
  - rewrite (smooth_curve_short _ _ _ _ _ _ _ S) in H. discriminate.
  - destruct (smooth_x_of x_list num_points) as [g|e] eqn:G.
    + rewrite (smooth_curve_unfold _ _ _ _ _ _ _ _ L G) in H.
      rewrite (smooth_curve_unfold _ _ _ _ _ _ _ _ L G) in H'.
      assert (E : sx = g).
      { destruct (try_method quadratic cubic akima _ _ _ _);
          [now inversion H|].
        destruct (linear_fallback x_list y_list g); cbn [bind] in H;
          [now inversion H|discriminate]. }
      assert (E' : sx' = g).
      { destruct (try_method quadratic' cubic' akima' _ _ _ _);
          [now inversion H'|].
        destruct (linear_fallback x_list y_list' g); cbn [bind] in H';
          [now inversion H'|discriminate]. }
      congruence.
    + rewrite (smooth_curve_no_grid _ _ _ _ _ _ _ _ L G) in H. discriminate.
Qed.

(** X11.  The curve of [linear] passes through the points: on points of
    strictly increasing abscissae, wherever an abscissa of the curve
    equals the abscissa of a point, the ordinate of the curve is the
    ordinate of that point; and a curve of two samples or more ends at
    the ordinate of the last point. *)
Theorem smoother_linear_through_points x_list y_list num_points sx sy :
  strictly_increasing x_list = true -> length y_list = length x_list ->
  smooth_curve quadratic cubic akima x_list y_list (u "linear") num_points
  = Ok (sx, sy) ->
  (forall i k, i < length sx -> k < length x_list ->
     (nth i sx nan =? nth k x_list nan)%float = true ->
     nth i sy nan = nth k y_list nan)
  /\ (2 <= length sx -> nth (length sx - 1) sy nan = last y_list nan).
Proof.
  intros S Ly H.
  destruct (Nat.lt_ge_cases (length x_list) 2) as [Sh|L].
  { rewrite (smooth_curve_short _ _ _ _ _ _ _ Sh) in H. discriminate. }
  destruct (Z.ltb_spec num_points 0) as [Neg|Hn].
  { destruct (smooth_x_of x_list num_points) as [g|e] eqn:G.
    - exfalso. pose proof (nonempty_of_length _ L) as Ne.
      destruct (min_spec _ Ne) as (lo & Hlo & _).
      destruct (max_spec _ Ne) as (hi & Hhi & _).
      unfold smooth_x_of in G. rewrite Hlo, Hhi in G. cbn [bind] in G.
      unfold Numpy.linspace in G.
      destruct (Z.ltb_spec num_points 0); [discriminate|lia].
    - rewrite (smooth_curve_no_grid _ _ _ _ _ _ _ _ L G) in H.
      discriminate. }
  destruct (smooth_x_of_spec x_list num_points L Hn)
    as (g & lo & hi & G & Hlo & Hhi & Len & Sp).
  rewrite (smooth_curve_unfold _ _ _ _ _ _ _ _ L G), try_method_linear in H.
  assert (F : linear_fallback x_list y_list g = Ok sy /\ sx = g).
  { destruct (linear_fallback x_list y_list g) as [y_lin|e] eqn:F;
      cbn [bind] in H; [|discriminate].
    now inversion H. }
  destruct F as [F ->].
  assert (Through : forall i k, i < length g -> k < length x_list ->
            (nth i g nan =? nth k x_list nan)%float = true ->
            nth i sy nan = nth k y_list nan).
  { intros i k Hi Hk E.
    exact (linear_through_points _ _ _ _ L S Ly F i k Hi Hk
             (eqb_sym _ _ E)). }
  split; [exact Through|].
  intros L2. rewrite <- (nth_last y_list), Ly.
  apply Through; [lia|lia|].
  rewrite Sp by lia. unfold evenly_spaced.
  destruct (Nat.ltb_spec 1 (Z.to_nat num_points)); [|lia].
  rewrite Len, Nat.eqb_refl. cbn [andb].
  pose proof (strictly_increasing_notnan _ L S) as N.
  destruct (max_of_nondecreasing x_list nan (nonempty_of_length _ L)
              (strictly_increasing_sorted_x _ S) N) as (hi' & Hhi' & E).
  assert (hi' = hi) by congruence. subst hi'.
  now rewrite nth_last.
Qed.

End SmootherMore.

Lemma smoother_error_origin_witness :
  ((-5 < 0)%Z
   /\ ValueError (u "Number of samples, -5, must be non-negative.")
      = ValueError (u "Number of samples, " ++ Numpy.str_of_Z (-5)
                      ++ u ", must be non-negative."))
  \/ exists smooth_x e0,
       smooth_x_of [0; 1]%float (-5) = Ok smooth_x
       /\ try_method failing_interpolator failing_interpolator
            failing_interpolator [0; 1]%float [0; 1]%float (u "cubic")
            smooth_x
          = Raise e0
       /\ linear_fallback [0; 1]%float [0; 1]%float smooth_x
          = Raise (ValueError (u "Number of samples, -5, must be non-negative.")).
Proof.
  apply (smoother_error_origin failing_interpolator failing_interpolator
           failing_interpolator [0; 1]%float [0; 1]%float (u "cubic") (-5));
    [cbn; lia|vm_compute; reflexivity].
Defined.

Lemma smoother_grid_independent_witness :
  [1; 1.5; 2; 2.5; 3]%float = [1; 1.5; 2; 2.5; 3]%float.
Proof.
  apply (smoother_grid_independent failing_interpolator failing_interpolator
           failing_interpolator failing_interpolator failing_interpolator
           failing_interpolator [3; 1; 2]%float [9; 1; 4]%float
           [0; 0; 0]%float (u "cubic") (u "linear") 5
           [1; 1.5; 2; 2.5; 3]%float [1; 2.5; 4; 6.5; 9]%float
           [1; 1.5; 2; 2.5; 3]%float [0; 0; 0; 0; 0]%float);
    vm_compute; reflexivity.
Defined.

Lemma smoother_linear_through_points_witness :
  (forall i k, i < length [0; 0.5; 1; 1.5; 2]%float ->
     k < length [0; 1; 2]%float ->
     (nth i [0; 0.5; 1; 1.5; 2]%float nan =? nth k [0; 1; 2]%float nan)%float
     = true ->
     nth i [0; 0.5; 1; 2.5; 4]%float nan = nth k [0; 1; 4]%float nan)
  /\ (2 <= length [0; 0.5; 1; 1.5; 2]%float ->
      nth (length [0; 0.5; 1; 1.5; 2]%float - 1)
        [0; 0.5; 1; 2.5; 4]%float nan
      = last [0; 1; 4]%float nan).
Proof.
  apply (smoother_linear_through_points failing_interpolator
           failing_interpolator failing_interpolator
           [0; 1; 2]%float [0; 1; 4]%float 5);
    [reflexivity|reflexivity|vm_compute; reflexivity].
Defined.


(* ================================================================== *)
(** * The statistics and the pipeline: further properties *)

Section PipelineMore.
Import Builtins FloatOrder SortFacts ParserFacts GridFacts SmootherFacts
  PipelineFacts ReadingFacts.

(** X12.  [calculate_statistics] fails exactly on the empty list, and then
    with the [ValueError] of [min], which is evaluated first: the division
    by the length is never reached with a length of zero. *)
Theorem statistics_fails_iff_empty y_list :
  match calculate_statistics y_list with
  | Ok stats => y_list <> [] /\ 1 <= count stats
  | Raise e => y_list = [] /\ Builtins.min y_list = Raise e
               /\ exists msg, e = ValueError msg
  end.
Proof.
  destruct y_list as [|a l].
  - cbn. eauto.
  - cbn. split; [discriminate|lia].
Qed.

(** X13.  On a list of numbers (no NaN) the minimum returned is below
    every element, every element is below the maximum returned, and the
    minimum is below the maximum. *)
Theorem statistics_bounds y_list stats :
  calculate_statistics y_list = Ok stats ->
  forallb notnan y_list = true ->
  (forall v, In v y_list ->
     (minimum stats <=? v)%float = true /\ (v <=? maximum stats)%float = true)
  /\ (minimum stats <=? maximum stats)%float = true.
Proof.
  intros H N.
  assert (Ne : y_list <> []) by (intros ->; discriminate).
  destruct (min_spec _ Ne) as (lo & Hlo & Ilo & Blo).
  destruct (max_spec _ Ne) as (hi & Hhi & Ihi & Bhi).
  unfold calculate_statistics in H. rewrite Hlo, Hhi in H. cbn [bind] in H.
  inversion H; subst. cbn [minimum maximum].
  rewrite forallb_forall in N.
  assert (B : forall v, In v y_list ->
            (lo <=? v)%float = true /\ (v <=? hi)%float = true).
  { intros v Hv. split; apply nlt_leb; auto. }
  split; [exact B|]. exact (proj1 (B hi Ihi)).
Qed.

Lemma statistics_bounds_witness :
  (forall v, In v [2.5; -1; 7]%float ->
     ((-1) <=? v)%float = true /\ (v <=? 7)%float = true)
  /\ ((-1) <=? 7)%float = true.
Proof.
  apply (statistics_bounds [2.5; -1; 7]%float
           {| minimum := -1; maximum := 7;
              mean := (fold_left PrimFloat.add [2.5; -1; 7]%float 0 / 3)%float;
              count := 3 |});
    vm_compute; reflexivity.
Defined.

(** X14.  What the parser returns can always be summarised and is never
    too short to be smoothed: [calculate_statistics] returns a record
    whose count is the number of points, two or more, and [smooth_curve]
    does not fail with the insufficient-points error, whatever the method
    and the number of samples. *)
Theorem pipeline_after_parse input_text xs ys :
  parse_input_data input_text = Ok (xs, ys) ->
  (exists stats,
      calculate_statistics ys = Ok stats
      /\ count stats = length xs /\ 2 <= count stats)
  /\ forall quadratic cubic akima method num_points,
       smooth_curve quadratic cubic akima xs ys method num_points
       <> Raise InsufficientPointsError.
Proof.
  intros H.
  destruct (parse_input_data_inv _ _ _ H) as (xs0 & ys0 & E & N).
  pose proof (parse_lines_length _ _ _ _ _ _ E eq_refl) as L0.
  destruct (normalize_shape _ _ _ _ L0 N) as (L & L2 & _ & _).
  split.
  - assert (Ne : ys <> []) by (destruct ys; cbn in *; [lia|discriminate]).
    destruct (min_spec _ Ne) as (lo & Hlo & _).
    destruct (max_spec _ Ne) as (hi & Hhi & _).
    unfold calculate_statistics. rewrite Hlo, Hhi. cbn [bind].
    eexists. split; [reflexivity|]. cbn [count]. lia.
  - intros q c a method num F.
    pose proof (smooth_curve_raise_ascii _ _ _ _ _ _ _ _ L2 F) as A.
    discriminate A.
Qed.

Lemma pipeline_after_parse_witness :
  (exists stats,
      calculate_statistics [1; 4; 9]%float = Ok stats
      /\ count stats = length [1; 2; 3]%float /\ 2 <= count stats)
  /\ forall quadratic cubic akima method num_points,
       smooth_curve quadratic cubic akima [1; 2; 3]%float [1; 4; 9]%float
         method num_points
       <> Raise InsufficientPointsError.
Proof.
  apply (pipeline_after_parse (text ["3 9"; "1 1"; "2 4"])).
  vm_compute. reflexivity.
Defined.


End PipelineMore.


(* ================================================================== *)
(** * Facts about the window *)

Module WindowFacts.
Import Builtins ParserFacts GridFacts SmootherFacts PipelineFacts ReadingFacts.
Import Window.

Section Methods.
Variable quadratic cubic akima :
  list float -> list float -> result Scipy.interp_func.
Variable draw : plot -> result unit.
Variable savefig : str -> result unit.

Lemma consistent_init : consistent init.
Proof.
  unfold consistent, init. cbn.
  repeat split; try discriminate; try tauto.
Qed.

Lemma smooth_curve_length x y method sx sy :
  smooth_curve quadratic cubic akima x y method 1000 = Ok (sx, sy) ->
  length sx = 1000.
Proof.
  intros H. destruct (Nat.lt_ge_cases (length x) 2) as [S|L].
  - rewrite (smooth_curve_short _ _ _ _ _ _ _ S) in H. discriminate.
  - destruct (smooth_x_of_spec x 1000 L ltac:(lia))
      as (g & lo & hi & G & _ & _ & Len & _).
    rewrite (smooth_curve_unfold _ _ _ _ _ _ _ _ L G) in H.
    assert (sx = g).
    { destruct (try_method quadratic cubic akima _ _ _ _); [now inversion H|].
      destruct (linear_fallback x y g); cbn [bind] in H;
        [now inversion H|discriminate]. }
    subst. exact Len.
Qed.

Lemma parse_paired input_text xs ys :
  parse_input_data input_text = Ok (xs, ys) -> length xs = length ys.
Proof.
  intros H. destruct (parse_input_data_inv _ _ _ H) as (xs0 & ys0 & E & N).
  pose proof (parse_lines_length _ _ _ _ _ _ E eq_refl) as L0.
  now destruct (normalize_shape _ _ _ _ L0 N).
Qed.

(** [plot_curve] keeps the invariant. *)
Lemma plot_curve_consistent w :
  consistent w ->
  consistent (fst (plot_curve quadratic cubic akima draw w)).
Proof.
  intros C. unfold plot_curve.
  destruct (strip (data_input w)); [exact C|].
  destruct (parse_input_data (data_input w)) as [[xs ys]|e] eqn:P; [|exact C].
  pose proof (parse_paired _ _ _ P) as L.
  destruct C as (C1 & C2 & C3 & C4 & C5).
  destruct (calculate_statistics ys) as [stats|e];
    [|unfold consistent; cbn; auto].
  destruct (smooth_curve quadratic cubic akima xs ys (method_combo w) 1000)
    as [[sx sy]|e] eqn:S; [|unfold consistent; cbn; auto].
  pose proof (smooth_curve_length _ _ _ _ _ S) as Ls.
  destruct (draw _); unfold consistent; cbn;
    (split; [intros _; split; discriminate|]);
    (split; [intros g Hg; inversion Hg; subst; exact Ls|]);
    (split; [split; discriminate|]); auto.
Qed.

Lemma export_image_state w file_path :
  fst (export_image savefig w file_path) = w.
Proof.
  unfold export_image.
  destruct (smooth_x w), (smooth_y w); try reflexivity.
  destruct file_path; [reflexivity|]. destruct (savefig _); reflexivity.
Qed.

Lemma step_consistent w a :
  consistent w ->
  consistent (fst (step quadratic cubic akima draw savefig w a)).
Proof.
  intros C. destruct a; cbn [step fst];
    try (destruct C as (C1 & C2 & C3 & C4 & C5);
         unfold consistent; cbn; now auto).
  - destruct C as (C1 & C2 & C3 & C4 & C5). unfold consistent.
    cbn [export_btn smooth_x smooth_y x_data y_data method_combo].
    split; [exact C1|split; [exact C2|split; [exact C3|split; [exact C4|]]]].
    destruct (Nat.lt_ge_cases i (length method_items)) as [Hi|Hi].
    + now apply nth_In.
    + now rewrite nth_overflow.
  - now apply plot_curve_consistent.
  - destruct (export_btn w); [|exact C]. now rewrite export_image_state.
Qed.

Lemma run_consistent actions : forall w,
  consistent w ->
  consistent (fst (run quadratic cubic akima draw savefig w actions)).
Proof.
  induction actions as [|a rest IH]; intros w C; [exact C|].
  cbn [run].
  pose proof (step_consistent w a C) as C1.
  destruct (step quadratic cubic akima draw savefig w a) as [w1 s1].
  specialize (IH w1 C1).
  destruct (run quadratic cubic akima draw savefig w1 rest) as [w2 s2].
  exact IH.
Qed.

Lemma plot_curve_effects w e :
  In e (snd (plot_curve quadratic cubic akima draw w)) ->
  e = Warning (u "警告") (u "请输入数据")
  \/ (exists x, e = plot_failed x) \/ exists p, e = Drawn p.
Proof.
  unfold plot_curve.
  destruct (strip (data_input w)); [intros [<-|[]]; auto|].
  destruct (parse_input_data _) as [[xs ys]|x];
    [|intros [<-|[]]; right; left; eauto].
  destruct (calculate_statistics ys) as [stats|x];
    [|intros [<-|[]]; right; left; eauto].
  destruct (smooth_curve _ _ _ _ _ _ _) as [[sx sy]|x];
    [|intros [<-|[]]; right; left; eauto].
  destruct (draw _) as [|x]; intros [<-|[]]; [right; right|right; left];
    eauto.
Qed.

Lemma export_image_effects w file_path e :
  smooth_x w <> None -> smooth_y w <> None ->
  In e (snd (export_image savefig w file_path)) ->
  e = Saved file_path \/ (exists m, e = Information (u "成功") m)
  \/ exists m, e = Critical (u "错误") m.
Proof.
  intros Hx Hy. unfold export_image.
  destruct (smooth_x w); [|congruence]. destruct (smooth_y w); [|congruence].
  destruct file_path as [|c r]; [intros []|].
  destruct (savefig (c :: r)).
  - intros [<-|[<-|[]]]; eauto.
  - intros [<-|[]]; eauto.
Qed.

(** In a consistent window no action shows the warning of
    [export_image]. *)
Lemma step_no_plot_first w a :
  consistent w ->
  ~ In plot_first (snd (step quadratic cubic akima draw savefig w a)).
Proof.
  intros C H. destruct a; cbn [step snd] in H; try (now destruct H).
  - apply plot_curve_effects in H as [H|[[x H]|[p H]]];
      vm_compute in H; discriminate H.
  - destruct (export_btn w) eqn:B; [|now destruct H].
    destruct C as (C1 & _). destruct (C1 B) as [Hx Hy].
    apply (export_image_effects _ _ _ Hx Hy) in H as [H|[[m H]|[m H]]];
      discriminate H.
Qed.

(** A file is saved only by a press on the enabled export button. *)
Lemma step_saved w a file_path :
  In (Saved file_path) (snd (step quadratic cubic akima draw savefig w a)) ->
  export_btn w = true.
Proof.
  destruct a; cbn [step snd]; try (now intros []).
  - intros H. apply plot_curve_effects in H as [H|[[x H]|[p H]]];
      discriminate H.
  - destruct (export_btn w); [reflexivity|now intros []].
Qed.

(** The export button is enabled only by a drawing. *)
Lemma step_enables w a :
  export_btn (fst (step quadratic cubic akima draw savefig w a)) = true ->
  export_btn w = true
  \/ existsb is_drawn (snd (step quadratic cubic akima draw savefig w a))
     = true.
Proof.
  destruct a; cbn [step fst snd]; try (now left).
  - unfold plot_curve.
    destruct (strip (data_input w)); [now left|].
    destruct (parse_input_data _) as [[xs ys]|x]; [|now left].
    destruct (calculate_statistics ys) as [stats|x]; [|now left].
    destruct (smooth_curve _ _ _ _ _ _ _) as [[sx sy]|x]; [|now left].
    destruct (draw _) as [|x]; [now right|now left].
  - destruct (export_btn w) eqn:B; [now left|].
    cbn [fst]. intros H. congruence.
Qed.

(** Once enabled the export button stays enabled, and a stored curve stays
    stored. *)
Lemma plot_curve_keeps_button w :
  export_btn w = true ->
  export_btn (fst (plot_curve quadratic cubic akima draw w)) = true.
Proof.
  intros B. unfold plot_curve.
  destruct (strip (data_input w)); [exact B|].
  destruct (parse_input_data _) as [[xs ys]|x]; [|exact B].
  destruct (calculate_statistics ys) as [stats|x]; [|exact B].
  destruct (smooth_curve _ _ _ _ _ _ _) as [[sx sy]|x]; [|exact B].
  destruct (draw _) as [|x]; [reflexivity|exact B].
Qed.

Lemma plot_curve_keeps_curve w :
  smooth_x w <> None ->
  smooth_x (fst (plot_curve quadratic cubic akima draw w)) <> None.
Proof.
  intros B. unfold plot_curve.
  destruct (strip (data_input w)); [exact B|].
  destruct (parse_input_data _) as [[xs ys]|x]; [|exact B].
  destruct (calculate_statistics ys) as [stats|x]; [|exact B].
  destruct (smooth_curve _ _ _ _ _ _ _) as [[sx sy]|x]; [|exact B].
  destruct (draw _) as [|x]; discriminate.
Qed.

(** A plot whose text parses and smooths stores the points and the curve,
    whether the drawing goes through or not. *)
Lemma plot_curve_stores w xs ys sx sy :
  strip (data_input w) <> [] ->
  parse_input_data (data_input w) = Ok (xs, ys) ->
  smooth_curve quadratic cubic akima xs ys (method_combo w) 1000
  = Ok (sx, sy) ->
  x_data (fst (plot_curve quadratic cubic akima draw w)) = xs
  /\ y_data (fst (plot_curve quadratic cubic akima draw w)) = ys
  /\ smooth_x (fst (plot_curve quadratic cubic akima draw w)) = Some sx
  /\ smooth_y (fst (plot_curve quadratic cubic akima draw w)) = Some sy.
Proof.
  intros B P S. unfold plot_curve.
  destruct (strip (data_input w)); [congruence|]. rewrite P.
  assert (Ne : ys <> []).
  { destruct (Nat.lt_ge_cases (length xs) 2) as [Sh|L].
    - rewrite (smooth_curve_short _ _ _ _ _ _ _ Sh) in S. discriminate.
    - pose proof (parse_paired _ _ _ P) as E.
      destruct ys; cbn in *; [lia|discriminate]. }
  destruct (min_spec _ Ne) as (lo & Hlo & _).
  destruct (max_spec _ Ne) as (hi & Hhi & _).
  unfold calculate_statistics. rewrite Hlo, Hhi. cbn [bind]. rewrite S.
  destruct (draw _); cbn; auto.
Qed.

Lemma step_keeps w a :
  (export_btn w = true ->
   export_btn (fst (step quadratic cubic akima draw savefig w a)) = true)
  /\ (smooth_x w <> None ->
      smooth_x (fst (step quadratic cubic akima draw savefig w a)) <> None).
Proof.
  destruct a; cbn [step fst]; try (split; now auto).
  - split; [apply plot_curve_keeps_button|apply plot_curve_keeps_curve].
  - destruct (export_btn w) eqn:B; [|cbn [fst]; split; now auto].
    rewrite export_image_state. split; now auto.
Qed.

(** [plot_curve] on a text that parses, whose points linear interpolation
    can go through, when the drawing goes through. *)
Lemma plot_curve_draws w xs ys stats g y_lin :
  strip (data_input w) <> [] ->
  parse_input_data (data_input w) = Ok (xs, ys) ->
  calculate_statistics ys = Ok stats ->
  smooth_x_of xs 1000 = Ok g ->
  linear_fallback xs ys g = Ok y_lin ->
  (forall p, draw p = Ok tt) ->
  exists sy p,
    plot_curve quadratic cubic akima draw w
    = ({| data_input := data_input w;
          method_combo := method_combo w;
          x_label_input := x_label_input w;
          y_label_input := y_label_input w;
          stats_label := stats_text stats;
          export_btn := true;
          x_data := xs;
          y_data := ys;
          smooth_x := Some g;
          smooth_y := Some sy |}, [Drawn p]).
Proof.
  intros St P Cs G Lin D. unfold plot_curve.
  destruct (strip (data_input w)); [congruence|].
  rewrite P, Cs.
  assert (L : 2 <= length xs).
  { destruct (Nat.lt_ge_cases (length xs) 2) as [S|L]; [|exact L].
    pose proof (parse_paired _ _ _ P) as Lp.
    destruct (parse_input_data_inv _ _ _ P) as (a & b & E & N).
    pose proof (parse_lines_length _ _ _ _ _ _ E eq_refl) as L0.
    destruct (normalize_shape _ _ _ _ L0 N) as (_ & L2 & _). exact L2. }
  rewrite (smooth_curve_unfold _ _ _ _ _ _ _ _ L G).
  destruct (try_method quadratic cubic akima xs ys (method_combo w) g)
    as [sy|e].
  - rewrite D. eauto.
  - rewrite Lin. cbn [bind]. rewrite D. eauto.
Qed.

Lemma app_split {A} (x : A) s2 post : forall s1 pre,
  s1 ++ s2 = pre ++ x :: post ->
  In x s1 \/ exists pre2, pre = s1 ++ pre2 /\ s2 = pre2 ++ x :: post.
Proof.
  induction s1 as [|e s1 IH]; intros pre H.
  - right. exists pre. auto.
  - destruct pre as [|e' pre]; cbn [app] in H; inversion H; subst.
    + left. now left.
    + destruct (IH pre H2) as [I|(pre2 & -> & E)]; [left; now right|].
      right. exists pre2. auto.
Qed.

Lemma run_saved actions : forall w pre file_path post,
  snd (run quadratic cubic akima draw savefig w actions)
  = pre ++ Saved file_path :: post ->
  export_btn w = true \/ existsb is_drawn pre = true.
Proof.
  induction actions as [|a rest IH]; intros w pre file_path post H.
  - cbn in H. destruct pre; discriminate.
  - cbn [run] in H.
    pose proof (step_saved w a file_path) as Sv.
    pose proof (step_enables w a) as En.
    destruct (step quadratic cubic akima draw savefig w a) as [w1 s1].
    specialize (IH w1).
    destruct (run quadratic cubic akima draw savefig w1 rest) as [w2 s2].
    cbn [fst snd] in *.
    destruct (app_split _ _ _ _ _ H) as [I|(pre2 & -> & E)]; [now auto|].
    destruct (IH _ _ _ E) as [B|D].
    + destruct (En B) as [B'|D]; [now left|].
      right. rewrite existsb_app, D. reflexivity.
    + right. rewrite existsb_app, D. apply orb_true_r.
Qed.

Lemma run_no_plot_first actions : forall w,
  consistent w ->
  ~ In plot_first (snd (run quadratic cubic akima draw savefig w actions)).
Proof.
  induction actions as [|a rest IH]; intros w C H; [exact H|].
  cbn [run] in H.
  pose proof (step_no_plot_first w a C) as N.
  pose proof (step_consistent w a C) as C1.
  destruct (step quadratic cubic akima draw savefig w a) as [w1 s1].
  specialize (IH w1 C1).
  destruct (run quadratic cubic akima draw savefig w1 rest) as [w2 s2].
  cbn [fst snd] in *. apply in_app_or in H as [H|H]; auto.
Qed.

Lemma run_keeps actions : forall w,
  (export_btn w = true ->
   export_btn (fst (run quadratic cubic akima draw savefig w actions)) = true)
  /\ (smooth_x w <> None ->
      smooth_x (fst (run quadratic cubic akima draw savefig w actions))
      <> None).
Proof.
  induction actions as [|a rest IH]; intros w; [cbn; auto|].
  cbn [run].
  pose proof (step_keeps w a) as K.
  destruct (step quadratic cubic akima draw savefig w a) as [w1 s1].
  specialize (IH w1).
  destruct (run quadratic cubic akima draw savefig w1 rest) as [w2 s2].
  cbn [fst] in *. destruct K, IH. split; auto.
Qed.

End Methods.

(** The sample data, evaluated. *)
Lemma preset_not_blank : strip preset_data <> [].
Proof. vm_compute. discriminate. Qed.

Lemma preset_parses : parse_input_data preset_data = Ok (preset_x, preset_y).
Proof. vm_compute. reflexivity. Qed.

Lemma preset_statistics :
  exists stats,
    calculate_statistics preset_y = Ok stats
    /\ stats_text stats = preset_stats_label.
Proof.
  eexists. split; [vm_compute; reflexivity|]. vm_compute. reflexivity.
Qed.

Lemma preset_linear :
  exists g y_lin,
    smooth_x_of preset_x 1000 = Ok g
    /\ linear_fallback preset_x preset_y g = Ok y_lin
    /\ length g = 1000.
Proof.
  eexists. eexists. split; [vm_compute; reflexivity|].
  split; [vm_compute; reflexivity|]. vm_compute. reflexivity.
Qed.

End WindowFacts.

(* ================================================================== *)
(** * The window: properties *)

Section WindowProperties.
Import Builtins ParserFacts GridFacts SmootherFacts PipelineFacts ReadingFacts.
Import Window WindowFacts.

Variable quadratic cubic akima :
  list float -> list float -> result Scipy.interp_func.
Variable draw : plot -> result unit.
Variable savefig : str -> result unit.

(** X16.  Whatever the user does from the start of the program, the
    window stays consistent: an enabled export button comes with a stored
    curve, a stored curve has 1000 abscissae, the two halves of the curve
    and the two halves of the data are stored together, and the method
    handed to [smooth_curve] is one of the four items of the combo box, so
    a supported one. *)
Theorem session_invariant actions :
  consistent (fst (run quadratic cubic akima draw savefig init actions))
  /\ supported
       (method_combo
          (fst (run quadratic cubic akima draw savefig init actions)))
     = true.
Proof.
  pose proof (run_consistent quadratic cubic akima draw savefig actions init
                consistent_init) as C.
  split; [exact C|].
  destruct C as (_ & _ & _ & _ & M).
  destruct M as [<-|[<-|[<-|[<-|[]]]]]; reflexivity.
Qed.

(** X17.  In a session nothing is saved before a curve has been drawn:
    each file saved comes after a drawing. *)
Theorem session_saves_after_drawing actions shown_before file_path shown_after :
  snd (run quadratic cubic akima draw savefig init actions)
  = shown_before ++ Saved file_path :: shown_after ->
  existsb is_drawn shown_before = true.
Proof.
  intros H.
  destruct (run_saved quadratic cubic akima draw savefig actions init
              _ _ _ H) as [B|D]; [discriminate B|exact D].
Qed.

(** X18.  In a session the warning of [export_image], that a curve must be
    plotted first, is never shown: the export button is enabled only once
    a curve is stored. *)
Theorem session_never_asks_to_plot_first actions :
  ~ In plot_first
      (snd (run quadratic cubic akima draw savefig init actions)).
Proof.
  apply run_no_plot_first. apply consistent_init.
Qed.

(** X19.  Once the export button is enabled and a curve is stored, the
    button stays enabled and a curve stays stored, whatever follows, a
    plot that fails included.  The curve stored need not be the one on
    the canvas: a plot whose text parses and smooths stores its points and
    its curve, and leaves the button enabled, whether its drawing goes
    through or fails. *)
Theorem session_export_stays_enabled w actions :
  export_btn w = true -> smooth_x w <> None ->
  (export_btn (fst (run quadratic cubic akima draw savefig w actions)) = true
   /\ smooth_x (fst (run quadratic cubic akima draw savefig w actions))
      <> None)
  /\ forall xs ys sx sy,
       strip (data_input w) <> [] ->
       parse_input_data (data_input w) = Ok (xs, ys) ->
       smooth_curve quadratic cubic akima xs ys (method_combo w) 1000
       = Ok (sx, sy) ->
       x_data (fst (plot_curve quadratic cubic akima draw w)) = xs
       /\ y_data (fst (plot_curve quadratic cubic akima draw w)) = ys
       /\ smooth_x (fst (plot_curve quadratic cubic akima draw w)) = Some sx
       /\ smooth_y (fst (plot_curve quadratic cubic akima draw w)) = Some sy
       /\ export_btn (fst (plot_curve quadratic cubic akima draw w)) = true.
Proof.
  intros B S. split.
  - destruct (run_keeps quadratic cubic akima draw savefig actions w)
      as [K1 K2].
    auto.
  - intros xs ys sx sy Hb Hp Hs.
    destruct (plot_curve_stores quadratic cubic akima draw w xs ys sx sy
                Hb Hp Hs) as (X & Y & Sx & Sy).
    repeat split; auto. now apply plot_curve_keeps_button.
Qed.

(** X20.  What [plot_curve] draws is the curve of the text in the editor:
    when it draws, the points drawn are those the parser returns for that
    text, the line drawn is what [smooth_curve] returns for them with the
    method of the combo box and 1000 samples, the window stores both, the
    statistics label shows the summary of the ordinates, and the export
    button is enabled. *)
Theorem plot_draws_current_text w p :
  In (Drawn p) (snd (plot_curve quadratic cubic akima draw w)) ->
  parse_input_data (data_input w) = Ok (scatter_x p, scatter_y p)
  /\ smooth_curve quadratic cubic akima (scatter_x p) (scatter_y p)
       (method_combo w) 1000
     = Ok (line_x p, line_y p)
  /\ length (line_x p) = 1000
  /\ x_data (fst (plot_curve quadratic cubic akima draw w)) = scatter_x p
  /\ y_data (fst (plot_curve quadratic cubic akima draw w)) = scatter_y p
  /\ smooth_x (fst (plot_curve quadratic cubic akima draw w))
     = Some (line_x p)
  /\ smooth_y (fst (plot_curve quadratic cubic akima draw w))
     = Some (line_y p)
  /\ export_btn (fst (plot_curve quadratic cubic akima draw w)) = true
  /\ exists stats,
       calculate_statistics (scatter_y p) = Ok stats
       /\ stats_label (fst (plot_curve quadratic cubic akima draw w))
          = stats_text stats.
Proof.
  unfold plot_curve.
  destruct (strip (data_input w)); [intros [H|[]]; discriminate H|].
  destruct (parse_input_data (data_input w)) as [[xs ys]|e];
    [|intros [H|[]]; discriminate H].
  destruct (calculate_statistics ys) as [stats|e] eqn:Cs;
    [|intros [H|[]]; discriminate H].
  destruct (smooth_curve quadratic cubic akima xs ys (method_combo w) 1000)
    as [[sx sy]|e] eqn:S; [|intros [H|[]]; discriminate H].
  pose proof (smooth_curve_length _ _ _ _ _ _ _ _ S) as Ls.
  destruct (draw _); intros [H|[]]; [|discriminate H].
  inversion H; subst. cbn. repeat split; auto. eauto.
Qed.

(** X21.  The sample data of the program plot: after [load_preset_data],
    whenever the drawing goes through, [plot_curve] stores the eleven
    points of the sample in the order written, shows their summary
    (minimum -0.959000, maximum 0.989000, mean 0.128182, count 11), stores
    a curve of 1000 samples, draws it and enables the export button,
    whatever the method and the interpolators. *)
Theorem preset_data_plots w :
  (forall p, draw p = Ok tt) ->
  x_data (fst (plot_curve quadratic cubic akima draw (load_preset_data w)))
  = preset_x
  /\ y_data (fst (plot_curve quadratic cubic akima draw (load_preset_data w)))
     = preset_y
  /\ stats_label
       (fst (plot_curve quadratic cubic akima draw (load_preset_data w)))
     = preset_stats_label
  /\ export_btn
       (fst (plot_curve quadratic cubic akima draw (load_preset_data w)))
     = true
  /\ (exists sx,
        smooth_x
          (fst (plot_curve quadratic cubic akima draw (load_preset_data w)))
        = Some sx
        /\ length sx = 1000)
  /\ exists p,
       snd (plot_curve quadratic cubic akima draw (load_preset_data w))
       = [Drawn p].
Proof.
  intros D.
  destruct preset_statistics as (stats & Cs & Tx).
  destruct preset_linear as (g & y_lin & G & Lin & Len).
  destruct (plot_curve_draws quadratic cubic akima draw (load_preset_data w)
              preset_x preset_y stats g y_lin
              preset_not_blank preset_parses Cs G Lin D) as (sy & p & ->).
  cbn [fst snd x_data y_data stats_label export_btn smooth_x].
  repeat split; auto; eauto.
Qed.

End WindowProperties.

Section WindowWitnesses.
Import Window.

Lemma session_saves_after_drawing_witness :
  existsb is_drawn
    [Drawn
       {| scatter_x := [0; 1]%float;
          scatter_y := [0; 1]%float;
          line_x := match smooth_curve failing_interpolator
                            failing_interpolator failing_interpolator
                            [0; 1]%float [0; 1]%float (u "linear") 1000 with
                    | Ok (sx, _) => sx
                    | Raise _ => []
                    end;
          line_y := match smooth_curve failing_interpolator
                            failing_interpolator failing_interpolator
                            [0; 1]%float [0; 1]%float (u "linear") 1000 with
                    | Ok (_, sy) => sy
                    | Raise _ => []
                    end;
          line_label := u "linear插值曲线";
          title := u "光滑曲线图";
          xlabel := u "X 坐标";
          ylabel := u "time" |}]
  = true.
Proof.
  apply (session_saves_after_drawing failing_interpolator
           failing_interpolator failing_interpolator draws saves
           [TypeData (text ["0 0"; "1 1"]); PickMethod 2;
            TypeYLabel (u " time "); PressPlot; PressExport (u "out.png")]
           _ (u "out.png")
           [Information (u "成功") (u "图片已成功导出到:" ++ NL :: u "out.png")]).
  vm_compute. reflexivity.
Defined.

Lemma session_export_stays_enabled_witness :
  snd (plot_curve failing_interpolator failing_interpolator
         failing_interpolator draws_eleven edited_window)
  = [plot_failed (OtherException (u "RuntimeError")
                    (u "the canvas is closed"))]
  /\ (export_btn
        (fst (run failing_interpolator failing_interpolator
                failing_interpolator draws_eleven saves edited_window
                [PressPlot; PressExport (u "out.png")])) = true
      /\ smooth_x
           (fst (run failing_interpolator failing_interpolator
                   failing_interpolator draws_eleven saves edited_window
                   [PressPlot; PressExport (u "out.png")])) <> None)
  /\ forall xs ys sx sy,
       strip (data_input edited_window) <> [] ->
       parse_input_data (data_input edited_window) = Ok (xs, ys) ->
       smooth_curve failing_interpolator failing_interpolator
         failing_interpolator xs ys (method_combo edited_window) 1000
       = Ok (sx, sy) ->
       x_data (fst (plot_curve failing_interpolator failing_interpolator
                      failing_interpolator draws_eleven edited_window)) = xs
       /\ y_data (fst (plot_curve failing_interpolator failing_interpolator
                         failing_interpolator draws_eleven edited_window))
          = ys
       /\ smooth_x (fst (plot_curve failing_interpolator
                           failing_interpolator failing_interpolator
                           draws_eleven edited_window)) = Some sx
       /\ smooth_y (fst (plot_curve failing_interpolator
                           failing_interpolator failing_interpolator
                           draws_eleven edited_window)) = Some sy
       /\ export_btn (fst (plot_curve failing_interpolator
                             failing_interpolator failing_interpolator
                             draws_eleven edited_window)) = true.
Proof.
  split; [vm_compute; reflexivity|].
  apply session_export_stays_enabled;
    [vm_compute; reflexivity|vm_compute; discriminate].
Defined.

Lemma plot_draws_current_text_witness :
  exists p,
    parse_input_data (text ["0 0"; "1 1"]) = Ok (scatter_x p, scatter_y p)
    /\ length (line_x p) = 1000
    /\ scatter_x p = [0; 1]%float.
Proof.
  pose (w := fst (step failing_interpolator failing_interpolator
                    failing_interpolator draws saves init
                    (TypeData (text ["0 0"; "1 1"])))).
  pose (r := plot_curve failing_interpolator failing_interpolator
               failing_interpolator draws w).
  assert (E : exists p, snd r = [Drawn p] /\ scatter_x p = [0; 1]%float).
  { eexists. split; [vm_compute; reflexivity|]. vm_compute. reflexivity. }
  destruct E as (p & E & Sx). exists p.
  destruct (plot_draws_current_text failing_interpolator
              failing_interpolator failing_interpolator draws w p)
    as (P & _ & L & _).
  - fold r. rewrite E. now left.
  - auto.
Defined.

Lemma preset_data_plots_witness :
  x_data (fst (plot_curve failing_interpolator failing_interpolator
                 failing_interpolator draws (load_preset_data init)))
  = preset_x
  /\ export_btn
       (fst (plot_curve failing_interpolator failing_interpolator
               failing_interpolator draws (load_preset_data init)))
     = true.
Proof.
  destruct (preset_data_plots failing_interpolator failing_interpolator
              failing_interpolator draws init (fun _ => eq_refl))
    as (X & _ & _ & B & _).
  auto.
Defined.

End WindowWitnesses.
